(** * EphemeralDB: the non-permanent document store of Orion

    A shallow embedding of [orion/core/io/database/ephemeraldb.py]:
    the codec ([_flatten], [_unflatten]), [EphemeralDocument],
    [EphemeralCollection] and the [EphemeralDB] facade, followed by the
    properties of the store that were checked against that code.

    Modelling conventions.
    - Python values are the closed type [value]: [None], [bool], [int]
      (unbounded, hence [Z]), [str], [list] and [dict] with string keys.
      Floats, tuples and user objects are outside the model.
    - A [dict] is insertion ordered (Python 3.7 and later) and [popitem]
      removes the item inserted last.  A dict is represented by the list
      of its items with the MOST RECENTLY INSERTED ITEM FIRST, so that
      [popitem] is the head of the list; [Py.items] gives the iteration
      order.  [Py.dict_of] builds a dict from its items written in
      insertion order, as in a Python literal.
    - Values are immutable trees: [copy.deepcopy] is the identity.  The
      place where the code mutates an object of its caller, the records
      handed to [insert_many], is modelled with an explicit store of
      caller objects ([heap]).  Not modelled: the records returned by
      [_unflatten] share their leaf objects (lists, empty dicts) with
      the stored document, so that a later mutation of such a leaf, by
      the caller or by [_unflatten] itself when a key extends the path
      of an empty dict, is seen through the document.  [select], [find],
      [count] and the reads of the facade are therefore given by the
      value they return; the collection they hand back is the one they
      found, which is what the code leaves as long as no document
      stores an empty record.
    - Exceptions are values of [exn]; a computation that may raise
      returns [Res]; methods that mutate [self] thread the state. *)

From Stdlib Require Import List String Ascii ZArith Bool Lia.
Import ListNotations.
Open Scope string_scope.
Open Scope list_scope.

(** ** Python values *)

#[local] Set Warnings "-register-all".

Inductive value : Type :=
| VNone
| VBool (b : bool)
| VInt (n : Z)
| VStr (s : string)
| VList (elements : list value)
| VDict (d : list (string * value)).

Definition pydict : Type := list (string * value).

(** Exceptions raised by the code or by the built-ins it calls. *)
Inductive value_error : Type :=
| UnsupportedOperator (operator : string)
| CannotMixSelection (keys : pydict).

Inductive exn : Type :=
| DuplicateKeyError (index : list string) (document_values : list value)
| ValueError (msg : value_error)
| KeyError (key : string)
| TypeError
| IndexError
| AttributeError.

Inductive Res (A : Type) : Type :=
| Ok (a : A)
| Raise (e : exn).
Arguments Ok {A} a.
Arguments Raise {A} e.

Definition bind {A B : Type} (m : Res A) (f : A -> Res B) : Res B :=
  match m with
  | Ok a => f a
  | Raise e => Raise e
  end.

Declare Scope res_scope.
Delimit Scope res_scope with res.
Notation "x <- m ;; k" := (bind m (fun x => k))
  (at level 61, m at next level, right associativity) : res_scope.
Open Scope res_scope.

(** ** The built-ins of Python the store relies on *)
Module Py.

(** *** Strings *)

(** [s.split(sep)] for a one-character separator: never empty. *)
Fixpoint split (sep : ascii) (s : string) : list string :=
  match s with
  | EmptyString => [EmptyString]
  | String c s' =>
      if Ascii.eqb c sep then EmptyString :: split sep s'
      else match split sep s' with
           | [] => [String c EmptyString]
           | part :: parts => String c part :: parts
           end
  end.

(** [sep.join(parts)] *)
Definition join (sep : string) (parts : list string) : string :=
  String.concat sep parts.

(** [s.startswith(p)] *)
Definition startswith (s p : string) : bool := String.prefix p s.

(** [s.replace(old, '')]: every non-overlapping occurrence of [old],
    scanning from the left, is removed; [skip] counts the characters of
    the occurrence being removed that are still to be dropped.  With an
    empty [old] the string is returned unchanged. *)
Fixpoint remove_all_aux (old : string) (skip : nat) (s : string) : string :=
  match s with
  | EmptyString => EmptyString
  | String c s' =>
      match skip with
      | S k => remove_all_aux old k s'
      | O => if String.prefix old s
             then remove_all_aux old (String.length old - 1) s'
             else String c (remove_all_aux old 0 s')
      end
  end.

Definition remove_all (s old : string) : string :=
  match old with
  | EmptyString => s
  | _ => remove_all_aux old 0 s
  end.

(** [s[0]] *)
Definition first_char (s : string) : Res ascii :=
  match s with
  | EmptyString => Raise IndexError
  | String c _ => Ok c
  end.

(** [a in b] for two strings *)
Fixpoint is_substring (a b : string) : bool :=
  String.prefix a b ||
  match b with
  | EmptyString => false
  | String _ b' => is_substring a b'
  end.

(** *** Equality, order, hashing, arithmetic *)

(** [bool] is a subclass of [int]: [True == 1]. *)
Definition as_int (v : value) : option Z :=
  match v with
  | VInt n => Some n
  | VBool b => Some (if b then 1%Z else 0%Z)
  | _ => None
  end.

(** [a == b]; dict equality ignores the insertion order. *)
Fixpoint eq (a b : value) {struct a} : bool :=
  match a, b with
  | VNone, VNone => true
  | VBool x, VBool y => Bool.eqb x y
  | VBool x, VInt n => Z.eqb (if x then 1 else 0) n
  | VInt n, VBool y => Z.eqb n (if y then 1 else 0)
  | VInt n, VInt m => Z.eqb n m
  | VStr s, VStr t => String.eqb s t
  | VList l, VList m =>
      (fix eq_list (l m : list value) {struct l} : bool :=
         match l, m with
         | [], [] => true
         | x :: l', y :: m' => eq x y && eq_list l' m'
         | _, _ => false
         end) l m
  | VDict d, VDict e =>
      Nat.eqb (List.length d) (List.length e) &&
      (fix eq_items (d : list (string * value)) : bool :=
         match d with
         | [] => true
         | (k, v) :: d' =>
             (fix eq_at (e : list (string * value)) : bool :=
                match e with
                | [] => false
                | (k', v') :: e' =>
                    if String.eqb k' k then eq v v' else eq_at e'
                end) e && eq_items d'
         end) d
  | _, _ => false
  end.

Inductive cmpop : Type := OpLt | OpLe | OpGt | OpGe.

Definition cmp_Z (op : cmpop) (x y : Z) : bool :=
  match op with
  | OpLt => Z.ltb x y
  | OpLe => Z.leb x y
  | OpGt => Z.ltb y x
  | OpGe => Z.leb y x
  end.

Definition cmp_string (op : cmpop) (x y : string) : bool :=
  match op with
  | OpLt => String.ltb x y
  | OpLe => String.leb x y
  | OpGt => String.ltb y x
  | OpGe => String.leb y x
  end.

Definition cmp_nat (op : cmpop) (x y : nat) : bool :=
  match op with
  | OpLt => Nat.ltb x y
  | OpLe => Nat.leb x y
  | OpGt => Nat.ltb y x
  | OpGe => Nat.leb y x
  end.

(** [a < b], [a <= b], [a > b], [a >= b]; [None] stands for the
    [TypeError] of unorderable operands.  Lists compare
    lexicographically: the first pair of unequal elements decides,
    otherwise the lengths do. *)
Fixpoint compare (op : cmpop) (a b : value) {struct a} : option bool :=
  match a, b with
  | VList l, VList m =>
      (fix compare_list (l m : list value) {struct l} : option bool :=
         match l, m with
         | x :: l', y :: m' =>
             if eq x y then compare_list l' m' else compare op x y
         | _, _ => Some (cmp_nat op (List.length l) (List.length m))
         end) l m
  | VStr s, VStr t => Some (cmp_string op s t)
  | _, _ =>
      match as_int a, as_int b with
      | Some x, Some y => Some (cmp_Z op x y)
      | _, _ => None
      end
  end.

Definition compare_res (op : cmpop) (a b : value) : Res bool :=
  match compare op a b with
  | Some r => Ok r
  | None => Raise TypeError
  end.

(** [hash(v)] succeeds: lists and dicts are unhashable. *)
Definition hashable (v : value) : bool :=
  match v with
  | VList _ | VDict _ => false
  | _ => true
  end.

(** [a + b] where [a] is an [int]: the step of [sum] and the [+ 1] of
    [_get_new_id]. *)
Definition add_int (a : Z) (b : value) : Res Z :=
  match as_int b with
  | Some n => Ok (a + n)%Z
  | None => Raise TypeError
  end.

(** [sum(l)] *)
Fixpoint sum_from (acc : Z) (l : list value) : Res Z :=
  match l with
  | [] => Ok acc
  | v :: l' => acc' <- add_int acc v ;; sum_from acc' l'
  end.

Definition sum (l : list value) : Res Z := sum_from 0%Z l.

(** The truth value of [v], as tested by [if v] and [not v] *)
Definition truthy (v : value) : bool :=
  match v with
  | VNone => false
  | VBool b => b
  | VInt n => negb (Z.eqb n 0)
  | VStr s => negb (String.eqb s "")
  | VList l => match l with [] => false | _ => true end
  | VDict d => match d with [] => false | _ => true end
  end.

(** Equality of two tuples of values *)
Fixpoint eq_tuple (t u : list value) : bool :=
  match t, u with
  | [], [] => true
  | x :: t', y :: u' => eq x y && eq_tuple t' u'
  | _, _ => false
  end.

(** [t in s] for a tuple [t] and a set of tuples [s]: the tuple is
    hashed first, which fails on an unhashable component. *)
Definition tuple_in_set (t : list value) (s : list (list value)) : Res bool :=
  if forallb hashable t then Ok (existsb (eq_tuple t) s) else Raise TypeError.

(** [s.add(t)], once [t] is known to be hashable *)
Definition set_add (s : list (list value)) (t : list value) : list (list value) :=
  if existsb (eq_tuple t) s then s else s ++ [t].

(** *** Dicts (most recently inserted item first) *)

(** [d.get(key)], [None] when the key is absent *)
Fixpoint get (d : pydict) (key : string) : option value :=
  match d with
  | [] => None
  | (k, v) :: d' => if String.eqb k key then Some v else get d' key
  end.

(** [key in d] *)
Definition contains (d : pydict) (key : string) : bool :=
  match get d key with
  | Some _ => true
  | None => false
  end.

(** [d[key]] *)
Definition getitem (d : pydict) (key : string) : Res value :=
  match get d key with
  | Some v => Ok v
  | None => Raise (KeyError key)
  end.

(** The assignment to a key that is present keeps its position. *)
Fixpoint replace (d : pydict) (key : string) (v : value) : pydict :=
  match d with
  | [] => []
  | (k, w) :: d' =>
      if String.eqb k key then (k, v) :: d' else (k, w) :: replace d' key v
  end.

(** [d[key] = v]: a new key becomes the most recent item. *)
Definition setitem (d : pydict) (key : string) (v : value) : pydict :=
  if contains d key then replace d key v else (key, v) :: d.

(** The dict left by [d.pop(key)]; a key occurs once in a dict, so the
    filter removes its item. *)
Definition remove (d : pydict) (key : string) : pydict :=
  filter (fun kv => negb (String.eqb (fst kv) key)) d.

(** [d.items()], [d.keys()] in iteration (insertion) order *)
Definition items (d : pydict) : list (string * value) := rev d.
Definition keys (d : pydict) : list string := map fst (items d).

(** [d.update(other)]: the items of [other] are assigned in order. *)
Definition update (d other : pydict) : pydict :=
  fold_left (fun acc kv => setitem acc (fst kv) (snd kv)) (items other) d.

(** [d.setdefault(key, v)] *)
Definition setdefault (d : pydict) (key : string) (v : value) : pydict :=
  if contains d key then d else setitem d key v.

(** The dict literal whose items are written in insertion order. *)
Definition dict_of (l : list (string * value)) : pydict :=
  fold_left (fun acc kv => setitem acc (fst kv) (snd kv)) l [].

(** [copy.deepcopy]: values are immutable trees. *)
Definition deepcopy (d : pydict) : pydict := d.

(** [a in b] for an arbitrary container [b]: membership in a list,
    substring of a string, key of a dict; anything else is not
    iterable. *)
Definition contains_value (a b : value) : Res bool :=
  match b with
  | VList l => Ok (existsb (eq a) l)
  | VStr t => match a with
              | VStr s => Ok (is_substring s t)
              | _ => Raise TypeError
              end
  | VDict d => match a with
               | VStr s => Ok (contains d s)
               | VList _ | VDict _ => Raise TypeError
               | _ => Ok false
               end
  | _ => Raise TypeError
  end.

End Py.

(** ** The codec *)

Definition dot : ascii := "."%char.

(** The renaming loop of [__flatten]:
<<
    for flat_sub_key in list(flat_sub_dictionary.keys()):
        flat_key = key + '.' + flat_sub_key
        flat_sub_dictionary[flat_key] = flat_sub_dictionary.pop(flat_sub_key)
>>
    The keys are a snapshot, the dict is updated in place: the value
    moved is the one the LIVE dict holds.  [pop] cannot raise here
    (lemma [rename_keys_defined]); the model leaves the dict unchanged
    in that unreachable branch. *)
Definition rename_key (key : string) (flat_sub_dictionary : pydict)
    (flat_sub_key : string) : pydict :=
  let flat_key := (key ++ "." ++ flat_sub_key)%string in
  match Py.get flat_sub_dictionary flat_sub_key with
  | Some v => Py.setitem (Py.remove flat_sub_dictionary flat_sub_key) flat_key v
  | None => flat_sub_dictionary
  end.

Definition rename_keys (key : string) (flat_sub_dictionary : pydict) : pydict :=
  fold_left (rename_key key) (Py.keys flat_sub_dictionary) flat_sub_dictionary.

(** [__flatten], by recursion on the value that holds the dict: the
    inner [fix] is the function of the source, its two recursive calls
    are [go dictionary] (the rest of the dict after [popitem]; the
    source calls [__flatten(dictionary)] in the leaf case and
    [_flatten(dictionary)], which copies first, in the other) and
    [flatten_value value] (the nested record).  [flatten_cons] is the
    equation of the source. *)
Fixpoint flatten_value (v : value) : pydict :=
  match v with
  | VDict d =>
      (fix go (dictionary : pydict) : pydict :=
         match dictionary with
         | [] => []
         | (key, value) :: dictionary =>
             match value with
             | VDict (_ :: _) =>
                 let flat_sub_dictionary := flatten_value value in
                 let new_dictionary := rename_keys key flat_sub_dictionary in
                 Py.update new_dictionary (go dictionary)
             | _ =>
                 let new_dictionary := [(key, value)] in
                 Py.update new_dictionary (go dictionary)
             end
         end) d
  | _ => []
  end.

Definition __flatten (dictionary : pydict) : pydict :=
  flatten_value (VDict dictionary).

Definition _flatten (dictionary : pydict) : pydict :=
  __flatten (Py.deepcopy dictionary).

(** The walk of [_unflatten] along [parts[:-1]] followed by the
    assignment to [parts[-1]], as a function that returns the record
    [sub_dictionary] has become.  Descending into, or assigning into, a
    value that is not a dict raises [TypeError]. *)
Fixpoint assign_path (sub_dictionary : value) (init : list string)
    (last : string) (v : value) : Res value :=
  match sub_dictionary with
  | VDict d =>
      match init with
      | [] => Ok (VDict (Py.setitem d last v))
      | part :: init' =>
          let child := match Py.get d part with
                       | Some c => c
                       | None => VDict []
                       end in
          child' <- assign_path child init' last v ;;
          Ok (VDict (Py.setitem d part child'))
      end
  | _ => Raise TypeError
  end.

Definition unflatten_item (unflattened_dictionary : pydict)
    (item : string * value) : Res pydict :=
  let (key, v) := item in
  let parts := Py.split dot key in
  r <- assign_path (VDict unflattened_dictionary)
         (removelast parts) (List.last parts "") v ;;
  match r with
  | VDict d => Ok d
  | _ => Raise TypeError
  end.

Fixpoint unflatten_items (unflattened_dictionary : pydict)
    (l : list (string * value)) : Res pydict :=
  match l with
  | [] => Ok unflattened_dictionary
  | item :: l' =>
      d <- unflatten_item unflattened_dictionary item ;;
      unflatten_items d l'
  end.

(** [_unflatten]: the record one call returns.  The code puts the leaf
    objects of [dictionary] themselves in that record and, when a later
    key extends the path of a stored empty record, writes into that
    stored object; this write is not modelled, so that the definition
    says what a call returns on a given map and nothing of the map it
    leaves. *)
Definition _unflatten (dictionary : pydict) : Res pydict :=
  unflatten_items [] (Py.items dictionary).


(** ** EphemeralDocument *)

Record EphemeralDocument : Type := Document { _data : pydict }.

(** [EphemeralDocument.__init__] *)
Definition new_document (data : pydict) : EphemeralDocument :=
  {| _data := _flatten data |}.

(** [EphemeralDocument.operators] *)
Definition operator : Type := value -> value -> Res bool.

Definition op_in : operator := fun a b => Py.contains_value a b.

Definition op_compare (op : Py.cmpop) : operator :=
  fun a b =>
    match a with
    | VNone => Ok false
    | _ => Py.compare_res op a b
    end.

Definition operators : list (string * operator) :=
  [ ("$in", op_in);
    ("$gte", op_compare Py.OpGe);
    ("$gt", op_compare Py.OpGt);
    ("$lte", op_compare Py.OpLe) ].

Fixpoint lookup_operator (table : list (string * operator)) (name : string)
    : option operator :=
  match table with
  | [] => None
  | (n, f) :: table' =>
      if String.eqb n name then Some f else lookup_operator table' name
  end.

(** [__contains__] and [__getitem__] *)
Definition doc_contains (self : EphemeralDocument) (key : string) : bool :=
  Py.contains (_data self) key.

Definition doc_getitem (self : EphemeralDocument) (key : string) : Res value :=
  Py.getitem (_data self) key.

Definition _is_operator (key : string) : bool :=
  Py.startswith (List.last (Py.split dot key) "") "$".

Definition _get_key_operator (key : string) : Res (string * operator) :=
  let operator := List.last (Py.split dot key) "" in
  let key := Py.join "." (removelast (Py.split dot key)) in
  match lookup_operator operators operator with
  | None => Raise (ValueError (UnsupportedOperator operator))
  | Some f => Ok (key, f)
  end.

Definition match_key (self : EphemeralDocument) (key : string) (v : value)
    : Res bool :=
  if _is_operator key then
    ko <- _get_key_operator key ;;
    let (key, operator) := ko in
    match Py.get (_data self) key with
    | Some stored => operator stored v
    | None => Ok false
    end
  else
    match Py.get (_data self) key with
    | Some stored => Ok (Py.eq stored v)
    | None => Ok false
    end.

(** The loop of [match] over the items of the flattened query *)
Fixpoint match_items (self : EphemeralDocument) (l : list (string * value))
    : Res bool :=
  match l with
  | [] => Ok true
  | (key, v) :: l' =>
      b <- match_key self key v ;;
      if b then match_items self l' else Ok false
  end.

(** [match]; the name is a keyword of Rocq, hence [match_]. *)
Definition match_ (self : EphemeralDocument) (query : option pydict) : Res bool :=
  match query with
  | None => Ok true
  | Some [] => Ok true
  | Some query => match_items self (Py.items (_flatten query))
  end.

(** The local function [key_is_match] of [select] *)
Definition key_is_match (key selected_key : string) : Res bool :=
  if String.eqb key selected_key then Ok true
  else if Py.startswith key selected_key then
    c <- Py.first_char (Py.remove_all key selected_key) ;;
    Ok (Ascii.eqb c dot)
  else Ok false.

(** [keys[key] for key in l] *)
Fixpoint getitems (keys : pydict) (l : list string) : Res (list value) :=
  match l with
  | [] => Ok []
  | key :: l' =>
      v <- Py.getitem keys key ;;
      vs <- getitems keys l' ;;
      Ok (v :: vs)
  end.

Definition _validate_keys (self : EphemeralDocument) (keys : pydict) : Res pydict :=
  if Nat.eqb (List.length keys) 1 &&
     Py.eq (match Py.get keys "_id" with Some v => v | None => VInt 0 end) (VInt 1)
  then Ok keys
  else
    let keys_without_id :=
      filter (fun key => negb (String.eqb key "_id")) (Py.keys keys) in
    values <- getitems keys keys_without_id ;;
    n_keys <- Py.sum values ;;
    if negb (Z.eqb n_keys 0) &&
       negb (Z.eqb n_keys (Z.of_nat (List.length keys_without_id)))
    then Raise (ValueError (CannotMixSelection keys))
    else
      let keys :=
        if Z.eqb n_keys 0 then
          let new_keys :=
            Py.dict_of
              (map (fun key => (key, VInt 1))
                 (filter (fun key => negb (Py.contains keys key))
                    (Py.keys (_data self)))) in
          Py.setitem new_keys "_id"
            (match Py.get keys "_id" with Some v => v | None => VInt 1 end)
        else keys in
      Ok (Py.setdefault keys "_id" (VInt 1)).

(** The two nested loops of [select], which fill [selection] *)
Fixpoint select_keys (key : string) (v : value)
    (keys : list (string * value)) (selection : pydict) : Res pydict :=
  match keys with
  | [] => Ok selection
  | (selected_key, include) :: keys' =>
      if Py.truthy include then
        m <- key_is_match key selected_key ;;
        select_keys key v keys'
          (if m then Py.setitem selection key v else selection)
      else select_keys key v keys' selection
  end.

Fixpoint select_data (data : list (string * value))
    (keys : list (string * value)) (selection : pydict) : Res pydict :=
  match data with
  | [] => Ok selection
  | (key, v) :: data' =>
      selection' <- select_keys key v keys selection ;;
      select_data data' keys selection'
  end.

Definition select (self : EphemeralDocument) (keys : option pydict) : Res pydict :=
  match keys with
  | None => _unflatten (_data self)
  | Some [] => _unflatten (_data self)
  | Some keys =>
      let keys := _flatten keys in
      keys <- _validate_keys self keys ;;
      selection <- select_data (Py.items (_data self)) (Py.items keys) [] ;;
      _unflatten selection
  end.

(** [update]: [_flatten] calls [popitem] on its argument, which only a
    dict has. *)
Definition update (self : EphemeralDocument) (data : pydict)
    : Res EphemeralDocument :=
  match (match Py.get data "$set" with Some v => v | None => VDict data end) with
  | VDict d => Ok {| _data := Py.update (_data self) (_flatten d) |}
  | _ => Raise AttributeError
  end.

Definition to_dict (self : EphemeralDocument) : Res pydict :=
  select self (Some []).

(** ** EphemeralCollection *)

(** An index is named by the tuple of its field names; [_indexes] maps
    each tracked index to the set of value tuples seen (kept here in
    insertion order of the indexes, the order [_validate_index] and
    [_register_keys] iterate in). *)
Definition index_key : Type := list string.
Definition value_set : Type := list (list value).

Record EphemeralCollection : Type := Collection {
  _documents : list EphemeralDocument;
  _indexes : list (index_key * value_set)
}.

Fixpoint index_eqb (i j : index_key) : bool :=
  match i, j with
  | [], [] => true
  | x :: i', y :: j' => String.eqb x y && index_eqb i' j'
  | _, _ => false
  end.

(** [self._indexes.get(index)] and [self._indexes[index] = values] *)
Fixpoint get_index (indexes : list (index_key * value_set)) (index : index_key)
    : option value_set :=
  match indexes with
  | [] => None
  | (i, values) :: indexes' =>
      if index_eqb i index then Some values else get_index indexes' index
  end.

Fixpoint set_index (indexes : list (index_key * value_set)) (index : index_key)
    (values : value_set) : list (index_key * value_set) :=
  match indexes with
  | [] => [(index, values)]
  | (i, old) :: indexes' =>
      if index_eqb i index then (i, values) :: indexes'
      else (i, old) :: set_index indexes' index values
  end.

(** [tuple(document[key] for key in index)] *)
Fixpoint document_values_of (document : EphemeralDocument) (index : index_key)
    : Res (list value) :=
  match index with
  | [] => Ok []
  | key :: index' =>
      v <- doc_getitem document key ;;
      vs <- document_values_of document index' ;;
      Ok (v :: vs)
  end.

(** [_validate_index]; [indexes] is the list iterated over, which is
    [self._indexes.keys()] when the argument is omitted. *)
Fixpoint validate_indexes (self : EphemeralCollection)
    (document : EphemeralDocument) (indexes : list index_key) : Res unit :=
  match indexes with
  | [] => Ok tt
  | index :: indexes' =>
      document_values <- document_values_of document index ;;
      tracked <- match get_index (_indexes self) index with
                 | Some values => Ok values
                 | None => Raise (KeyError (Py.join "," index))
                 end ;;
      dup <- Py.tuple_in_set document_values tracked ;;
      if dup then Raise (DuplicateKeyError index document_values)
      else validate_indexes self document indexes'
  end.

Definition _validate_index (self : EphemeralCollection)
    (document : EphemeralDocument) (indexes : option (list index_key)) : Res unit :=
  match indexes with
  | None => validate_indexes self document (map fst (_indexes self))
  | Some indexes => validate_indexes self document indexes
  end.

(** [_register_keys]: every tracked set receives the value tuple of the
    document; the sets updated before an exception stay updated. *)
Fixpoint register_indexes (document : EphemeralDocument)
    (indexes : list (index_key * value_set))
    : Res unit * list (index_key * value_set) :=
  match indexes with
  | [] => (Ok tt, [])
  | (index, values) :: indexes' =>
      match document_values_of document index with
      | Raise e => (Raise e, indexes)
      | Ok document_values =>
          if forallb Py.hashable document_values then
            let (r, rest) := register_indexes document indexes' in
            (r, (index, Py.set_add values document_values) :: rest)
          else (Raise TypeError, indexes)
      end
  end.

Definition _register_keys (document : EphemeralDocument)
    (self : EphemeralCollection) : Res unit * EphemeralCollection :=
  let (r, indexes) := register_indexes document (_indexes self) in
  (r, {| _documents := _documents self; _indexes := indexes |}).

(** The argument of [create_index]: one field name or a list of
    [(field, order)] pairs. *)
Inductive index_spec : Type :=
| SingleKey (key : string)
| KeyList (keys : list (string * value)).

(** The loop of [create_index] over the existing documents *)
Fixpoint create_index_loop (keys : index_key)
    (documents : list EphemeralDocument) (self : EphemeralCollection)
    : Res unit * EphemeralCollection :=
  match documents with
  | [] => (Ok tt, self)
  | document :: documents' =>
      match _validate_index self document (Some [keys]) with
      | Raise e => (Raise e, self)
      | Ok _ =>
          match document_values_of document keys, get_index (_indexes self) keys with
          | Ok document_values, Some values =>
              create_index_loop keys documents'
                {| _documents := _documents self;
                   _indexes := set_index (_indexes self) keys
                                 (Py.set_add values document_values) |}
          | Raise e, _ => (Raise e, self)
          | _, None => (Raise (KeyError (Py.join "," keys)), self)
          end
      end
  end.

Definition create_index (keys : index_spec) (unique : bool)
    (self : EphemeralCollection) : Res unit * EphemeralCollection :=
  let keys := match keys with
              | SingleKey key => [(key, VNone)]
              | KeyList keys => keys
              end in
  let keys := map fst keys in
  if unique && negb (match get_index (_indexes self) keys with
                     | Some _ => true
                     | None => false
                     end)
  then
    create_index_loop keys (_documents self)
      {| _documents := _documents self;
         _indexes := set_index (_indexes self) keys [] |}
  else (Ok tt, self).

(** [EphemeralCollection.__init__] *)
Definition new_collection : EphemeralCollection :=
  snd (create_index (SingleKey "_id") true
         {| _documents := []; _indexes := [] |}).

(** [find] *)
Fixpoint find_loop (documents : list EphemeralDocument)
    (query selection : option pydict) : Res (list pydict) :=
  match documents with
  | [] => Ok []
  | document :: documents' =>
      m <- match_ document query ;;
      if m then
        selected <- select document selection ;;
        found_documents <- find_loop documents' query selection ;;
        Ok (selected :: found_documents)
      else find_loop documents' query selection
  end.

(** [find] and [count] are given by the value they return.  [match]
    reads only; [select] can change the stored document through
    [_unflatten] (see there), an effect that is left out. *)
Definition find (self : EphemeralCollection) (query selection : option pydict)
    : Res (list pydict) :=
  find_loop (_documents self) query selection.

(** [count] *)
Definition count (self : EphemeralCollection) (query : option pydict) : Res nat :=
  found <- find self query None ;;
  Ok (List.length found).

(** [max(d['_id'] for d in self._documents)]: the generator is consumed
    one document at a time, each item being compared with the current
    maximum ([item > maxitem]) before the next one is produced. *)
Fixpoint max_id (maxitem : value) (documents : list EphemeralDocument) : Res value :=
  match documents with
  | [] => Ok maxitem
  | d :: documents' =>
      item <- doc_getitem d "_id" ;;
      gt <- Py.compare_res Py.OpGt item maxitem ;;
      max_id (if gt then item else maxitem) documents'
  end.

Definition _get_new_id (self : EphemeralCollection) : Res value :=
  match _documents self with
  | [] => Ok (VInt 1)
  | d :: documents =>
      first <- doc_getitem d "_id" ;;
      m <- max_id first documents ;;
      n <- Py.add_int 1 m ;;
      Ok (VInt n)
  end.

(** The records handed to [insert_many] are objects of the caller,
    which the method mutates: [heap] is the store of those objects and
    a [loc] names one of them.  The same object may occur twice in a
    batch. *)
Definition loc : Type := nat.
Definition heap : Type := loc -> pydict.

Definition heap_set (h : heap) (l : loc) (d : pydict) : heap :=
  fun l' => if Nat.eqb l' l then d else h l'.

(** The first two lines of the loop of [insert_many]:
<<
    if '_id' not in document:
        document['_id'] = self._get_new_id()
>>
    The result is the store of caller objects after the assignment. *)
Definition assign_id (document : loc) (h : heap) (self : EphemeralCollection)
    : Res heap :=
  if negb (Py.contains (h document) "_id") then
    new_id <- _get_new_id self ;;
    Ok (heap_set h document (Py.setitem (h document) "_id" new_id))
  else Ok h.

(** One iteration of the loop of [insert_many] on the object [document]:
<<
    ephemeral_document = EphemeralDocument(document)
    self._validate_index(ephemeral_document)
    self._documents.append(ephemeral_document)
    self._register_keys(ephemeral_document)
>> *)
Definition insert_one (document : loc) (st : heap * EphemeralCollection)
    : Res unit * (heap * EphemeralCollection) :=
  let (h, self) := st in
  match assign_id document h self with
  | Raise e => (Raise e, (h, self))
  | Ok h =>
      let ephemeral_document := new_document (h document) in
      match _validate_index self ephemeral_document None with
      | Raise e => (Raise e, (h, self))
      | Ok _ =>
          let self := {| _documents := _documents self ++ [ephemeral_document];
                         _indexes := _indexes self |} in
          let (r, self) := _register_keys ephemeral_document self in
          (r, (h, self))
      end
  end.

Fixpoint insert_loop (documents : list loc) (st : heap * EphemeralCollection)
    : Res unit * (heap * EphemeralCollection) :=
  match documents with
  | [] => (Ok tt, st)
  | document :: documents' =>
      match insert_one document st with
      | (Ok _, st') => insert_loop documents' st'
      | (Raise e, st') => (Raise e, st')
      end
  end.

Definition insert_many (documents : list loc) (st : heap * EphemeralCollection)
    : Res nat * (heap * EphemeralCollection) :=
  match insert_loop documents st with
  | (Ok _, st') => (Ok (List.length documents), st')
  | (Raise e, st') => (Raise e, st')
  end.

(** [update_many]: the documents are updated in place, one after the
    other; those updated before an exception stay updated. *)
Fixpoint update_loop (documents : list EphemeralDocument)
    (query : option pydict) (upd : pydict) (updates : nat)
    : Res nat * list EphemeralDocument :=
  match documents with
  | [] => (Ok updates, [])
  | document :: documents' =>
      match match_ document query with
      | Raise e => (Raise e, documents)
      | Ok false =>
          let (r, rest) := update_loop documents' query upd updates in
          (r, document :: rest)
      | Ok true =>
          match update document upd with
          | Raise e => (Raise e, documents)
          | Ok document' =>
              let (r, rest) := update_loop documents' query upd (S updates) in
              (r, document' :: rest)
          end
      end
  end.

Definition update_many (query : option pydict) (upd : pydict)
    (self : EphemeralCollection) : Res nat * EphemeralCollection :=
  let (r, documents) := update_loop (_documents self) query upd 0 in
  (r, {| _documents := documents; _indexes := _indexes self |}).

(** [delete_many]: [self._documents] is replaced after the loop only. *)
Fixpoint delete_loop (documents : list EphemeralDocument)
    (query : option pydict) (deleted : nat)
    (retained_documents : list EphemeralDocument)
    : Res (nat * list EphemeralDocument) :=
  match documents with
  | [] => Ok (deleted, retained_documents)
  | document :: documents' =>
      m <- match_ document query ;;
      if negb m
      then delete_loop documents' query deleted (retained_documents ++ [document])
      else delete_loop documents' query (S deleted) retained_documents
  end.

Definition delete_many (query : option pydict) (self : EphemeralCollection)
    : Res nat * EphemeralCollection :=
  match delete_loop (_documents self) query 0 [] with
  | Raise e => (Raise e, self)
  | Ok (deleted, retained_documents) =>
      (Ok deleted, {| _documents := retained_documents;
                      _indexes := _indexes self |})
  end.

(** [drop] *)
Definition drop (self : EphemeralCollection) : EphemeralCollection :=
  {| _documents := []; _indexes := [] |}.

(** ** EphemeralDB *)

(** [_db] is a [defaultdict(EphemeralCollection)]: looking a name up
    creates the collection; it is [None] once the connection is
    closed. *)
Record EphemeralDB : Type := Database {
  _db : option (list (string * EphemeralCollection))
}.

Definition initiate_connection (self : EphemeralDB) : EphemeralDB :=
  {| _db := Some [] |}.

Definition close_connection (self : EphemeralDB) : EphemeralDB :=
  {| _db := None |}.

Definition is_connected (self : EphemeralDB) : bool := true.

Fixpoint get_collection (db : list (string * EphemeralCollection))
    (collection_name : string) : option EphemeralCollection :=
  match db with
  | [] => None
  | (name, c) :: db' =>
      if String.eqb name collection_name then Some c
      else get_collection db' collection_name
  end.

Fixpoint set_collection (db : list (string * EphemeralCollection))
    (collection_name : string) (c : EphemeralCollection)
    : list (string * EphemeralCollection) :=
  match db with
  | [] => [(collection_name, c)]
  | (name, old) :: db' =>
      if String.eqb name collection_name then (name, c) :: db'
      else (name, old) :: set_collection db' collection_name c
  end.

(** The state of a session: the objects of the caller and the store. *)
Definition world : Type := heap * EphemeralDB.

(** [dbcollection = self._db[collection_name]] followed by a call of a
    method of [dbcollection], which mutates the collection held by
    [_db]. *)
Definition with_collection {A : Type} (collection_name : string)
    (method : heap * EphemeralCollection -> Res A * (heap * EphemeralCollection))
    (w : world) : Res A * world :=
  let (h, self) := w in
  match _db self with
  | None => (Raise TypeError, w)
  | Some db =>
      let dbcollection := match get_collection db collection_name with
                          | Some c => c
                          | None => new_collection
                          end in
      let '(r, (h', dbcollection')) := method (h, dbcollection) in
      (r, (h', {| _db := Some (set_collection db collection_name dbcollection') |}))
  end.

(** A method that leaves the objects of the caller alone *)
Definition on_self {A : Type}
    (method : EphemeralCollection -> Res A * EphemeralCollection)
    (st : heap * EphemeralCollection) : Res A * (heap * EphemeralCollection) :=
  let (r, self) := method (snd st) in (r, (fst st, self)).

(** A method given by the value it returns ([find], [count]): the
    collection is handed back as it was, which leaves out the write of
    [_unflatten] into a stored empty record. *)
Definition pure_method {A : Type} (method : EphemeralCollection -> Res A)
    (self : EphemeralCollection) : Res A * EphemeralCollection :=
  (method self, self).

Definition ensure_index (collection_name : string) (keys : index_spec)
    (unique : bool) : world -> Res unit * world :=
  with_collection collection_name (on_self (create_index keys unique)).

(** The [data] of [write]: one record or a batch of records of the
    caller. *)
Inductive write_data : Type :=
| OneRecord (l : loc)
| Batch (ls : list loc).

Definition data_value (h : heap) (data : write_data) : value :=
  match data with
  | OneRecord l => VDict (h l)
  | Batch ls => VList (map (fun l => VDict (h l)) ls)
  end.

Definition write (collection_name : string) (data : write_data)
    (query : option pydict) : world -> Res nat * world :=
  match query with
  | None =>
      let data := match data with
                  | OneRecord l => [l]
                  | Batch ls => ls
                  end in
      with_collection collection_name (insert_many data)
  | Some query =>
      fun w =>
        let update_data := Py.dict_of [("$set", data_value (fst w) data)] in
        with_collection collection_name
          (on_self (update_many (Some query) update_data)) w
  end.

Definition read (collection_name : string) (query selection : option pydict)
    : world -> Res (list pydict) * world :=
  with_collection collection_name
    (on_self (pure_method (fun dbcollection => find dbcollection query selection))).

(** [read_and_write]; the result [None] is Python's [None]. *)
Definition read_and_write (collection_name : string) (query : option pydict)
    (data : write_data) (selection : option pydict)
    : world -> Res (option pydict) * world :=
  fun w =>
    match read collection_name query None w with
    | (Raise e, w) => (Raise e, w)
    | (Ok [], w) => (Ok None, w)
    | (Ok (first :: _), w) =>
        match Py.getitem first "_id" with
        | Raise e => (Raise e, w)
        | Ok found_id =>
            let id_query := Py.dict_of [("_id", found_id)] in
            match write collection_name data (Some id_query) w with
            | (Raise e, w) => (Raise e, w)
            | (Ok _, w) =>
                match read collection_name (Some id_query) None w with
                | (Raise e, w) => (Raise e, w)
                | (Ok [], w) => (Raise IndexError, w)
                | (Ok (updated :: _), w) => (Ok (Some updated), w)
                end
            end
        end
    end.

(** [count] and [remove] of the facade; the names [count] and [remove]
    are taken in this file by the method of the collection and by a
    function of the standard library. *)
Definition db_count (collection_name : string) (query : option pydict)
    : world -> Res nat * world :=
  with_collection collection_name
    (on_self (pure_method (fun dbcollection => count dbcollection query))).

Definition db_remove (collection_name : string) (query : option pydict)
    : world -> Res nat * world :=
  with_collection collection_name (on_self (delete_many query)).

(** * Vocabulary of the properties, and the inputs of the examples *)

(** The [_id] of a stored document *)
Definition id_of (document : EphemeralDocument) : option value :=
  Py.get (_data document) "_id".

(** The string has a literal "." *)
Fixpoint has_dot (s : string) : bool :=
  match s with
  | EmptyString => false
  | String c s' => Ascii.eqb c dot || has_dot s'
  end.

(** No key of the record, at any depth, has a literal "." *)
Fixpoint dot_free (v : value) : bool :=
  match v with
  | VDict d =>
      (fix all (d : list (string * value)) : bool :=
         match d with
         | [] => true
         | (k, x) :: d' => negb (has_dot k) && dot_free x && all d'
         end) d
  | _ => true
  end.

(** The renaming loop of [__flatten] never pops a missing key: each key
    of the snapshot [ks] is in the dict when its turn comes *)
Fixpoint rename_defined (key : string) (ks : list string) (d : pydict) : Prop :=
  match ks with
  | [] => True
  | k :: ks' => Py.get d k <> None /\ rename_defined key ks' (rename_key key d k)
  end.

(** The value found in a nested record by following [parts] *)
Fixpoint lookup_path (x : value) (parts : list string) : option value :=
  match parts with
  | [] => Some x
  | part :: parts' =>
      match x with
      | VDict d =>
          match Py.get d part with
          | Some child => lookup_path child parts'
          | None => None
          end
      | _ => None
      end
  end.

Definition is_dict (v : value) : bool :=
  match v with
  | VDict _ => true
  | _ => false
  end.

(** [k1] is a strict dotted prefix of [k2] *)
Definition strict_dotted_prefix (k1 k2 : string) : Prop :=
  exists rest, rest <> [] /\ Py.split dot k2 = Py.split dot k1 ++ rest.

(** [k1] is a dotted prefix of [k2], or [k2] itself *)
Definition dotted_prefix (k1 k2 : string) : Prop :=
  exists rest, Py.split dot k2 = Py.split dot k1 ++ rest.

(** The record [{"a": {"b": 1, "a": {"b": 2}}}] *)
Definition nested_twice : pydict :=
  Py.dict_of
    [("a", VDict (Py.dict_of
                    [("b", VInt 1);
                     ("a", VDict (Py.dict_of [("b", VInt 2)]))]))].

(** The caller objects [{"a": 1}] and [{"a": 2}] *)
Definition two_records : heap :=
  fun l => match l with
           | 0 => Py.dict_of [("a", VInt 1)]
           | 1 => Py.dict_of [("a", VInt 2)]
           | _ => []
           end.

(** A fresh collection after [insert_many([{"a": 1}, {"a": 2}])] *)
Definition two_documents : EphemeralCollection :=
  snd (snd (insert_many [0; 1] (two_records, new_collection))).

(** The caller objects [{"a": 1, "b": 0, "_id": 3}] and [{"b": 9}], and a
    store whose collection ["c"] holds the first of them *)
Definition rw_records : heap :=
  fun l => match l with
           | 0 => Py.dict_of [("a", VInt 1); ("b", VInt 0); ("_id", VInt 3)]
           | 1 => Py.dict_of [("b", VInt 9)]
           | _ => []
           end.

Definition rw_world : world :=
  snd (write "c" (OneRecord 0) None
         (rw_records, initiate_connection {| _db := None |})).

(** Every value of the flattened projection spec is [0] or [1] *)
Definition zero_or_one (keys : pydict) : Prop :=
  Forall (fun kv => snd kv = VInt 0 \/ snd kv = VInt 1) (Py.items keys).

(** The flattened projection spec gives [0] to a field other than [_id]
    and [1] to another one *)
Definition mixes_zero_and_one (keys : pydict) : Prop :=
  exists k0 k1,
    k0 <> "_id" /\ k1 <> "_id" /\
    Py.get keys k0 = Some (VInt 0) /\ Py.get keys k1 = Some (VInt 1).

(** The result is the invalid-selection error *)
Definition invalid_selection {A : Type} (r : Res A) : Prop :=
  exists keys, r = Raise (ValueError (CannotMixSelection keys)).

(** The projection specs [{"a": 1}] and [{"a": 0, "b": 1}], and the
    document [{"a": 1, "b": 2, "_id": 7}] *)
Definition spec_a : pydict := Py.dict_of [("a", VInt 1)].

Definition spec_mixed : pydict := Py.dict_of [("a", VInt 0); ("b", VInt 1)].

Definition ab_document : EphemeralDocument :=
  new_document (Py.dict_of [("a", VInt 1); ("b", VInt 2); ("_id", VInt 7)]).

(** [match(query)] is true of the document *)
Definition matches (query : option pydict) (document : EphemeralDocument) : bool :=
  match match_ document query with
  | Ok true => true
  | _ => false
  end.

(** [match(query)] returns on the document (it raises on an unsupported
    operator or on operands that cannot be compared) *)
Definition match_returns (query : option pydict) (document : EphemeralDocument)
    : Prop :=
  exists b, match_ document query = Ok b.

(** The caller objects [{"x": 3}], [{"x": 5}], [{"x": 9}] and a fresh
    collection after their insertion in that order *)
Definition x_records : heap :=
  fun l => match l with
           | 0 => Py.dict_of [("x", VInt 3)]
           | 1 => Py.dict_of [("x", VInt 5)]
           | 2 => Py.dict_of [("x", VInt 9)]
           | _ => []
           end.

Definition x_collection : EphemeralCollection :=
  snd (snd (insert_many [0; 1; 2] (x_records, new_collection))).

(** The query [{"x.$gte": 5}] *)
Definition x_gte_5 : option pydict := Some (Py.dict_of [("x.$gte", VInt 5)]).

(** The document passes the check of [_validate_index] for the tracked
    index: its value tuple is not in the value-set of the index *)
Definition passes_index (self : EphemeralCollection)
    (document : EphemeralDocument) (index : index_key) : Prop :=
  exists document_values tracked,
    document_values_of document index = Ok document_values /\
    get_index (_indexes self) index = Some tracked /\
    Py.tuple_in_set document_values tracked = Ok false.

(** The document violates the tracked index: its value tuple
    [document_values] is already in the value-set of the index *)
Definition violates_index (self : EphemeralCollection)
    (document : EphemeralDocument) (index : index_key)
    (document_values : list value) : Prop :=
  exists tracked,
    document_values_of document index = Ok document_values /\
    get_index (_indexes self) index = Some tracked /\
    Py.tuple_in_set document_values tracked = Ok true.

(** Two caller objects [{"a": 1}], a fresh collection with a unique index
    on ["a"], and the two calls [insert_many([{"a": 1}])] one after the
    other *)
Definition a_records : heap :=
  fun l => match l with
           | 0 => Py.dict_of [("a", VInt 1)]
           | 1 => Py.dict_of [("a", VInt 1)]
           | _ => []
           end.

Definition a_indexed : EphemeralCollection :=
  snd (create_index (SingleKey "a") true new_collection).

Definition a_first_call : Res nat * (heap * EphemeralCollection) :=
  insert_many [0] (a_records, a_indexed).

Definition a_second_call : Res nat * (heap * EphemeralCollection) :=
  insert_many [1] (snd a_first_call).

(** The state after the first call of the example of [a_first_call], and
    the objects of the caller once the second record has its [_id] *)
Definition a_heap1 : heap := fst (snd a_first_call).

Definition a_self1 : EphemeralCollection := snd (snd a_first_call).

Definition a_heap2 : heap :=
  heap_set a_heap1 1 (Py.dict_of [("a", VInt 1); ("_id", VInt 2)]).

(** The batch of the two records of [a_records] in one call *)
Definition a_batch_call : Res nat * (heap * EphemeralCollection) :=
  insert_many ([] ++ 0 :: [1]) (a_records, a_indexed).

(** [new_id] is the identifier the spec gives to a record without [_id]
    when the identifiers of the collection are [ids]: 1 when there is
    none, the maximum plus 1 otherwise *)
Definition next_id (ids : list Z) (new_id : Z) : Prop :=
  (ids = [] /\ new_id = 1%Z) \/
  (exists k, In k ids /\ (forall i, In i ids -> (i <= k)%Z) /\
             new_id = (k + 1)%Z).

(** The caller objects [{"x": 3, "_id": 4}], [{"x": 3, "_id": 2}] and
    [{"x": 3}] (every other location), and the state after the insertion
    of the first two in a fresh collection, whose identifiers are then 4
    and 2 *)
Definition id_records : heap :=
  fun l => match l with
           | 0 => Py.dict_of [("x", VInt 3); ("_id", VInt 4)]
           | 1 => Py.dict_of [("x", VInt 3); ("_id", VInt 2)]
           | _ => Py.dict_of [("x", VInt 3)]
           end.

Definition id_collection : heap * EphemeralCollection :=
  snd (insert_many [0; 1] (id_records, new_collection)).

(** The insertion of two more records, without [_id], in one call *)
Definition id_batch_call : Res nat * (heap * EphemeralCollection) :=
  insert_many [2; 3] id_collection.

(** ** Vocabulary of the further properties *)

(** Python's [==] identifies [True] with [1] and [False] with [0]:
    [canonical v] is the representative of [v] among the values equal
    to it *)
Definition canonical (v : value) : value :=
  match v with
  | VBool b => VInt (if b then 1 else 0)
  | _ => v
  end.

(** The tracked unique index [index] does its job on the collection:
    every document has a hashable value tuple for the index, that tuple
    is in the value-set of the index, and no two documents have equal
    tuples ([==] of Python) *)
Definition covered_by (index : index_key) (tracked : value_set)
    (document : EphemeralDocument) : Prop :=
  exists document_values,
    document_values_of document index = Ok document_values /\
    forallb Py.hashable document_values = true /\
    existsb (Py.eq_tuple document_values) tracked = true.

Definition differ_on (index : index_key) (d d' : EphemeralDocument) : Prop :=
  forall vs vs',
    document_values_of d index = Ok vs ->
    document_values_of d' index = Ok vs' ->
    Py.eq_tuple vs vs' = false.

Definition unique_index_holds (self : EphemeralCollection) (index : index_key)
    : Prop :=
  exists tracked,
    get_index (_indexes self) index = Some tracked /\
    Forall (covered_by index tracked) (_documents self) /\
    ForallOrdPairs (differ_on index) (_documents self).

(** One call of a method of the collection other than [update_many] and
    [drop] *)
Inductive guarded_call : EphemeralCollection -> EphemeralCollection -> Prop :=
| call_insert_many documents h self r h' self' :
    insert_many documents (h, self) = (r, (h', self')) ->
    guarded_call self self'
| call_delete_many query self r self' :
    delete_many query self = (r, self') ->
    guarded_call self self'
| call_create_index keys unique self r self' :
    create_index keys unique self = (r, self') ->
    guarded_call self self'.

(** The collections reached from a fresh one by such calls ([find] and
    [count] are not steps: they change neither the list of documents,
    nor the indexes, nor an [_id]) *)
Inductive guarded : EphemeralCollection -> Prop :=
| guarded_new : guarded new_collection
| guarded_step self self' :
    guarded self -> guarded_call self self' -> guarded self'.


(** The value tuple of the document for the index ([[]] when a field is
    missing), and the tracked indexes once [_register_keys] has added
    the tuples of the document *)
Definition values_or_nil (document : EphemeralDocument) (index : index_key)
    : list value :=
  match document_values_of document index with
  | Ok document_values => document_values
  | Raise _ => []
  end.

Definition registered (document : EphemeralDocument)
    (indexes : list (index_key * value_set)) : list (index_key * value_set) :=
  map (fun iv => (fst iv, Py.set_add (snd iv) (values_or_nil document (fst iv))))
    indexes.


(** The name under which [create_index(keys, ...)] tracks the index: the
    tuple of the field names *)
Definition index_name (keys : index_spec) : index_key :=
  map fst match keys with
          | SingleKey key => [(key, VNone)]
          | KeyList keys => keys
          end.

(** Two stored documents have different [_id]s ([==] of Python) *)
Definition ids_differ (d d' : EphemeralDocument) : Prop :=
  forall v v', id_of d = Some v -> id_of d' = Some v' -> Py.eq v v' = false.

(** The caller objects [{"a": 1}], [{"a": 2}], [{"a": 1}] and the fresh
    collection that holds the first two, resp. all three *)
Definition dup_records : heap :=
  fun l => match l with
           | 0 => Py.dict_of [("a", VInt 1)]
           | 1 => Py.dict_of [("a", VInt 2)]
           | _ => Py.dict_of [("a", VInt 1)]
           end.

Definition distinct_a : EphemeralCollection :=
  snd (snd (insert_many [0; 1] (dup_records, new_collection))).

Definition duplicate_a : EphemeralCollection :=
  snd (snd (insert_many [0; 1; 2] (dup_records, new_collection))).


(** The record an update document carries: [data.get("$set", data)],
    when it is a record *)
Definition update_payload (data : pydict) : option pydict :=
  match (match Py.get data "$set" with Some v => v | None => VDict data end) with
  | VDict d => Some d
  | _ => None
  end.

(** The document after the update that carries the record [d] *)
Definition updated_with (d : pydict) (document : EphemeralDocument)
    : EphemeralDocument :=
  {| _data := Py.update (_data document) (_flatten d) |}.

(** Every field of [d] is a field of [d'] *)
Definition fields_kept (d d' : EphemeralDocument) : Prop :=
  forall k, Py.contains (_data d) k = true -> Py.contains (_data d') k = true.

(** The update document [{"b": 9}] and the query
    [{"x.$gte": 5, "y.$foo": 1}], whose operator ["$foo"] is not
    supported *)
Definition set_b_9 : pydict := Py.dict_of [("b", VInt 9)].

Definition x_gte_5_then_foo : option pydict :=
  Some (Py.dict_of [("x.$gte", VInt 5); ("y.$foo", VInt 1)]).


(** The query key that applies the operator [name] to the field
    [field]: [field.name] *)
Definition operator_key (field name : string) : string :=
  (field ++ "." ++ name)%string.

(** The query [{"y.$foo": 1, "x.$gte": 5}]; its flattening lists
    ["x.$gte"] first *)
Definition foo_then_x_gte_5 : pydict :=
  Py.dict_of [("y.$foo", VInt 1); ("x.$gte", VInt 5)].

(** The document [{"x": 3, "n": None, "_id": 1}] *)
Definition x3_document : EphemeralDocument :=
  new_document (Py.dict_of [("x", VInt 3); ("n", VNone); ("_id", VInt 1)]).


(** A leaf of the flat representation: anything but a non-empty record *)
Definition is_leaf (v : value) : bool :=
  match v with
  | VDict (_ :: _) => false
  | _ => true
  end.

(** Every value of the map is a leaf *)
Definition flat (d : pydict) : Prop :=
  Forall (fun kv => is_leaf (snd kv) = true) d.

(** The record [{"a": 1, "b": [1, 2], "c": {}}] *)
Definition flat_record : pydict :=
  Py.dict_of [("a", VInt 1); ("b", VList [VInt 1; VInt 2]); ("c", VDict [])].


(** The two sessions are both connected or both closed, and hold the
    same collection under every name but [collection_name] *)
Definition same_elsewhere (collection_name : string) (w w' : world) : Prop :=
  match _db (snd w), _db (snd w') with
  | Some db, Some db' =>
      forall other, other <> collection_name ->
        get_collection db' other = get_collection db other
  | None, None => True
  | _, _ => False
  end.

(** The session of [rw_world] after [close_connection] *)
Definition closed_world : world :=
  (fst rw_world, close_connection (snd rw_world)).


(** * Properties *)

Lemma bind_ret {A : Type} (m : Res A) : (a <- m ;; Ok a) = m.
Proof. now destruct m. Qed.

(** ** Dicts *)
Section DictFacts.

Implicit Types (d : pydict) (k key : string) (v : value).

Lemma get_replace_same d k v :
  Py.contains d k = true -> Py.get (Py.replace d k v) k = Some v.
Proof.
  unfold Py.contains.
  induction d as [|[k0 v0] d IH]; simpl; [discriminate|].
  destruct (String.eqb k0 k) eqn:E; simpl; rewrite E; auto.
Qed.

Lemma get_replace_other d k k' v :
  k <> k' -> Py.get (Py.replace d k v) k' = Py.get d k'.
Proof.
  intros Hne.
  induction d as [|[k0 v0] d IH]; simpl; [reflexivity|].
  destruct (String.eqb k0 k) eqn:E; simpl.
  - apply String.eqb_eq in E; subst k0.
    destruct (String.eqb k k') eqn:E'; [|reflexivity].
    apply String.eqb_eq in E'. contradiction.
  - now rewrite IH.
Qed.

Lemma get_setitem_same d k v : Py.get (Py.setitem d k v) k = Some v.
Proof.
  unfold Py.setitem.
  destruct (Py.contains d k) eqn:E.
  - now apply get_replace_same.
  - simpl. now rewrite String.eqb_refl.
Qed.

Lemma get_setitem_other d k k' v :
  k <> k' -> Py.get (Py.setitem d k v) k' = Py.get d k'.
Proof.
  intros Hne. unfold Py.setitem.
  destruct (Py.contains d k).
  - now apply get_replace_other.
  - simpl. destruct (String.eqb k k') eqn:E; [|reflexivity].
    apply String.eqb_eq in E. contradiction.
Qed.

Lemma get_setitem d k k' v :
  Py.get (Py.setitem d k v) k' =
  if String.eqb k k' then Some v else Py.get d k'.
Proof.
  destruct (String.eqb k k') eqn:E.
  - apply String.eqb_eq in E; subst. apply get_setitem_same.
  - apply get_setitem_other. intros ->. now rewrite String.eqb_refl in E.
Qed.

Lemma get_None_not_In d k :
  Py.get d k = None <-> ~ In k (map fst d).
Proof.
  induction d as [|[k0 v0] d IH]; simpl.
  - tauto.
  - destruct (String.eqb k0 k) eqn:E.
    + apply String.eqb_eq in E. split; [discriminate|]. intros H. exfalso. auto.
    + rewrite IH. split.
      * intros H [->|H']; [now rewrite String.eqb_refl in E | auto].
      * tauto.
Qed.

Lemma get_Some_In d k v : Py.get d k = Some v -> In (k, v) d.
Proof.
  induction d as [|[k0 v0] d IH]; simpl; [discriminate|].
  destruct (String.eqb k0 k) eqn:E.
  - apply String.eqb_eq in E. intros [= ->]. subst. now left.
  - auto.
Qed.

Lemma In_keys_get d k : In k (map fst d) -> exists v, Py.get d k = Some v.
Proof.
  intros H. destruct (Py.get d k) eqn:E; [eauto|].
  apply get_None_not_In in E. contradiction.
Qed.

Lemma get_remove d k k' :
  Py.get (Py.remove d k) k' = if String.eqb k k' then None else Py.get d k'.
Proof.
  unfold Py.remove.
  induction d as [|[k0 v0] d IH]; simpl.
  - now destruct (String.eqb k k').
  - destruct (String.eqb k0 k) eqn:E0; simpl.
    + apply String.eqb_eq in E0; subst k0. rewrite IH.
      now destruct (String.eqb k k').
    + destruct (String.eqb k0 k') eqn:E1; [|exact IH].
      apply String.eqb_eq in E1; subst k0.
      destruct (String.eqb k k') eqn:E2; [|reflexivity].
      apply String.eqb_eq in E2; subst. now rewrite String.eqb_refl in E0.
Qed.

(** [update] assigns the items of [other] oldest first, so the most
    recent binding of a key wins. *)
Lemma get_fold_setitem (l : list (string * value)) d k :
  Py.get (fold_left (fun acc kv => Py.setitem acc (fst kv) (snd kv)) l d) k =
  match Py.get (rev l) k with
  | Some v => Some v
  | None => Py.get d k
  end.
Proof.
  revert d. induction l as [|[k0 v0] l IH]; intros d; simpl; [reflexivity|].
  rewrite IH. clear IH.
  assert (Happ : forall (a b : pydict),
             Py.get (a ++ b) k =
             match Py.get a k with Some v => Some v | None => Py.get b k end).
  { induction a as [|[k1 v1] a IHa]; intros b; simpl; [reflexivity|].
    destruct (String.eqb k1 k); auto. }
  rewrite Happ. destruct (Py.get (rev l) k); [reflexivity|].
  simpl. rewrite get_setitem. now destruct (String.eqb k0 k).
Qed.

Lemma get_update d other k :
  Py.get (Py.update d other) k =
  match Py.get other k with
  | Some v => Some v
  | None => Py.get d k
  end.
Proof.
  unfold Py.update, Py.items. rewrite get_fold_setitem.
  now rewrite rev_involutive.
Qed.

End DictFacts.

Lemma flatten_cons key v d :
  __flatten ((key, v) :: d) =
  Py.update
    match v with
    | VDict (_ :: _) => rename_keys key (flatten_value v)
    | _ => [(key, v)]
    end
    (__flatten d).
Proof.
  unfold __flatten. simpl.
  destruct v as [| | | | |[|]]; reflexivity.
Qed.

(** ** The renaming loop of [__flatten] is defined *)
Section Rename.

Lemma keys_replace d k v : map fst (Py.replace d k v) = map fst d.
Proof.
  induction d as [|[k0 v0] d IH]; simpl; [reflexivity|].
  destruct (String.eqb k0 k); simpl; [reflexivity | now rewrite IH].
Qed.

Lemma NoDup_setitem d k v :
  NoDup (map fst d) -> NoDup (map fst (Py.setitem d k v)).
Proof.
  intros Hd. unfold Py.setitem, Py.contains.
  destruct (Py.get d k) eqn:E.
  - now rewrite keys_replace.
  - simpl. constructor; [now apply get_None_not_In | assumption].
Qed.

Lemma NoDup_remove d k : NoDup (map fst d) -> NoDup (map fst (Py.remove d k)).
Proof.
  unfold Py.remove. induction d as [|[k0 v0] d IH]; simpl; [auto|].
  intros Hd. inversion Hd as [|? ? Hnotin Hd']; subst.
  destruct (negb (String.eqb k0 k)); simpl; [|auto].
  constructor; [|auto].
  intros Hin. apply Hnotin. apply in_map_iff in Hin.
  destruct Hin as (kv & Hfst & Hkv). apply filter_In in Hkv.
  apply in_map_iff. exists kv. tauto.
Qed.

Lemma NoDup_fold_setitem (l : list (string * value)) : forall d,
  NoDup (map fst d) ->
  NoDup (map fst (fold_left (fun acc kv => Py.setitem acc (fst kv) (snd kv)) l d)).
Proof.
  induction l as [|kv l IH]; intros d Hd; simpl; [assumption|].
  apply IH. now apply NoDup_setitem.
Qed.

Lemma NoDup_rename_keys key d :
  NoDup (map fst d) -> NoDup (map fst (rename_keys key d)).
Proof.
  unfold rename_keys. generalize (Py.keys d) as ks. intros ks. revert d.
  induction ks as [|k ks IH]; intros d Hd; simpl; [assumption|].
  apply IH. unfold rename_key.
  destruct (Py.get d k); [|assumption].
  now apply NoDup_setitem, NoDup_remove.
Qed.

(** The flat map built by [__flatten] never has a key twice, whatever
    the value it is built from. *)
Lemma NoDup_flatten_value : forall v, NoDup (map fst (flatten_value v)).
Proof.
  fix IH 1. intros [| | | | |d]; try constructor.
  destruct d as [|[key x] d]; [constructor|].
  change (NoDup (map fst (__flatten ((key, x) :: d)))).
  rewrite flatten_cons. apply NoDup_fold_setitem.
  pose proof (IH x) as IHx.
  destruct x as [| | | | |[|item sub]];
    try (constructor; [intros [] | constructor]).
  apply NoDup_rename_keys, IHx.
Qed.

Lemma rename_defined_NoDup key ks : forall d,
  NoDup ks -> (forall k, In k ks -> Py.get d k <> None) ->
  rename_defined key ks d.
Proof.
  induction ks as [|k0 ks IH]; intros d Hks Hd; simpl; [exact I|].
  inversion Hks as [|? ? Hnotin Hks']; subst.
  split; [apply Hd; now left|].
  apply IH; [assumption|]. intros k Hk. unfold rename_key.
  destruct (Py.get d k0) as [v|] eqn:E0; [|apply Hd; now right].
  rewrite get_setitem, get_remove.
  destruct (String.eqb (key ++ "." ++ k0) k); [discriminate|].
  destruct (String.eqb k0 k) eqn:E; [|apply Hd; now right].
  apply String.eqb_eq in E. congruence.
Qed.

(** In [__flatten], [flat_sub_dictionary.pop(flat_sub_key)] never
    raises [KeyError]. *)
Lemma rename_keys_defined key v :
  rename_defined key (Py.keys (flatten_value v)) (flatten_value v).
Proof.
  pose proof (NoDup_flatten_value v) as Hnd.
  apply rename_defined_NoDup.
  - unfold Py.keys, Py.items. rewrite map_rev. now apply NoDup_rev.
  - intros k Hk. unfold Py.keys, Py.items in Hk.
    rewrite map_rev, <- in_rev in Hk.
    intros Hnone. now apply get_None_not_In in Hnone.
Qed.

End Rename.

(** ** The codec loses an entry (C2) *)

(** C2.  The claim is that flattening, unflattening and flattening again
    gives the flat map of the first flattening, for records without
    "." in their keys.  On the record [{"a": {"b": 1, "a": {"b": 2}}}]
    the code does not: the first flattening is
    [{"a.a.b": 2, "a.b": 1}], its unflattening is
    [{"a": {"a": {"b": 2}, "b": 1}}], and flattening that record gives
    [{"a.a.b": 1}].  The renaming loop of [__flatten] moves ["b"] to
    ["a.b"] while the entry ["a.b"] of the nested record is still waiting
    to be renamed, overwrites it, and then renames the overwritten entry
    to ["a.a.b"]. *)
Theorem flatten_unflatten_flatten_differs :
  dot_free (VDict nested_twice) = true /\
  _flatten nested_twice =
    Py.dict_of [("a.a.b", VInt 2); ("a.b", VInt 1)] /\
  exists u,
    _unflatten (_flatten nested_twice) = Ok u /\
    u = Py.dict_of
          [("a", VDict (Py.dict_of
                          [("a", VDict (Py.dict_of [("b", VInt 2)]));
                           ("b", VInt 1)]))] /\
    _flatten u = Py.dict_of [("a.a.b", VInt 1)] /\
    Py.eq (VDict (_flatten u)) (VDict (_flatten nested_twice)) = false.
Proof.
  split; [reflexivity|].
  split; [reflexivity|].
  eexists. split; [reflexivity|].
  repeat split.
Qed.

(** ** [_id] after an update (C3) *)

(** C3.  The claim is that the [_id] values of a collection stay pairwise
    distinct under every sequence of public operations.  The docstring
    of [update_many] promises a [DuplicateKeyError] when an update
    duplicates a unique index, but the method never validates: after
    [insert_many([{"a": 1}, {"a": 2}])] the ids are 1 and 2, and
    [update_many({}, {"_id": 7})] returns 2 and leaves both documents
    with [_id = 7]. *)
Theorem update_many_duplicates_id :
  fst (insert_many [0; 1] (two_records, new_collection)) = Ok 2 /\
  map id_of (_documents two_documents) = [Some (VInt 1); Some (VInt 2)] /\
  get_index (_indexes two_documents) ["_id"] = Some [[VInt 1]; [VInt 2]] /\
  exists c,
    update_many (Some []) (Py.dict_of [("_id", VInt 7)]) two_documents
      = (Ok 2, c) /\
    map id_of (_documents c) = [Some (VInt 7); Some (VInt 7)] /\
    ~ NoDup (map id_of (_documents c)).
Proof.
  split; [reflexivity|].
  split; [reflexivity|].
  split; [reflexivity|].
  eexists. split; [reflexivity|].
  split; [reflexivity|].
  intros H. inversion H as [|x l Hnotin _]; subst.
  apply Hnotin. now left.
Qed.

(** ** [read_and_write] and its [selection] (C7) *)

(** C7.  The claim is that [read_and_write] returns the updated document
    projected by [selection].  The method accepts [selection] and never
    uses it: its two calls of [read] pass no selection, so its result
    does not depend on [selection] and is the whole document.  With the
    document [{"a": 1, "b": 0, "_id": 3}],
    [read_and_write(c, {"a": 1}, {"b": 9}, selection={"b": 1})] returns
    [{"_id": 3, "b": 9, "a": 1}], whereas the projection of the updated
    document by [{"b": 1}] is [{"_id": 3, "b": 9}].  (The other part of
    the claim holds there: with the query [{"a": 2}], which matches
    nothing, the result is [None] and the store is unchanged.) *)
Theorem read_and_write_ignores_selection :
  (forall collection_name query data selection w,
     read_and_write collection_name query data selection w =
     read_and_write collection_name query data None w) /\
  read_and_write "c" (Some (Py.dict_of [("a", VInt 2)])) (OneRecord 1)
    (Some (Py.dict_of [("b", VInt 1)])) rw_world = (Ok None, rw_world) /\
  fst (read_and_write "c" (Some (Py.dict_of [("a", VInt 1)])) (OneRecord 1)
         (Some (Py.dict_of [("b", VInt 1)])) rw_world)
    = Ok (Some (Py.dict_of [("_id", VInt 3); ("b", VInt 9); ("a", VInt 1)])) /\
  fst (read "c" (Some (Py.dict_of [("a", VInt 1)]))
         (Some (Py.dict_of [("b", VInt 1)]))
         (snd (read_and_write "c" (Some (Py.dict_of [("a", VInt 1)]))
                 (OneRecord 1) (Some (Py.dict_of [("b", VInt 1)])) rw_world)))
    = Ok [Py.dict_of [("_id", VInt 3); ("b", VInt 9)]].
Proof.
  split; [reflexivity|].
  split; [reflexivity|].
  split; reflexivity.
Qed.

(** ** Path conflicts in [_unflatten] (C9) *)
Section Unflatten.

Lemma split_nonempty sep s : Py.split sep s <> [].
Proof.
  destruct s as [|c s]; simpl; [discriminate|].
  destruct (Ascii.eqb c sep); [discriminate|].
  destruct (Py.split sep s); discriminate.
Qed.

Lemma split_init_last key :
  Py.split dot key =
  removelast (Py.split dot key) ++ [List.last (Py.split dot key) ""].
Proof. apply app_removelast_last, split_nonempty. Qed.

Lemma assign_path_dict x init last v r :
  assign_path x init last v = Ok r -> is_dict r = true.
Proof.
  destruct x; try (destruct init; discriminate).
  destruct init as [|part init]; simpl.
  - now intros [= <-].
  - destruct (assign_path _ init last v); simpl; [|discriminate].
    now intros [= <-].
Qed.

Lemma lookup_path_app x ps qs :
  lookup_path x (ps ++ qs) =
  match lookup_path x ps with
  | Some w => lookup_path w qs
  | None => None
  end.
Proof.
  revert x. induction ps as [|p ps IH]; intros x; simpl; [reflexivity|].
  destruct x; try reflexivity.
  destruct (Py.get d p); [apply IH | reflexivity].
Qed.

(** After a successful assignment the path holds the value. *)
Lemma assign_path_lookup init : forall x last v r,
  assign_path x init last v = Ok r ->
  lookup_path r (init ++ [last]) = Some v.
Proof.
  induction init as [|part init IH]; intros x last v r.
  - destruct x; simpl; try discriminate.
    intros [= <-]. simpl. now rewrite get_setitem_same.
  - destruct x; simpl; try discriminate.
    destruct (assign_path _ init last v) as [child'|] eqn:E; simpl;
      [|discriminate].
    intros [= <-]. simpl. rewrite get_setitem_same. eauto.
Qed.

(** Walking through a value that is not a record raises. *)
Lemma assign_path_through_leaf ps : forall x w qs last v,
  lookup_path x ps = Some w -> is_dict w = false ->
  assign_path x (ps ++ qs) last v = Raise TypeError.
Proof.
  induction ps as [|p ps IH]; intros x w qs last v; simpl.
  - intros [= ->] Hw. destruct w; try discriminate; now destruct qs.
  - destruct x; try discriminate.
    destruct (Py.get d p) as [c|] eqn:E; [|discriminate].
    intros Hc Hw. rewrite (IH c w qs last v Hc Hw). reflexivity.
Qed.

(** Where a longer path was assigned, a prefix of it can be assigned:
    the walk only meets the records the first assignment went
    through. *)
Lemma assign_path_prefix init1 : forall x last1 more last v r v1,
  assign_path x (init1 ++ last1 :: more) last v = Ok r ->
  exists r', assign_path r init1 last1 v1 = Ok r'.
Proof.
  induction init1 as [|p init1 IH]; intros x last1 more last v r v1.
  - destruct x; simpl; try discriminate.
    destruct (assign_path _ more last v); simpl; [|discriminate].
    intros [= <-]. simpl. eauto.
  - destruct x; simpl; try discriminate.
    destruct (assign_path _ (init1 ++ last1 :: more) last v) as [child'|] eqn:E;
      simpl; [|discriminate].
    intros [= <-]. simpl. rewrite get_setitem_same.
    destruct (IH _ _ _ _ _ _ v1 E) as [r' Hr']. rewrite Hr'. simpl. eauto.
Qed.

Lemma unflatten_items_app l1 : forall u l2,
  unflatten_items u (l1 ++ l2) =
  (d <- unflatten_items u l1 ;; unflatten_items d l2).
Proof.
  induction l1 as [|item l1 IH]; intros u l2; simpl; [reflexivity|].
  destruct (unflatten_item u item); simpl; auto.
Qed.

(** [_unflatten] of a map to which [key] was added last *)
Lemma unflatten_cons key v m :
  _unflatten ((key, v) :: m) =
  (u <- _unflatten m ;; unflatten_item u (key, v)).
Proof.
  unfold _unflatten, Py.items. simpl. rewrite unflatten_items_app.
  destruct (unflatten_items [] (rev m)) as [u|]; simpl; [|reflexivity].
  apply bind_ret.
Qed.

Lemma unflatten_item_Ok u key v u' :
  unflatten_item u (key, v) = Ok u' ->
  assign_path (VDict u) (removelast (Py.split dot key))
    (List.last (Py.split dot key) "") v = Ok (VDict u').
Proof.
  unfold unflatten_item.
  destruct (assign_path _ _ _ v) as [r|]; simpl; [|discriminate].
  destruct r; try discriminate. now intros [= ->].
Qed.

Lemma strict_prefix_parts k1 k2 :
  strict_dotted_prefix k1 k2 ->
  exists more,
    removelast (Py.split dot k2) =
    removelast (Py.split dot k1) ++ List.last (Py.split dot k1) "" :: more.
Proof.
  intros (rest & Hne & Hsplit).
  exists (removelast rest).
  rewrite Hsplit, removelast_app by assumption.
  rewrite (split_init_last k1) at 1.
  now rewrite <- app_assoc.
Qed.

(** [_unflatten] can only fail with the [TypeError] of an assignment
    into a value that is not a dict. *)
Lemma assign_path_raise init : forall x last v e,
  assign_path x init last v = Raise e -> e = TypeError.
Proof.
  induction init as [|part init IH]; intros x last v e;
    destruct x; simpl; try congruence.
  destruct (assign_path _ init last v) eqn:E; simpl; [discriminate|].
  intros [= <-]. eauto.
Qed.

Lemma unflatten_item_raise u item e :
  unflatten_item u item = Raise e -> e = TypeError.
Proof.
  destruct item as [key v]. unfold unflatten_item.
  destruct (assign_path _ _ _ v) as [r|e'] eqn:E; simpl.
  - destruct r; congruence.
  - intros [= <-]. eauto using assign_path_raise.
Qed.

(** An assignment elsewhere leaves a value that is not a record where
    it is: only an assignment to the path of the value, or to a prefix
    of that path, can replace it. *)
Lemma assign_path_keeps_leaf init : forall x last v r p w,
  assign_path x init last v = Ok r ->
  lookup_path x p = Some w -> is_dict w = false ->
  (forall rest, p <> (init ++ [last]) ++ rest) ->
  lookup_path r p = Some w.
Proof.
  induction init as [|part init IH]; intros x last v r p w Hassign Hlook Hleaf Hnp.
  - destruct x; simpl in Hassign; try discriminate.
    injection Hassign as <-.
    destruct p as [|q p'].
    + simpl in Hlook. injection Hlook as <-. discriminate.
    + assert (Hne : last <> q) by (intros ->; now apply (Hnp p')).
      simpl in *. now rewrite get_setitem_other.
  - destruct x; simpl in Hassign; try discriminate.
    destruct (assign_path _ init last v) as [child'|] eqn:E; simpl in Hassign;
      [|discriminate].
    injection Hassign as <-.
    destruct p as [|q p'].
    + simpl in Hlook. injection Hlook as <-. discriminate.
    + simpl in Hlook |- *.
      destruct (String.eqb part q) eqn:Eq.
      * apply String.eqb_eq in Eq. subst q. rewrite get_setitem_same.
        destruct (Py.get d part) as [c|]; [|discriminate].
        apply (IH _ _ _ _ _ _ E Hlook Hleaf).
        intros rest ->. now apply (Hnp rest).
      * apply String.eqb_neq in Eq. now rewrite get_setitem_other.
Qed.

(** An assignment elsewhere leaves a path that can be walked as it is:
    only an assignment to a prefix of the path can put a value that is
    not a record in its way. *)
Lemma assign_path_keeps_walk init : forall x last v r init1 last1 v1 r1,
  assign_path x init last v = Ok r ->
  assign_path x init1 last1 v1 = Ok r1 ->
  (forall rest, init1 <> (init ++ [last]) ++ rest) ->
  exists r1', assign_path r init1 last1 v1 = Ok r1'.
Proof.
  induction init as [|part init IH];
    intros x last v r init1 last1 v1 r1 Hassign Hwalk Hnp.
  - destruct x; simpl in Hassign; try discriminate.
    injection Hassign as <-.
    destruct init1 as [|q init1']; [simpl; eauto|].
    assert (Hne : last <> q) by (intros ->; now apply (Hnp init1')).
    simpl in Hwalk |- *. rewrite (get_setitem_other _ _ _ _ Hne).
    destruct (assign_path _ init1' last1 v1); simpl in *; [eauto | discriminate].
  - destruct x; simpl in Hassign; try discriminate.
    destruct (assign_path _ init last v) as [child'|] eqn:E; simpl in Hassign;
      [|discriminate].
    injection Hassign as <-.
    destruct init1 as [|q init1']; [simpl; eauto|].
    simpl in Hwalk |- *.
    destruct (String.eqb part q) eqn:Eq.
    + apply String.eqb_eq in Eq. subst q. rewrite get_setitem_same.
      destruct (assign_path _ init1' last1 v1) as [c1|] eqn:E1; simpl in Hwalk;
        [|discriminate].
      assert (Hnp' : forall rest, init1' <> (init ++ [last]) ++ rest)
        by (intros rest ->; now apply (Hnp rest)).
      destruct (IH _ _ _ _ _ _ _ _ E E1 Hnp') as [r1' Hr1'].
      rewrite Hr1'. simpl. eauto.
    + apply String.eqb_neq in Eq. rewrite (get_setitem_other _ _ _ _ Eq).
      destruct (assign_path _ init1' last1 v1); simpl in *; [eauto | discriminate].
Qed.

Lemma unflatten_items_keep_leaf l : forall u p w,
  lookup_path (VDict u) p = Some w -> is_dict w = false ->
  Forall (fun kv => forall rest, p <> Py.split dot (fst kv) ++ rest) l ->
  match unflatten_items u l with
  | Ok u' => lookup_path (VDict u') p = Some w
  | Raise e => e = TypeError
  end.
Proof.
  induction l as [|[key v] l IH]; intros u p w Hlook Hleaf Hl;
    cbn [unflatten_items]; [assumption|].
  inversion Hl as [|? ? Hkey Hl']; subst. cbn [fst] in Hkey.
  destruct (unflatten_item u (key, v)) as [u1|e] eqn:E; cbn [bind].
  - apply unflatten_item_Ok in E.
    apply (IH u1 p w); [|assumption..].
    apply (assign_path_keeps_leaf _ _ _ _ _ _ _ E Hlook Hleaf).
    now rewrite <- split_init_last.
  - eauto using unflatten_item_raise.
Qed.

Lemma unflatten_items_keep_walk l : forall u u' init1 last1 v1 r1,
  unflatten_items u l = Ok u' ->
  assign_path (VDict u) init1 last1 v1 = Ok r1 ->
  Forall (fun kv => forall rest, init1 <> Py.split dot (fst kv) ++ rest) l ->
  exists r1', assign_path (VDict u') init1 last1 v1 = Ok r1'.
Proof.
  induction l as [|[key v] l IH]; intros u u' init1 last1 v1 r1;
    cbn [unflatten_items].
  - intros [= <-]. eauto.
  - intros Hitems Hwalk Hl.
    inversion Hl as [|? ? Hkey Hl']; subst. cbn [fst] in Hkey.
    destruct (unflatten_item u (key, v)) as [u1|e] eqn:E; cbn [bind] in Hitems;
      [|discriminate].
    apply unflatten_item_Ok in E.
    rewrite (split_init_last key) in Hkey.
    destruct (assign_path_keeps_walk _ _ _ _ _ _ _ _ _ E Hwalk Hkey) as [r1' Hr1'].
    exact (IH _ _ _ _ _ _ Hitems Hr1' Hl').
Qed.

(** [_unflatten] of a map to which the items of [l] were added last *)
Lemma unflatten_app l m :
  _unflatten (l ++ m) = (u <- _unflatten m ;; unflatten_items u (Py.items l)).
Proof.
  unfold _unflatten, Py.items. now rewrite rev_app_distr, unflatten_items_app.
Qed.

End Unflatten.

(** C9, as the code has it.  The claim is that [_unflatten] raises an
    internal-consistency error whenever one key of the flat map is a
    strict dotted prefix of another.  [_unflatten] performs no such
    validation; what happens depends on the order of the two keys and
    on the keys met between them.  Let [k1] be a strict dotted prefix of
    [k2]; a flat map is written with its most recent item first, so that
    [after ++ (k2, v2) :: between ++ (k1, v1) :: m] is iterated as [m],
    [k1], [between], [k2], [after].
    - If [k1] is met first, the items up to [k1] are assigned without
      error, [v1] is not a record and no key met between [k1] and [k2]
      is a dotted prefix of [k1] (such a key would replace the value of
      [k1]), then [_unflatten] raises [TypeError], whatever comes after
      [k2]: the walk for [k2], or for an earlier key, runs into [v1].
    - If [k2] is met first, [k1] is met last, the items before [k1] are
      assigned without error and no key met between [k2] and [k1] is a
      strict dotted prefix of [k1] (such a key could put a value that is
      not a record in the way of [k1]), then the assignment of [k1]
      succeeds and replaces what the path held: [_unflatten] returns a
      record in which the path of [k1] holds [v1], and when [v1] is not
      a record the entry of [k2] is gone. *)
Theorem unflatten_path_conflict
    (m between after : pydict) (k1 k2 : string) (v1 v2 : value) :
  strict_dotted_prefix k1 k2 ->
  (forall u1,
     _unflatten ((k1, v1) :: m) = Ok u1 ->
     is_dict v1 = false ->
     Forall (fun kv => ~ dotted_prefix (fst kv) k1) between ->
     _unflatten (after ++ (k2, v2) :: between ++ (k1, v1) :: m)
       = Raise TypeError) /\
  (forall u2,
     _unflatten (between ++ (k2, v2) :: m) = Ok u2 ->
     Forall (fun kv => ~ strict_dotted_prefix (fst kv) k1) between ->
     exists u,
       _unflatten ((k1, v1) :: between ++ (k2, v2) :: m) = Ok u /\
       lookup_path (VDict u) (Py.split dot k1) = Some v1 /\
       (is_dict v1 = false ->
        lookup_path (VDict u) (Py.split dot k2) = None)).
Proof.
  intros Hprefix.
  destruct (strict_prefix_parts _ _ Hprefix) as [more Hmore].
  split.
  - intros u1 H1 Hleaf Hbetween.
    assert (Hlook : lookup_path (VDict u1) (Py.split dot k1) = Some v1).
    { rewrite unflatten_cons in H1.
      destruct (_unflatten m) as [u0|]; simpl in H1; [|discriminate].
      apply unflatten_item_Ok, assign_path_lookup in H1.
      now rewrite <- split_init_last in H1. }
    assert (Hrev : Forall (fun kv => forall rest,
                     Py.split dot k1 <> Py.split dot (fst kv) ++ rest)
                     (Py.items between)).
    { unfold Py.items. apply Forall_rev.
      apply (Forall_impl _ (P := fun kv => ~ dotted_prefix (fst kv) k1));
        [|assumption].
      intros kv Hkv rest Hrest. apply Hkv. now exists rest. }
    pose proof (unflatten_items_keep_leaf _ _ _ _ Hlook Hleaf Hrev) as Hkeep.
    rewrite unflatten_app, unflatten_cons, unflatten_app, H1. cbn [bind].
    destruct (unflatten_items u1 (Py.items between)) as [u'|e]; cbn [bind];
      [|now subst e].
    unfold unflatten_item. rewrite Hmore.
    replace (removelast (Py.split dot k1) ++
             List.last (Py.split dot k1) "" :: more)
      with ((removelast (Py.split dot k1) ++
             [List.last (Py.split dot k1) ""]) ++ more)
      by now rewrite <- app_assoc.
    rewrite <- split_init_last.
    now rewrite (assign_path_through_leaf _ _ _ _ _ _ Hkeep Hleaf).
  - intros u2 H2 Hbetween.
    rewrite unflatten_cons, H2. cbn [bind].
    rewrite unflatten_app in H2.
    destruct (_unflatten ((k2, v2) :: m)) as [ua|] eqn:Ha; cbn [bind] in H2;
      [|discriminate].
    rewrite unflatten_cons in Ha.
    destruct (_unflatten m) as [u0|]; simpl in Ha; [|discriminate].
    apply unflatten_item_Ok in Ha. rewrite Hmore in Ha.
    destruct (assign_path_prefix _ _ _ _ _ _ _ v1 Ha) as [ra Hra].
    assert (Hrev : Forall (fun kv => forall rest,
                     removelast (Py.split dot k1)
                     <> Py.split dot (fst kv) ++ rest)
                     (Py.items between)).
    { unfold Py.items. apply Forall_rev.
      apply (Forall_impl _ (P := fun kv => ~ strict_dotted_prefix (fst kv) k1));
        [|assumption].
      intros kv Hkv rest Hrest. apply Hkv.
      exists (rest ++ [List.last (Py.split dot k1) ""]). split.
      - now destruct rest.
      - rewrite (split_init_last k1) at 1. now rewrite Hrest, <- app_assoc. }
    destruct (unflatten_items_keep_walk _ _ _ _ _ _ _ H2 Hra Hrev) as [r' Hr'].
    pose proof (assign_path_dict _ _ _ _ _ Hr') as Hdict.
    pose proof (assign_path_lookup _ _ _ _ _ Hr') as Hlook.
    rewrite <- split_init_last in Hlook.
    unfold unflatten_item. rewrite Hr'. simpl.
    destruct r' as [| | | | |u]; try discriminate.
    exists u. split; [reflexivity|]. split; [exact Hlook|].
    intros Hleaf.
    destruct Hprefix as (rest & Hne & ->).
    rewrite lookup_path_app, Hlook.
    destruct rest as [|q rest]; [contradiction|].
    destruct v1; try discriminate; reflexivity.
Qed.

(** C9, as the claim states it, fails: ["a"] is a strict dotted prefix of
    ["a.b"], and [_unflatten({"a.b": 2, "a": 1})] raises nothing and
    returns [{"a": 1}]. *)
Lemma unflatten_overwrites_silently :
  strict_dotted_prefix "a" "a.b" /\
  _unflatten (Py.dict_of [("a.b", VInt 2); ("a", VInt 1)])
    = Ok (Py.dict_of [("a", VInt 1)]).
Proof.
  split; [|reflexivity].
  exists ["b"]. split; [discriminate | reflexivity].
Qed.

Lemma unflatten_path_conflict_witness :
  strict_dotted_prefix "a" "a.b" /\
  _unflatten (Py.dict_of [("a", VInt 1); ("c", VInt 3); ("a.b", VInt 2);
                          ("d", VInt 4)]) = Raise TypeError /\
  exists u,
    _unflatten (Py.dict_of [("a.b", VInt 2); ("c", VInt 3); ("a", VInt 1)])
      = Ok u /\
    lookup_path (VDict u) ["a"] = Some (VInt 1) /\
    lookup_path (VDict u) ["a"; "b"] = None.
Proof.
  assert (H : strict_dotted_prefix "a" "a.b").
  { exists ["b"]. split; [discriminate | reflexivity]. }
  split; [exact H|].
  destruct (unflatten_path_conflict [] [("c", VInt 3)] [("d", VInt 4)]
              "a" "a.b" (VInt 1) (VInt 2) H) as [Hraise Hoverwrite].
  split.
  - apply (Hraise (Py.dict_of [("a", VInt 1)])); [reflexivity..|].
    apply Forall_cons; [|apply Forall_nil].
    intros [rest Hrest]. simpl in Hrest. discriminate Hrest.
  - assert (Hbetween : Forall (fun kv => ~ strict_dotted_prefix (fst kv) "a")
                         [("c", VInt 3)]).
    { apply Forall_cons; [|apply Forall_nil].
      intros (rest & _ & Hrest). simpl in Hrest. discriminate Hrest. }
    destruct (Hoverwrite
                (Py.dict_of [("a", VDict (Py.dict_of [("b", VInt 2)]));
                             ("c", VInt 3)])
                eq_refl Hbetween) as (u & Hu & Hk1 & Hk2).
    exists u. split; [exact Hu|]. split; [exact Hk1|].
    apply Hk2. reflexivity.
Defined.

(** The conditions on the keys met in between are needed.  In
    [{"a.b": 1, "a": {}, "a.b.c": 2}] the key ["a.b"] is met before
    ["a.b.c"] with a value that is not a record, but ["a"] replaces it
    in between and nothing is raised.  In [{"a.b.c": 1, "a": 5, "a.b": 2}]
    the key ["a.b.c"] is met before ["a.b"], but ["a"] puts [5] in the
    way in between and the assignment of ["a.b"] raises. *)
Lemma unflatten_conflict_depends_on_keys_between :
  _unflatten (Py.dict_of [("a.b", VInt 1); ("a", VDict []); ("a.b.c", VInt 2)])
    = Ok (Py.dict_of
            [("a", VDict (Py.dict_of
                            [("b", VDict (Py.dict_of [("c", VInt 2)]))]))]) /\
  _unflatten (Py.dict_of [("a.b.c", VInt 1); ("a", VInt 5); ("a.b", VInt 2)])
    = Raise TypeError.
Proof. split; reflexivity. Qed.

(** ** The validation of a projection spec (C6) *)
Section Selection.

Lemma unflatten_raise d e : _unflatten d = Raise e -> e = TypeError.
Proof.
  unfold _unflatten. generalize (Py.items d) as l, (@nil (string * value)) as u.
  induction l as [|[key v] l IH]; intros u; simpl; [discriminate|].
  destruct (assign_path _ _ _ v) as [r|e'] eqn:E; simpl.
  - destruct r; simpl; try congruence. apply IH.
  - intros [= <-]. eauto using assign_path_raise.
Qed.

(** The loops of [select] can only fail with the [IndexError] of
    [key_is_match]. *)
Lemma select_keys_raise key v keys : forall selection e,
  select_keys key v keys selection = Raise e -> e = IndexError.
Proof.
  induction keys as [|[selected_key include] keys IH]; intros selection e;
    simpl; [discriminate|].
  destruct (Py.truthy include); [|apply IH].
  unfold key_is_match.
  destruct (String.eqb key selected_key); simpl; [apply IH|].
  destruct (Py.startswith key selected_key); simpl; [|apply IH].
  destruct (Py.remove_all key selected_key); simpl; [congruence | apply IH].
Qed.

Lemma select_data_raise data keys : forall selection e,
  select_data data keys selection = Raise e -> e = IndexError.
Proof.
  induction data as [|[key v] data IH]; intros selection e; simpl;
    [discriminate|].
  destruct (select_keys key v keys selection) eqn:E; simpl; [apply IH|].
  intros [= <-]. eauto using select_keys_raise.
Qed.

Lemma Forall2_In_l {A B : Type} (R : A -> B -> Prop) l l' a :
  Forall2 R l l' -> In a l -> exists b, In b l' /\ R a b.
Proof.
  induction 1 as [|x y l l' HR _ IH]; simpl; [contradiction|].
  intros [->|Hin]; [eauto|].
  destruct (IH Hin) as (b & Hb & HRb). eauto.
Qed.

Lemma Forall2_In_r {A B : Type} (R : A -> B -> Prop) l l' b :
  Forall2 R l l' -> In b l' -> exists a, In a l /\ R a b.
Proof.
  induction 1 as [|x y l l' HR _ IH]; simpl; [contradiction|].
  intros [->|Hin]; [eauto|].
  destruct (IH Hin) as (a & Ha & HRa). eauto.
Qed.

Lemma getitems_Ok keys l :
  (forall k, In k l -> In k (map fst keys)) ->
  exists vs, getitems keys l = Ok vs /\
             Forall2 (fun k v => Py.get keys k = Some v) l vs.
Proof.
  induction l as [|key l IH]; intros Hl; simpl; [eauto|].
  destruct (In_keys_get keys key) as [v Hv]; [apply Hl; now left|].
  destruct IH as (vs & Hvs & HF); [intros k Hk; apply Hl; now right|].
  exists (v :: vs). unfold Py.getitem. rewrite Hv. simpl. rewrite Hvs. simpl.
  auto.
Qed.

(** The sum of values that are each [0] or [1] counts the ones. *)
Lemma sum_zero_one vs : forall acc,
  Forall (fun v => v = VInt 0 \/ v = VInt 1) vs ->
  exists n, Py.sum_from acc vs = Ok (acc + n)%Z /\
            (0 <= n <= Z.of_nat (List.length vs))%Z /\
            (n <> 0%Z <-> In (VInt 1) vs) /\
            (n <> Z.of_nat (List.length vs) <-> In (VInt 0) vs).
Proof.
  induction vs as [|v vs IH]; intros acc HF.
  - exists 0%Z. simpl. rewrite Z.add_0_r. repeat split; try lia; tauto.
  - inversion HF as [|? ? Hv HF']; subst.
    destruct Hv as [-> | ->]; simpl.
    + destruct (IH (acc + 0)%Z HF') as (n & Hsum & Hbound & H1 & H0).
      exists n. rewrite Hsum. replace (acc + 0 + n)%Z with (acc + n)%Z by lia.
      split; [reflexivity|]. split; [lia|]. split.
      * rewrite H1. split; [auto|]. intros [H|H]; [discriminate | exact H].
      * split; [auto|]. intros _. lia.
    + destruct (IH (acc + 1)%Z HF') as (n & Hsum & Hbound & H1 & H0).
      exists (1 + n)%Z. rewrite Hsum.
      replace (acc + 1 + n)%Z with (acc + (1 + n))%Z by lia.
      split; [reflexivity|]. split; [lia|]. split.
      * split; [auto|]. intros _. lia.
      * split.
        -- intros Hn. right. apply H0. lia.
        -- intros [H|H]; [discriminate|]. apply H0 in H. lia.
Qed.

Lemma zero_or_one_get keys k v :
  zero_or_one keys -> Py.get keys k = Some v -> v = VInt 0 \/ v = VInt 1.
Proof.
  unfold zero_or_one, Py.items. rewrite Forall_forall. intros HF Hget.
  apply get_Some_In in Hget. apply (HF (k, v)). now apply -> in_rev.
Qed.

Lemma In_keys_not_id keys k :
  In k (filter (fun key => negb (String.eqb key "_id")) (Py.keys keys)) <->
  In k (map fst keys) /\ k <> "_id".
Proof.
  rewrite filter_In. unfold Py.keys, Py.items. rewrite map_rev, <- in_rev.
  rewrite negb_true_iff. split; intros [Hin Hne]; split; auto.
  - intros ->. now rewrite String.eqb_refl in Hne.
  - destruct (String.eqb k "_id") eqn:E; [|reflexivity].
    apply String.eqb_eq in E. contradiction.
Qed.

(** [_validate_keys] on a spec of zeros and ones: it raises the
    invalid-selection error when the spec mixes them outside [_id], and
    returns otherwise. *)
Lemma validate_keys_zero_one self keys :
  zero_or_one keys ->
  (_validate_keys self keys = Raise (ValueError (CannotMixSelection keys)) /\
   mixes_zero_and_one keys) \/
  ((exists keys', _validate_keys self keys = Ok keys') /\
   ~ mixes_zero_and_one keys).
Proof.
  intros H01. unfold _validate_keys.
  destruct (Nat.eqb (List.length keys) 1 && _) eqn:Eone.
  - right. split; [eauto|].
    apply andb_true_iff in Eone. destruct Eone as [Hlen Hid].
    apply Nat.eqb_eq in Hlen.
    destruct keys as [|[k v] [|? ?]]; try discriminate.
    intros (k0 & k1 & Hk0 & _ & Hget0 & _). simpl in *.
    destruct (String.eqb k "_id") eqn:Ek.
    + apply String.eqb_eq in Ek; subst k.
      destruct (String.eqb "_id" k0) eqn:E0; [|discriminate].
      apply String.eqb_eq in E0. congruence.
    + discriminate.
  - set (keys_without_id :=
           filter (fun key => negb (String.eqb key "_id")) (Py.keys keys)).
    destruct (getitems_Ok keys keys_without_id) as (vs & Hvs & HF2).
    { intros k Hk. now apply In_keys_not_id in Hk. }
    rewrite Hvs. simpl.
    assert (H01vs : Forall (fun v => v = VInt 0 \/ v = VInt 1) vs).
    { apply Forall_forall. intros v Hv.
      destruct (Forall2_In_r _ _ _ _ HF2 Hv) as (k & _ & Hk).
      eauto using zero_or_one_get. }
    destruct (sum_zero_one vs 0%Z H01vs) as (n & Hsum & Hbound & H1 & H0).
    unfold Py.sum. rewrite Hsum. simpl.
    rewrite (Forall2_length HF2).
    assert (Hmix : mixes_zero_and_one keys <->
                   In (VInt 0) vs /\ In (VInt 1) vs).
    { split.
      - intros (k0 & k1 & Hk0 & Hk1 & Hget0 & Hget1). split.
        + destruct (Forall2_In_l _ keys_without_id vs k0 HF2) as (v & Hv & Hk).
          { apply In_keys_not_id. split; [|assumption].
            apply get_Some_In in Hget0.
            now apply (in_map fst) in Hget0. }
          congruence.
        + destruct (Forall2_In_l _ keys_without_id vs k1 HF2) as (v & Hv & Hk).
          { apply In_keys_not_id. split; [|assumption].
            apply get_Some_In in Hget1.
            now apply (in_map fst) in Hget1. }
          congruence.
      - intros [Hin0 Hin1].
        destruct (Forall2_In_r _ _ _ _ HF2 Hin0) as (k0 & Hk0 & Hget0).
        destruct (Forall2_In_r _ _ _ _ HF2 Hin1) as (k1 & Hk1 & Hget1).
        apply In_keys_not_id in Hk0, Hk1.
        exists k0, k1. tauto. }
    destruct (Z.eqb n 0) eqn:En0; simpl.
    + right. split; [eauto|]. apply Z.eqb_eq in En0.
      rewrite Hmix. intros [_ Hin1]. apply H1 in Hin1. contradiction.
    + destruct (Z.eqb n (Z.of_nat (List.length vs))) eqn:Enl; simpl.
      * right. split; [eauto|]. apply Z.eqb_eq in Enl.
        rewrite Hmix. intros [Hin0 _]. apply H0 in Hin0. contradiction.
      * left. split; [reflexivity|].
        apply Z.eqb_neq in En0, Enl. rewrite Hmix. split; tauto.
Qed.

End Selection.

(** C6, as the code has it.  For a projection spec whose flattened
    values are each [0] or [1], [select] raises the invalid-selection
    error exactly when the spec gives [0] to a field other than [_id]
    and [1] to another one; a spec that is uniform outside [_id] is
    never rejected as an invalid selection. *)
Theorem select_invalid_iff_mixed (self : EphemeralDocument) (keys : pydict) :
  zero_or_one (_flatten keys) ->
  (invalid_selection (select self (Some keys)) <->
   mixes_zero_and_one (_flatten keys)).
Proof.
  intros H01. unfold select.
  destruct keys as [|item keys].
  - split.
    + intros (ks & Hraise). apply unflatten_raise in Hraise. discriminate.
    + intros (k0 & _ & _ & _ & Hget & _). discriminate.
  - set (flat := _flatten (item :: keys)) in *.
    destruct (validate_keys_zero_one self flat H01)
      as [[Hraise Hmix] | [[keys' Hok] Hnomix]].
    + rewrite Hraise. simpl. split; [auto|]. intros _. now exists flat.
    + rewrite Hok. simpl. split; [|contradiction].
      intros (ks & Hraise). exfalso.
      destruct (select_data _ _ []) as [selection|e] eqn:E; simpl in Hraise.
      * apply unflatten_raise in Hraise. discriminate.
      * apply select_data_raise in E. congruence.
Qed.

Ltac solve_zero_or_one :=
  unfold zero_or_one; simpl;
  repeat (apply Forall_cons; [simpl; auto|]); apply Forall_nil.

(** C6, as the claim states it, fails in its last part: the spec
    [{"a": 1}] is uniform, yet [select] raises on two documents.  On
    [{"aa": 1, "_id": 7}] the test of [key_is_match] removes every
    occurrence of ["a"] from ["aa"] and indexes the empty string
    ([IndexError]).  On [{"a": 1, "_id": 7}] updated with
    [{"a": {"b": 2}}], whose flat map holds both ["a"] and ["a.b"],
    [_unflatten] walks into the value of ["a"] ([TypeError]). *)
Lemma select_uniform_spec_raises :
  zero_or_one (_flatten spec_a) /\
  ~ mixes_zero_and_one (_flatten spec_a) /\
  select (new_document (Py.dict_of [("aa", VInt 1); ("_id", VInt 7)]))
    (Some spec_a) = Raise IndexError /\
  exists document,
    update (new_document (Py.dict_of [("a", VInt 1); ("_id", VInt 7)]))
      (Py.dict_of [("a", VDict (Py.dict_of [("b", VInt 2)]))]) = Ok document /\
    select document (Some spec_a) = Raise TypeError.
Proof.
  split; [|split; [|split]].
  - solve_zero_or_one.
  - intros (k0 & k1 & _ & _ & Hget0 & _).
    change (_flatten spec_a) with [("a", VInt 1)] in Hget0.
    cbn [Py.get] in Hget0.
    destruct (String.eqb "a" k0); discriminate.
  - reflexivity.
  - eexists. split; reflexivity.
Qed.

Lemma select_invalid_iff_mixed_witness :
  zero_or_one (_flatten spec_mixed) /\
  invalid_selection (select ab_document (Some spec_mixed)).
Proof.
  assert (H01 : zero_or_one (_flatten spec_mixed)).
  { solve_zero_or_one. }
  split; [exact H01|].
  apply (select_invalid_iff_mixed ab_document spec_mixed H01).
  exists "a", "b". repeat split; discriminate.
Defined.

(** ** [find] and [delete_many] (C5, C8) *)
Section Scans.

Variable query : option pydict.

Lemma matches_true document :
  matches query document = true <-> match_ document query = Ok true.
Proof.
  unfold matches. destruct (match_ document query) as [[|]|]; split;
    congruence.
Qed.

Lemma find_loop_Ok selection documents : forall found_documents,
  find_loop documents query selection = Ok found_documents <->
  Forall (match_returns query) documents /\
  Forall2 (fun document r => select document selection = Ok r)
    (filter (matches query) documents) found_documents.
Proof.
  induction documents as [|document documents IH]; intros found; simpl.
  - split.
    + intros [= <-]. split; constructor.
    + intros [_ H]. now inversion H.
  - assert (Hm : matches query document =
                 match match_ document query with Ok true => true | _ => false end)
      by reflexivity.
    rewrite Hm. clear Hm.
    destruct (match_ document query) as [[|]|e] eqn:Em; simpl.
    + destruct (select document selection) as [r|e] eqn:Es; simpl.
      * destruct (find_loop documents query selection) as [rest|e] eqn:Ef;
          simpl.
        -- split.
           ++ intros [= <-]. destruct (proj1 (IH rest) eq_refl) as [Hd Hs].
              split; constructor; auto. now exists true.
           ++ intros [Hd Hs]. inversion Hd; subst. inversion Hs; subst.
              assert (Hrest : Ok rest = Ok l') by (apply IH; auto).
              congruence.
        -- split; [discriminate|].
           intros [Hd Hs]. inversion Hd; subst. inversion Hs; subst.
           assert (Hrest : @Raise (list pydict) e = Ok l') by (apply IH; auto).
           discriminate.
      * split; [discriminate|].
        intros [_ Hs]. inversion Hs; subst. congruence.
    + rewrite IH. split.
      * intros [Hd Hs]. split; [constructor; auto | exact Hs]. now exists false.
      * intros [Hd Hs]. inversion Hd; subst. split; assumption.
    + split; [discriminate|].
      intros [Hd _]. inversion Hd as [|? ? [b Hb] _]; subst. congruence.
Qed.

Lemma delete_loop_Ok documents : forall deleted retained_documents,
  Forall (match_returns query) documents ->
  delete_loop documents query deleted retained_documents =
  Ok (deleted + List.length (filter (matches query) documents),
      retained_documents ++
      filter (fun document => negb (matches query document)) documents).
Proof.
  induction documents as [|document documents IH]; intros deleted retained Hd;
    simpl.
  - now rewrite Nat.add_0_r, app_nil_r.
  - inversion Hd as [|? ? [b Hb] Hd']; subst.
    assert (Hm : matches query document = b)
      by (unfold matches; rewrite Hb; now destruct b).
    rewrite Hm, Hb. simpl.
    destruct b; simpl.
    + rewrite IH by assumption. simpl. now rewrite Nat.add_succ_r.
    + rewrite IH by assumption. now rewrite <- app_assoc.
Qed.

Lemma filter_length_split {A : Type} (f : A -> bool) l :
  List.length (filter f l) + List.length (filter (fun a => negb (f a)) l)
  = List.length l.
Proof.
  induction l as [|a l IH]; simpl; [reflexivity|].
  destruct (f a); simpl; lia.
Qed.

End Scans.

(** C5.  [find(query, selection)] returns a list exactly when [match]
    returns on every document and [select] returns on every document
    that matches; the list is then made of the documents whose
    [match(query)] is true, in the order of the collection (insertion
    order), each projected by [select(selection)].  In particular, with
    [{"x": 3}], [{"x": 5}], [{"x": 9}] inserted in that order,
    [find({"x.$gte": 5})] returns the documents with [x = 5] and
    [x = 9], in that order. *)
Theorem find_filters_and_projects :
  (forall self query selection found_documents,
     find self query selection = Ok found_documents <->
     Forall (match_returns query) (_documents self) /\
     Forall2 (fun document r => select document selection = Ok r)
       (filter (matches query) (_documents self)) found_documents) /\
  find x_collection (Some (Py.dict_of [("x.$gte", VInt 5)])) None
    = Ok [Py.dict_of [("_id", VInt 2); ("x", VInt 5)];
          Py.dict_of [("_id", VInt 3); ("x", VInt 9)]].
Proof.
  split; [|reflexivity].
  intros self query selection found_documents. apply find_loop_Ok.
Qed.

Lemma find_filters_and_projects_witness :
  Forall (match_returns x_gte_5) (_documents x_collection) /\
  Forall2 (fun document r => select document None = Ok r)
    (filter (matches x_gte_5) (_documents x_collection))
    [Py.dict_of [("_id", VInt 2); ("x", VInt 5)];
     Py.dict_of [("_id", VInt 3); ("x", VInt 9)]].
Proof.
  apply (proj1 find_filters_and_projects x_collection x_gte_5 None).
  reflexivity.
Defined.

(** C8.  When [match] returns on every document, [delete_many(query)]
    keeps exactly the documents that do not match, in their order,
    returns the number of documents that match (the number removed),
    and leaves [_indexes] as it was.  In every case, also when [match]
    raises, the tracked value-sets are unchanged, and a call that raises
    leaves the whole collection unchanged. *)
Theorem delete_many_spec (query : option pydict) (self : EphemeralCollection) :
  (Forall (match_returns query) (_documents self) ->
   let retained :=
     filter (fun document => negb (matches query document)) (_documents self) in
   let deleted := List.length (filter (matches query) (_documents self)) in
   delete_many query self =
     (Ok deleted, {| _documents := retained; _indexes := _indexes self |}) /\
   deleted + List.length retained = List.length (_documents self)) /\
  (forall r self',
     delete_many query self = (r, self') ->
     _indexes self' = _indexes self /\
     (forall e, r = Raise e -> self' = self)).
Proof.
  split.
  - intros Hd. cbv zeta. split; [|apply filter_length_split].
    unfold delete_many. now rewrite delete_loop_Ok.
  - intros r self'. unfold delete_many.
    destruct (delete_loop _ query 0 []) as [[deleted retained]|e].
    + intros [= <- <-]. split; [reflexivity | discriminate].
    + intros [= <- <-]. auto.
Qed.

Lemma delete_many_spec_witness :
  Forall (match_returns x_gte_5) (_documents x_collection) /\
  delete_many x_gte_5 x_collection =
    (Ok 2, {| _documents :=
                [new_document (Py.dict_of [("x", VInt 3); ("_id", VInt 1)])];
              _indexes := [(["_id"], [[VInt 1]; [VInt 2]; [VInt 3]])] |}).
Proof.
  assert (Hd : Forall (match_returns x_gte_5) (_documents x_collection)).
  { repeat (apply Forall_cons; [eexists; reflexivity|]). apply Forall_nil. }
  split; [exact Hd|].
  exact (proj1 (proj1 (delete_many_spec x_gte_5 x_collection) Hd)).
Defined.

(** ** [insert_many] (C1, C4, C10) *)
Section Insert.

#[local] Arguments insert_one : simpl never.

Lemma heap_set_same h l d : heap_set h l d l = d.
Proof. unfold heap_set. now rewrite Nat.eqb_refl. Qed.

Lemma heap_set_other h l d l' : l' <> l -> heap_set h l d l' = h l'.
Proof.
  intros Hne. unfold heap_set.
  destruct (Nat.eqb l' l) eqn:E; [|reflexivity].
  apply Nat.eqb_eq in E. contradiction.
Qed.

Lemma contains_setitem d k v : Py.contains (Py.setitem d k v) k = true.
Proof. unfold Py.contains. now rewrite get_setitem_same. Qed.

(** [assign_id] only touches an object that has no [_id], and gives it
    one. *)
Lemma assign_id_cases l h self h2 :
  assign_id l h self = Ok h2 ->
  (Py.contains (h l) "_id" = true /\ h2 = h) \/
  (Py.contains (h l) "_id" = false /\
   exists new_id, _get_new_id self = Ok new_id /\
                  h2 = heap_set h l (Py.setitem (h l) "_id" new_id)).
Proof.
  unfold assign_id.
  destruct (Py.contains (h l) "_id"); simpl.
  - intros [= <-]. now left.
  - destruct (_get_new_id self) as [new_id|]; simpl; [|discriminate].
    intros [= <-]. right. eauto.
Qed.

Lemma assign_id_has_id l h self h2 :
  assign_id l h self = Ok h2 -> Py.contains (h2 l) "_id" = true.
Proof.
  intros H. destruct (assign_id_cases _ _ _ _ H)
    as [[Hc ->] | [_ (new_id & _ & ->)]]; [assumption|].
  rewrite heap_set_same. apply contains_setitem.
Qed.

Lemma assign_id_frame l h self h2 l' :
  assign_id l h self = Ok h2 ->
  Py.contains (h l') "_id" = true -> h2 l' = h l'.
Proof.
  intros H Hc. destruct (assign_id_cases _ _ _ _ H)
    as [[_ ->] | [Hl (new_id & _ & ->)]]; [reflexivity|].
  apply heap_set_other. intros ->. congruence.
Qed.

Lemma register_keys_documents document self r self' :
  _register_keys document self = (r, self') ->
  _documents self' = _documents self.
Proof.
  unfold _register_keys.
  destruct (register_indexes document (_indexes self)).
  now intros [= _ <-].
Qed.

(** One iteration of the loop: the objects that have an [_id] are left
    alone, the collection only grows, and on success the flattened
    object, which now has an [_id], is the document appended. *)
Lemma insert_one_inv l h self r h' self' :
  insert_one l (h, self) = (r, (h', self')) ->
  (forall l', Py.contains (h l') "_id" = true -> h' l' = h l') /\
  (exists more, _documents self' = _documents self ++ more) /\
  (r = Ok tt ->
   Py.contains (h' l) "_id" = true /\
   _documents self' = _documents self ++ [new_document (h' l)]).
Proof.
  unfold insert_one.
  destruct (assign_id l h self) as [h2|e] eqn:Ea.
  - destruct (_validate_index self (new_document (h2 l)) None) as [u|e] eqn:Ev.
    + destruct (_register_keys _ _) as [r2 self2] eqn:Er.
      intros [= <- <- <-].
      apply register_keys_documents in Er. simpl in Er.
      split; [eauto using assign_id_frame|].
      split; [eauto|].
      intros _. eauto using assign_id_has_id.
    + intros [= <- <- <-].
      split; [eauto using assign_id_frame|].
      split; [exists []; now rewrite app_nil_r | discriminate].
  - intros [= <- <- <-].
    split; [auto|]. split; [exists []; now rewrite app_nil_r | discriminate].
Qed.

Lemma insert_loop_app pre : forall post st,
  insert_loop (pre ++ post) st =
  match insert_loop pre st with
  | (Ok _, st') => insert_loop post st'
  | (Raise e, st') => (Raise e, st')
  end.
Proof.
  induction pre as [|l pre IH]; intros post st; simpl; [reflexivity|].
  destruct (insert_one l st) as [[u|e] st']; [apply IH | reflexivity].
Qed.

(** The loop, whatever its outcome: objects with an [_id] are left
    alone and the collection only grows. *)
Lemma insert_loop_inv documents : forall h self r h' self',
  insert_loop documents (h, self) = (r, (h', self')) ->
  (forall l, Py.contains (h l) "_id" = true -> h' l = h l) /\
  (exists more, _documents self' = _documents self ++ more).
Proof.
  induction documents as [|l documents IH]; intros h self r h' self'; simpl.
  - intros [= <- <- <-]. split; [auto|]. exists []. now rewrite app_nil_r.
  - destruct (insert_one l (h, self)) as [[u|e] [h1 self1]] eqn:E1.
    + intros Hloop.
      destruct (insert_one_inv _ _ _ _ _ _ E1) as (Hf1 & [m1 Hm1] & _).
      destruct (IH _ _ _ _ _ Hloop) as (Hf & [m Hm]).
      split.
      * intros l' Hc. rewrite Hf, Hf1; auto. now rewrite Hf1.
      * exists (m1 ++ m). now rewrite Hm, Hm1, app_assoc.
    + intros [= <- <- <-].
      destruct (insert_one_inv _ _ _ _ _ _ E1) as (Hf1 & Hm1 & _). auto.
Qed.

(** A batch inserted without error: each object has an [_id], and the
    collection has grown by the flattened objects, in the order of the
    batch. *)
Lemma insert_loop_Ok documents : forall h self h' self',
  insert_loop documents (h, self) = (Ok tt, (h', self')) ->
  Forall (fun l => Py.contains (h' l) "_id" = true) documents /\
  _documents self' =
    _documents self ++ map (fun l => new_document (h' l)) documents.
Proof.
  induction documents as [|l documents IH]; intros h self h' self'; simpl.
  - intros [= <- <-]. split; [constructor | now rewrite app_nil_r].
  - destruct (insert_one l (h, self)) as [[[]|e] [h1 self1]] eqn:E1;
      [|discriminate].
    intros Hloop.
    destruct (insert_one_inv _ _ _ _ _ _ E1) as (_ & _ & Hok).
    destruct (Hok eq_refl) as [Hid Hdocs].
    destruct (IH _ _ _ _ Hloop) as [Hall Hrest].
    destruct (insert_loop_inv _ _ _ _ _ _ Hloop) as [Hframe _].
    rewrite (Hframe l Hid).
    split.
    + constructor; [|assumption]. rewrite (Hframe l Hid). assumption.
    + rewrite Hrest, Hdocs, <- app_assoc. reflexivity.
Qed.

End Insert.

(** The first index the document violates raises the duplicate-key
    error of [_validate_index]. *)
Lemma validate_indexes_first_violation self document index document_values
    after before :
  Forall (passes_index self document) before ->
  violates_index self document index document_values ->
  validate_indexes self document (before ++ index :: after) =
    Raise (DuplicateKeyError index document_values).
Proof.
  intros Hpass (tracked & Hvalues & Htracked & Hin).
  induction Hpass as [|i before (vs & tr & Hvs & Htr & Hnotin) _ IH]; simpl.
  - rewrite Hvalues. simpl. rewrite Htracked. simpl. now rewrite Hin.
  - rewrite Hvs. simpl. rewrite Htr. simpl. rewrite Hnotin. simpl. exact IH.
Qed.

(** C1.  [insert_many] checks each document of the batch, in order,
    against the tracked unique indexes, in their order.  If the
    documents [pre] before [l] were inserted without error and the
    document [l] (once it has its [_id]) passes the indexes [before] and
    violates [index], the call raises the duplicate-key error of that
    index, and the collection is left with the documents of [pre]
    appended: the batch is not atomic.  In particular, with a unique
    index on ["a"], inserting [{"a": 1}] succeeds, inserting [{"a": 1}]
    again raises the duplicate-key error, and [count({})] is then 1. *)
Theorem insert_many_not_atomic :
  (forall pre l post h self h1 self1 h2 before index after document_values,
     insert_loop pre (h, self) = (Ok tt, (h1, self1)) ->
     assign_id l h1 self1 = Ok h2 ->
     map fst (_indexes self1) = before ++ index :: after ->
     Forall (passes_index self1 (new_document (h2 l))) before ->
     violates_index self1 (new_document (h2 l)) index document_values ->
     insert_many (pre ++ l :: post) (h, self) =
       (Raise (DuplicateKeyError index document_values), (h2, self1)) /\
     _documents self1 =
       _documents self ++ map (fun l' => new_document (h2 l')) pre) /\
  (fst a_first_call = Ok 1 /\
   fst a_second_call = Raise (DuplicateKeyError ["a"] [VInt 1]) /\
   count (snd (snd a_second_call)) (Some []) = Ok 1).
Proof.
  split; [|repeat split].
  intros pre l post h self h1 self1 h2 before index after document_values
    Hpre Hid Hindexes Hpass Hviolates.
  split.
  - unfold insert_many. rewrite insert_loop_app, Hpre.
    cbn [insert_loop]. unfold insert_one. rewrite Hid.
    unfold _validate_index. rewrite Hindexes.
    now rewrite (validate_indexes_first_violation _ _ _ _ _ _ Hpass Hviolates).
  - destruct (insert_loop_Ok _ _ _ _ _ Hpre) as [Hall ->].
    f_equal. apply map_ext_in. intros l' Hl'.
    rewrite Forall_forall in Hall.
    now rewrite (assign_id_frame _ _ _ _ l' Hid (Hall l' Hl')).
Qed.

Lemma insert_many_not_atomic_witness :
  (insert_loop [] (a_heap1, a_self1) = (Ok tt, (a_heap1, a_self1)) /\
   assign_id 1 a_heap1 a_self1 = Ok a_heap2 /\
   map fst (_indexes a_self1) = [["_id"]] ++ ["a"] :: [] /\
   Forall (passes_index a_self1 (new_document (a_heap2 1))) [["_id"]] /\
   violates_index a_self1 (new_document (a_heap2 1)) ["a"] [VInt 1]) /\
  insert_many ([] ++ 1 :: []) (a_heap1, a_self1) =
    (Raise (DuplicateKeyError ["a"] [VInt 1]), (a_heap2, a_self1)) /\
  _documents a_self1 =
    _documents a_self1 ++ map (fun l' => new_document (a_heap2 l')) [].
Proof.
  assert (Hpre : insert_loop [] (a_heap1, a_self1)
                 = (Ok tt, (a_heap1, a_self1))) by reflexivity.
  assert (Hid : assign_id 1 a_heap1 a_self1 = Ok a_heap2) by reflexivity.
  assert (Hindexes : map fst (_indexes a_self1) = [["_id"]] ++ ["a"] :: [])
    by reflexivity.
  assert (Hpass : Forall (passes_index a_self1 (new_document (a_heap2 1)))
                    [["_id"]]).
  { constructor; [|constructor].
    exists [VInt 2], [[VInt 1]]. repeat split. }
  assert (Hviolates : violates_index a_self1 (new_document (a_heap2 1))
                        ["a"] [VInt 1]).
  { exists [[VInt 1]]. repeat split. }
  split; [repeat split; assumption|].
  exact (proj1 insert_many_not_atomic [] 1 [] a_heap1 a_self1 a_heap1 a_self1
           a_heap2 [["_id"]] ["a"] [] [VInt 1]
           Hpre Hid Hindexes Hpass Hviolates).
Defined.

(** ** The identifier given by [insert_many] (C4, C10) *)
Section NewId.

#[local] Arguments insert_one : simpl never.

Lemma has_dot_append a b : has_dot (a ++ String dot b)%string = true.
Proof.
  induction a as [|c a IH]; simpl; [reflexivity|].
  rewrite IH. apply orb_true_r.
Qed.

(** Every key left by the renaming loop has the form [key.k]. *)
Lemma rename_keys_dotted key d k :
  Py.get (rename_keys key d) k <> None -> has_dot k = true.
Proof.
  unfold rename_keys.
  assert (Hinv : forall ks d',
             (forall k', Py.get d' k' <> None ->
                         has_dot k' = true \/ In k' ks) ->
             forall k', Py.get (fold_left (rename_key key) ks d') k' <> None ->
                        has_dot k' = true).
  { induction ks as [|k0 ks IH]; intros d' Hd' k'; simpl.
    - intros H. destruct (Hd' k' H) as [?|[]]; assumption.
    - apply IH. clear k'. intros k'. unfold rename_key.
      destruct (Py.get d' k0) as [v|] eqn:E0.
      + rewrite get_setitem, get_remove.
        destruct (String.eqb (key ++ "." ++ k0) k') eqn:Ek.
        * apply String.eqb_eq in Ek. subst k'. intros _. left.
          exact (has_dot_append key k0).
        * destruct (String.eqb k0 k') eqn:E; [congruence|].
          intros H. destruct (Hd' k' H) as [?|[->|?]]; auto.
          now rewrite String.eqb_refl in E.
      + intros H. destruct (Hd' k' H) as [?|[->|?]]; auto. }
  apply Hinv. intros k' Hk'. right.
  destruct (Py.get d k') as [v|] eqn:E; [|contradiction].
  apply get_Some_In in E. unfold Py.keys, Py.items.
  rewrite map_rev. apply -> in_rev. now apply (in_map fst) in E.
Qed.

(** A key without "." is in the flat map only if it is a key of the
    record. *)
Lemma flatten_get_top k d :
  has_dot k = false -> Py.get d k = None -> Py.get (__flatten d) k = None.
Proof.
  intros Hk. induction d as [|[key v] d IH]; [reflexivity|].
  simpl. destruct (String.eqb key k) eqn:E; [discriminate|].
  intros Hd. rewrite flatten_cons, get_update, (IH Hd).
  assert (Hleaf : Py.get [(key, v)] k = None) by (simpl; now rewrite E).
  destruct v as [| | | | |[|item sub]]; try exact Hleaf.
  destruct (Py.get (rename_keys key _) k) eqn:Er; [|reflexivity].
  assert (Hdot : has_dot k = true)
    by (eapply rename_keys_dotted; rewrite Er; discriminate).
  congruence.
Qed.

(** The document made from an object that was just given its [_id]
    holds that [_id]. *)
Lemma id_of_new_document d n :
  Py.contains d "_id" = false ->
  id_of (new_document (Py.setitem d "_id" (VInt n))) = Some (VInt n).
Proof.
  intros Hc. unfold Py.setitem. rewrite Hc.
  unfold id_of, new_document, _flatten, Py.deepcopy. cbn [_data].
  rewrite flatten_cons, get_update, flatten_get_top; [reflexivity..|].
  unfold Py.contains in Hc. now destruct (Py.get d "_id").
Qed.

Lemma fold_max_spec l : forall m,
  let M := fold_left Z.max l m in
  (M = m \/ In M l) /\ (m <= M)%Z /\ (forall i, In i l -> (i <= M)%Z).
Proof.
  induction l as [|x l IH]; intros m; cbv zeta; simpl.
  - split; [now left|]. split; [lia | contradiction].
  - destruct (IH (Z.max m x)) as (Hin & Hle & Hall).
    split; [|split].
    + destruct Hin as [Heq|Hin]; [|right; right; exact Hin].
      destruct (Z.max_spec m x) as [[_ Hm]|[_ Hm]].
      * right. left. rewrite Heq. now symmetry.
      * left. rewrite Heq. exact Hm.
    + lia.
    + intros i [<-|Hi]; [lia | auto].
Qed.

Lemma max_id_ints documents : forall ids m,
  map id_of documents = map (fun n => Some (VInt n)) ids ->
  max_id (VInt m) documents = Ok (VInt (fold_left Z.max ids m)).
Proof.
  induction documents as [|d documents IH]; intros [|i ids] m; simpl;
    try discriminate; [reflexivity|].
  intros [= Hd Hrest].
  unfold doc_getitem, Py.getitem. unfold id_of in Hd. rewrite Hd. simpl.
  rewrite <- (IH ids (Z.max m i) Hrest).
  destruct (Z.ltb m i) eqn:E.
  - apply Z.ltb_lt in E. now rewrite Z.max_r by lia.
  - apply Z.ltb_ge in E. now rewrite Z.max_l by lia.
Qed.

(** [_get_new_id] on a collection whose identifiers are integers *)
Lemma get_new_id_ints self ids new_id :
  map id_of (_documents self) = map (fun n => Some (VInt n)) ids ->
  next_id ids new_id ->
  _get_new_id self = Ok (VInt new_id).
Proof.
  unfold _get_new_id.
  destruct (_documents self) as [|d documents]; destruct ids as [|i ids];
    simpl; try discriminate.
  - intros _ [[_ ->]|(k & [] & _)]. reflexivity.
  - intros [= Hd Hrest] [[? _]|(k & Hk & Hmax & ->)]; [discriminate|].
    unfold doc_getitem, Py.getitem. unfold id_of in Hd. rewrite Hd. simpl.
    rewrite (max_id_ints _ _ _ Hrest). unfold Py.add_int, Py.as_int, bind.
    destruct (fold_max_spec ids i) as (Hin & Hle & Hall).
    do 2 f_equal.
    assert (Hupper : (fold_left Z.max ids i <= k)%Z).
    { apply Hmax. destruct Hin as [->|Hin]; [now left | now right]. }
    assert (Hlower : (k <= fold_left Z.max ids i)%Z).
    { destruct Hk as [<-|Hk]; auto. }
    lia.
Qed.

(** The iteration of the loop on an object that has no [_id] *)
Lemma insert_one_assigned l h1 self1 new_id r h2 self2 :
  Py.contains (h1 l) "_id" = false ->
  _get_new_id self1 = Ok new_id ->
  insert_one l (h1, self1) = (r, (h2, self2)) ->
  h2 = heap_set h1 l (Py.setitem (h1 l) "_id" new_id) /\
  ((self2 = self1 /\ exists e, r = Raise e) \/
   _documents self2 = _documents self1 ++ [new_document (h2 l)]).
Proof.
  intros Hc Hnew. unfold insert_one, assign_id. rewrite Hc, Hnew.
  cbn [negb bind].
  match goal with
  | |- context [_validate_index self1 ?d None] =>
      destruct (_validate_index self1 d None)
  end.
  - destruct (_register_keys _ _) as [r2 self'] eqn:Er.
    apply register_keys_documents in Er.
    intros [= <- <- <-]. split; [reflexivity|]. right. exact Er.
  - intros [= <- <- <-]. split; [reflexivity|]. left. eauto.
Qed.

End NewId.

(** What [insert_many] does with a record [l] that has no [_id] when
    its turn comes: the object of the caller receives the identifier
    returned by [_get_new_id], whatever the outcome of the call, and the
    first document the collection grows by, if any, is the flattening
    of that object. *)
Lemma insert_many_record pre l post h self h1 self1 new_id r h' self' :
  insert_loop pre (h, self) = (Ok tt, (h1, self1)) ->
  Py.contains (h1 l) "_id" = false ->
  _get_new_id self1 = Ok new_id ->
  insert_many (pre ++ l :: post) (h, self) = (r, (h', self')) ->
  h' l = Py.setitem (h1 l) "_id" new_id /\
  exists appended,
    _documents self' = _documents self1 ++ appended /\
    match appended with
    | [] => exists e, r = Raise e
    | document :: _ => document = new_document (h' l)
    end.
Proof.
  intros Hpre Hc Hnew.
  unfold insert_many. rewrite insert_loop_app, Hpre. cbn [insert_loop].
  destruct (insert_one l (h1, self1)) as [[u|e] [h2 self2]] eqn:E1;
    destruct (insert_one_assigned _ _ _ _ _ _ _ Hc Hnew E1) as [Hh2 Hdocs].
  - destruct (insert_loop post (h2, self2)) as [r' [h3 self3]] eqn:E2.
    destruct (insert_loop_inv _ _ _ _ _ _ E2) as [Hframe [more Hmore]].
    assert (Hl : h3 l = Py.setitem (h1 l) "_id" new_id).
    { rewrite Hframe; subst h2; rewrite heap_set_same;
        [reflexivity | apply contains_setitem]. }
    assert (Happ : _documents self3 =
                   _documents self1 ++ new_document (h3 l) :: more).
    { destruct Hdocs as [[_ [e He]]|Hdocs]; [discriminate|].
      rewrite Hmore, Hdocs, <- app_assoc. simpl.
      rewrite Hl. subst h2. now rewrite heap_set_same. }
    destruct r' as [[]|e]; intros [= <- <- <-];
      (split; [exact Hl|]);
      exists (new_document (h3 l) :: more); (split; [exact Happ | reflexivity]).
  - intros [= <- <- <-]. subst h2. rewrite heap_set_same.
    split; [reflexivity|].
    destruct Hdocs as [[-> _]|Hdocs].
    + exists []. rewrite app_nil_r. eauto.
    + rewrite heap_set_same in Hdocs.
      exists [new_document (Py.setitem (h1 l) "_id" new_id)].
      split; [exact Hdocs | reflexivity].
Qed.

Lemma get_new_id_is_int self new_id :
  _get_new_id self = Ok new_id -> exists n, new_id = VInt n.
Proof.
  unfold _get_new_id. destruct (_documents self) as [|d documents].
  - intros [= <-]. eauto.
  - destruct (doc_getitem d "_id"); simpl; [|discriminate].
    destruct (max_id _ documents); simpl; [|discriminate].
    destruct (Py.add_int 1 _); simpl; [|discriminate].
    intros [= <-]. eauto.
Qed.

(** C4.  Take a batch in which the documents [pre] before the record [l]
    were inserted without error, reaching a collection whose
    identifiers are the integers [ids], and let [l] have no [_id] at
    that point.  Then [insert_many] gives it [_id = 1] when the
    collection is empty and [_id = k + 1], where [k] is the maximum of
    [ids], otherwise: that is what [_get_new_id] returns, what the
    record holds after the call, and the [_id] of the document stored
    for it (a document is stored unless the call raises on this
    record). *)
Theorem insert_many_assigns_next_id
    (pre : list loc) (l : loc) (post : list loc)
    (h : heap) (self : EphemeralCollection)
    (h1 : heap) (self1 : EphemeralCollection) (ids : list Z) (new_id : Z)
    (r : Res nat) (h' : heap) (self' : EphemeralCollection) :
  insert_loop pre (h, self) = (Ok tt, (h1, self1)) ->
  Py.contains (h1 l) "_id" = false ->
  map id_of (_documents self1) = map (fun n => Some (VInt n)) ids ->
  next_id ids new_id ->
  insert_many (pre ++ l :: post) (h, self) = (r, (h', self')) ->
  _get_new_id self1 = Ok (VInt new_id) /\
  Py.get (h' l) "_id" = Some (VInt new_id) /\
  exists appended,
    _documents self' = _documents self1 ++ appended /\
    match appended with
    | [] => exists e, r = Raise e
    | document :: _ => id_of document = Some (VInt new_id)
    end.
Proof.
  intros Hpre Hc Hids Hnext Hcall.
  pose proof (get_new_id_ints _ _ _ Hids Hnext) as Hnew.
  destruct (insert_many_record _ _ _ _ _ _ _ _ _ _ _ Hpre Hc Hnew Hcall)
    as (Hl & appended & Happ & Hfirst).
  split; [exact Hnew|].
  split; [rewrite Hl; apply get_setitem_same|].
  exists appended. split; [exact Happ|].
  destruct appended as [|document more]; [exact Hfirst|].
  rewrite Hfirst, Hl. now apply id_of_new_document.
Qed.

Lemma insert_many_assigns_next_id_witness :
  (insert_loop [] id_collection = (Ok tt, id_collection) /\
   Py.contains (fst id_collection 2) "_id" = false /\
   map id_of (_documents (snd id_collection))
     = map (fun n => Some (VInt n)) [4; 2]%Z /\
   next_id [4; 2]%Z 5%Z /\
   insert_many ([] ++ 2 :: [3]) id_collection = id_batch_call) /\
  _get_new_id (snd id_collection) = Ok (VInt 5) /\
  Py.get (fst (snd id_batch_call) 2) "_id" = Some (VInt 5) /\
  exists appended,
    _documents (snd (snd id_batch_call))
      = _documents (snd id_collection) ++ appended /\
    match appended with
    | [] => exists e, fst id_batch_call = Raise e
    | document :: _ => id_of document = Some (VInt 5)
    end.
Proof.
  assert (Hpre : insert_loop [] (fst id_collection, snd id_collection)
                 = (Ok tt, (fst id_collection, snd id_collection)))
    by reflexivity.
  assert (Hc : Py.contains (fst id_collection 2) "_id" = false) by reflexivity.
  assert (Hids : map id_of (_documents (snd id_collection))
                 = map (fun n => Some (VInt n)) [4; 2]%Z) by reflexivity.
  assert (Hnext : next_id [4; 2]%Z 5%Z).
  { right. exists 4%Z. split; [now left|]. split; [|reflexivity].
    intros i [<-|[<-|[]]]; lia. }
  assert (Hcall : insert_many ([] ++ 2 :: [3])
                    (fst id_collection, snd id_collection)
                  = (fst id_batch_call,
                     (fst (snd id_batch_call), snd (snd id_batch_call))))
    by reflexivity.
  split; [repeat split; assumption|].
  exact (insert_many_assigns_next_id [] 2 [3]
           (fst id_collection) (snd id_collection)
           (fst id_collection) (snd id_collection) [4; 2]%Z 5%Z
           _ _ _ Hpre Hc Hids Hnext Hcall).
Defined.

(** C10.  Take a batch in which the documents [pre] before the record
    [l] were inserted without error, and let [l] have no [_id] at that
    point.  Whatever the outcome of the call, the record of the caller
    is afterwards the record with the integer returned by [_get_new_id]
    assigned to its key [_id]; and the document stored for it is the
    flattening of that mutated record (a document is stored unless the
    call raises on this record). *)
Theorem insert_many_mutates_caller_record
    (pre : list loc) (l : loc) (post : list loc)
    (h : heap) (self : EphemeralCollection)
    (h1 : heap) (self1 : EphemeralCollection) (new_id : value)
    (r : Res nat) (h' : heap) (self' : EphemeralCollection) :
  insert_loop pre (h, self) = (Ok tt, (h1, self1)) ->
  Py.contains (h1 l) "_id" = false ->
  _get_new_id self1 = Ok new_id ->
  insert_many (pre ++ l :: post) (h, self) = (r, (h', self')) ->
  (exists n, new_id = VInt n) /\
  h' l = Py.setitem (h1 l) "_id" new_id /\
  h' l <> h1 l /\
  exists appended,
    _documents self' = _documents self1 ++ appended /\
    match appended with
    | [] => exists e, r = Raise e
    | document :: _ => document = new_document (h' l)
    end.
Proof.
  intros Hpre Hc Hnew Hcall.
  destruct (insert_many_record _ _ _ _ _ _ _ _ _ _ _ Hpre Hc Hnew Hcall)
    as (Hl & Hstored).
  split; [eauto using get_new_id_is_int|].
  split; [exact Hl|].
  split; [|exact Hstored].
  intros Heq. rewrite Heq in Hl.
  assert (Hid : Py.contains (h1 l) "_id" = true)
    by (rewrite Hl; apply contains_setitem).
  congruence.
Qed.

Lemma insert_many_mutates_caller_record_witness :
  (insert_loop [] (a_records, a_indexed) = (Ok tt, (a_records, a_indexed)) /\
   Py.contains (a_records 0) "_id" = false /\
   _get_new_id a_indexed = Ok (VInt 1) /\
   a_batch_call = (Raise (DuplicateKeyError ["a"] [VInt 1]),
                   (fst (snd a_batch_call), snd (snd a_batch_call)))) /\
  (exists n, VInt 1 = VInt n) /\
  fst (snd a_batch_call) 0 = Py.setitem (a_records 0) "_id" (VInt 1) /\
  fst (snd a_batch_call) 0 <> a_records 0 /\
  exists appended,
    _documents (snd (snd a_batch_call)) = _documents a_indexed ++ appended /\
    match appended with
    | [] => exists e, @Raise nat (DuplicateKeyError ["a"] [VInt 1]) = Raise e
    | document :: _ => document = new_document (fst (snd a_batch_call) 0)
    end.
Proof.
  assert (Hpre : insert_loop [] (a_records, a_indexed)
                 = (Ok tt, (a_records, a_indexed))) by reflexivity.
  assert (Hc : Py.contains (a_records 0) "_id" = false) by reflexivity.
  assert (Hnew : _get_new_id a_indexed = Ok (VInt 1)) by reflexivity.
  assert (Hcall : a_batch_call
                  = (Raise (DuplicateKeyError ["a"] [VInt 1]),
                     (fst (snd a_batch_call), snd (snd a_batch_call))))
    by reflexivity.
  split; [repeat split; assumption|].
  exact (insert_many_mutates_caller_record [] 0 [1] a_records a_indexed
           a_records a_indexed (VInt 1) _ _ _ Hpre Hc Hnew Hcall).
Defined.

(** * Further properties of the code *)

(** ** Equality of hashable values *)
Section Equality.

Lemma eq_canonical a b :
  Py.hashable a = true -> (Py.eq a b = true <-> canonical a = canonical b).
Proof.
  destruct a as [|x|n|s|l|d]; try discriminate; intros _;
    destruct b as [|y|m|t|l'|d']; simpl;
    try (split; [discriminate | intros [=] ]);
    try (split; congruence).
  - destruct x, y; simpl; split; congruence.
  - rewrite Z.eqb_eq. split; congruence.
  - rewrite Z.eqb_eq. split; congruence.
  - rewrite Z.eqb_eq. split; congruence.
  - rewrite String.eqb_eq. split; congruence.
Qed.

Lemma eq_tuple_canonical t : forall u,
  forallb Py.hashable t = true ->
  (Py.eq_tuple t u = true <-> map canonical t = map canonical u).
Proof.
  induction t as [|a t IH]; intros [|b u]; simpl; intros Ht;
    try (split; congruence).
  apply andb_true_iff in Ht. destruct Ht as [Ha Ht].
  rewrite andb_true_iff, (eq_canonical a b Ha), (IH u Ht).
  split; [intros [-> ->]; reflexivity | intros [= -> ->]; auto].
Qed.

Lemma eq_tuple_refl t : forallb Py.hashable t = true -> Py.eq_tuple t t = true.
Proof. intros Ht. now apply eq_tuple_canonical. Qed.

(** A tuple that is not in the set differs from every tuple that is
    equal to one of the set. *)
Lemma eq_tuple_not_in_set t u (s : value_set) :
  forallb Py.hashable t = true -> forallb Py.hashable u = true ->
  existsb (Py.eq_tuple t) s = false ->
  existsb (Py.eq_tuple u) s = true ->
  Py.eq_tuple u t = false.
Proof.
  intros Ht Hu Hnot Hin.
  destruct (Py.eq_tuple u t) eqn:E; [|reflexivity].
  apply existsb_exists in Hin. destruct Hin as (x & Hx & Hux).
  apply (eq_tuple_canonical u _ Hu) in E, Hux.
  assert (Htx : Py.eq_tuple t x = true)
    by (apply (eq_tuple_canonical t _ Ht); congruence).
  assert (Hex : existsb (Py.eq_tuple t) s = true)
    by (apply existsb_exists; eauto).
  congruence.
Qed.

Lemma existsb_set_add t u (s : value_set) :
  existsb (Py.eq_tuple u) s = true ->
  existsb (Py.eq_tuple u) (Py.set_add s t) = true.
Proof.
  intros H. unfold Py.set_add. destruct (existsb (Py.eq_tuple t) s); [exact H|].
  rewrite existsb_app, H. reflexivity.
Qed.

Lemma existsb_set_add_same t (s : value_set) :
  forallb Py.hashable t = true ->
  existsb (Py.eq_tuple t) (Py.set_add s t) = true.
Proof.
  intros Ht. unfold Py.set_add.
  destruct (existsb (Py.eq_tuple t) s) eqn:E; [exact E|].
  rewrite existsb_app. simpl. rewrite (eq_tuple_refl t Ht).
  now rewrite orb_true_r.
Qed.

End Equality.

(** ** The dict of tracked indexes *)
Section Indexes.

Lemma index_eqb_eq i : forall j, index_eqb i j = true <-> i = j.
Proof.
  induction i as [|x i IH]; intros [|y j]; simpl; try (split; congruence).
  rewrite andb_true_iff, String.eqb_eq, IH.
  split; [intros [-> ->]; reflexivity | intros [= -> ->]; auto].
Qed.

Lemma index_eqb_refl i : index_eqb i i = true.
Proof. now apply index_eqb_eq. Qed.

Lemma get_set_index indexes index index' values :
  get_index (set_index indexes index values) index' =
  if index_eqb index index' then Some values else get_index indexes index'.
Proof.
  induction indexes as [|[i old] indexes IH]; simpl.
  - reflexivity.
  - destruct (index_eqb i index) eqn:E; simpl.
    + apply index_eqb_eq in E. subst i. now destruct (index_eqb index index').
    + rewrite IH. destruct (index_eqb i index') eqn:E'; [|reflexivity].
      apply index_eqb_eq in E'. subst i.
      destruct (index_eqb index index') eqn:E''; [|reflexivity].
      apply index_eqb_eq in E''. subst index'.
      now rewrite index_eqb_refl in E.
Qed.

End Indexes.

(** ** What an insertion does to the collection *)
Section InsertOutcome.

#[local] Arguments insert_one : simpl never.

Lemma tuple_in_set_Ok t (s : value_set) b :
  Py.tuple_in_set t s = Ok b <->
  forallb Py.hashable t = true /\ existsb (Py.eq_tuple t) s = b.
Proof.
  unfold Py.tuple_in_set. destruct (forallb Py.hashable t).
  - split; [intros [= <-]; auto | intros [_ <-]; reflexivity].
  - split; [discriminate | intros [? _]; discriminate].
Qed.

(** [_validate_index] returns exactly when the document passes every
    index of the list. *)
Lemma validate_indexes_Ok self document indexes :
  validate_indexes self document indexes = Ok tt <->
  Forall (passes_index self document) indexes.
Proof.
  induction indexes as [|index indexes IH]; simpl.
  - split; constructor.
  - split.
    + destruct (document_values_of document index) as [vs|] eqn:Ev; simpl;
        [|discriminate].
      destruct (get_index (_indexes self) index) as [tr|] eqn:Et; simpl;
        [|discriminate].
      destruct (Py.tuple_in_set vs tr) as [[|]|] eqn:Ei; simpl;
        try discriminate.
      intros H. constructor; [|now apply IH].
      now exists vs, tr.
    + intros H. inversion H as [|? ? (vs & tr & Ev & Et & Ei) H']; subst.
      rewrite Ev. simpl. rewrite Et. simpl. rewrite Ei. simpl. now apply IH.
Qed.

(** After [_validate_index], [_register_keys] cannot raise. *)
Lemma register_indexes_Ok document indexes :
  Forall (fun iv => exists vs,
            document_values_of document (fst iv) = Ok vs /\
            forallb Py.hashable vs = true) indexes ->
  register_indexes document indexes = (Ok tt, registered document indexes).
Proof.
  induction 1 as [|[index values] indexes (vs & Hvs & Hhash) _ IH]; simpl;
    [reflexivity|].
  simpl in Hvs. unfold values_or_nil. rewrite Hvs, Hhash.
  unfold registered in IH. now rewrite IH.
Qed.

Lemma get_index_registered document indexes index :
  get_index (registered document indexes) index =
  match get_index indexes index with
  | Some tracked => Some (Py.set_add tracked (values_or_nil document index))
  | None => None
  end.
Proof.
  induction indexes as [|[i values] indexes IH]; simpl; [reflexivity|].
  destruct (index_eqb i index) eqn:E; [|exact IH].
  apply index_eqb_eq in E. now subst i.
Qed.

Lemma passes_all_registers self document :
  Forall (passes_index self document) (map fst (_indexes self)) ->
  Forall (fun iv => exists vs,
            document_values_of document (fst iv) = Ok vs /\
            forallb Py.hashable vs = true) (_indexes self).
Proof.
  rewrite !Forall_forall. intros H iv Hiv.
  destruct (H (fst iv)) as (vs & tr & Hvs & _ & Hin); [now apply in_map|].
  apply tuple_in_set_Ok in Hin. exists vs. tauto.
Qed.

(** The outcome of one iteration of the loop of [insert_many] *)
Lemma insert_one_outcome l h self r h' self' :
  insert_one l (h, self) = (r, (h', self')) ->
  match r with
  | Raise e =>
      self' = self /\
      ((assign_id l h self = Raise e /\ h' = h) \/
       (assign_id l h self = Ok h' /\
        _validate_index self (new_document (h' l)) None = Raise e))
  | Ok _ =>
      assign_id l h self = Ok h' /\
      Forall (passes_index self (new_document (h' l)))
        (map fst (_indexes self)) /\
      self' = {| _documents := _documents self ++ [new_document (h' l)];
                 _indexes := registered (new_document (h' l)) (_indexes self) |}
  end.
Proof.
  unfold insert_one.
  destruct (assign_id l h self) as [h2|e] eqn:Ea.
  - destruct (_validate_index self (new_document (h2 l)) None) as [[]|e] eqn:Ev.
    + pose proof Ev as Hpass. unfold _validate_index in Hpass.
      apply validate_indexes_Ok in Hpass.
      unfold _register_keys. cbn [_indexes _documents].
      rewrite (register_indexes_Ok _ _ (passes_all_registers _ _ Hpass)).
      intros [= <- <- <-]. auto.
    + intros [= <- <- <-]. auto.
  - intros [= <- <- <-]. auto.
Qed.

End InsertOutcome.

(** X1.  When [insert_many] raises, the collection it leaves, documents
    and tracked value-sets, is the one reached by inserting the records
    [pre] that come before the failing record [l]: the failing record is
    neither appended nor registered in any index.  The error is the one
    of [_get_new_id] or of [_validate_index] on that record;
    [_register_keys] never raises. *)
Theorem insert_many_failure_leaves_no_trace
    (documents : list loc) (h : heap) (self : EphemeralCollection)
    (e : exn) (h' : heap) (self' : EphemeralCollection) :
  insert_many documents (h, self) = (Raise e, (h', self')) ->
  exists pre l post h1,
    documents = pre ++ l :: post /\
    insert_loop pre (h, self) = (Ok tt, (h1, self')) /\
    ((assign_id l h1 self' = Raise e /\ h' = h1) \/
     (assign_id l h1 self' = Ok h' /\
      _validate_index self' (new_document (h' l)) None = Raise e)).
Proof.
  unfold insert_many.
  destruct (insert_loop documents (h, self)) as [[u|e0] st] eqn:Eloop;
    [discriminate|].
  intros [= -> ->]. revert h self Eloop.
  induction documents as [|l documents IH]; intros h self; cbn [insert_loop];
    [discriminate|].
  destruct (insert_one l (h, self)) as [[[]|e1] [h2 self2]] eqn:E1.
  - intros Hloop.
    destruct (IH _ _ Hloop) as (pre & l0 & post & h1 & -> & Hpre & Hfail).
    exists (l :: pre), l0, post, h1. cbn [insert_loop app].
    now rewrite E1.
  - intros [= -> -> ->].
    apply insert_one_outcome in E1. destruct E1 as [-> Hfail].
    exists [], l, documents, h. auto.
Qed.

Lemma insert_many_failure_leaves_no_trace_witness :
  a_batch_call = (Raise (DuplicateKeyError ["a"] [VInt 1]),
                  (fst (snd a_batch_call), snd (snd a_batch_call))) /\
  exists pre l post h1,
    [0; 1] = pre ++ l :: post /\
    insert_loop pre (a_records, a_indexed)
      = (Ok tt, (h1, snd (snd a_batch_call))) /\
    ((assign_id l h1 (snd (snd a_batch_call))
        = Raise (DuplicateKeyError ["a"] [VInt 1]) /\
      fst (snd a_batch_call) = h1) \/
     (assign_id l h1 (snd (snd a_batch_call)) = Ok (fst (snd a_batch_call)) /\
      _validate_index (snd (snd a_batch_call))
        (new_document (fst (snd a_batch_call) l)) None
        = Raise (DuplicateKeyError ["a"] [VInt 1]))).
Proof.
  assert (Hcall : insert_many [0; 1] (a_records, a_indexed)
                  = (Raise (DuplicateKeyError ["a"] [VInt 1]),
                     (fst (snd a_batch_call), snd (snd a_batch_call))))
    by reflexivity.
  split; [exact Hcall|].
  exact (insert_many_failure_leaves_no_trace _ _ _ _ _ _ Hcall).
Defined.

(** ** Unique indexes as an invariant of the collection *)
Section UniqueIndex.

#[local] Arguments insert_one : simpl never.

Lemma ForallOrdPairs_snoc {A : Type} (R : A -> A -> Prop) l x :
  ForallOrdPairs R l -> Forall (fun y => R y x) l ->
  ForallOrdPairs R (l ++ [x]).
Proof.
  induction 1 as [|a l Ha _ IH]; intros Hx; simpl.
  - constructor; constructor.
  - inversion Hx; subst. constructor; [|auto].
    apply Forall_app. split; [assumption | now constructor].
Qed.

Lemma ForallOrdPairs_filter {A : Type} (R : A -> A -> Prop) f l :
  ForallOrdPairs R l -> ForallOrdPairs R (filter f l).
Proof.
  induction 1 as [|a l Ha _ IH]; simpl; [constructor|].
  destruct (f a); [|assumption].
  constructor; [|assumption].
  rewrite Forall_forall in *. intros y Hy. apply filter_In in Hy. now apply Ha.
Qed.

Lemma covered_by_set_add index tracked t document :
  covered_by index tracked document ->
  covered_by index (Py.set_add tracked t) document.
Proof.
  intros (vs & Hvs & Hhash & Hin). exists vs.
  auto using existsb_set_add.
Qed.

(** A document whose tuple is hashable and not in the value-set can join
    documents that the index covers and tells apart. *)
Lemma unique_index_step index tracked done document vs :
  Forall (covered_by index tracked) done ->
  ForallOrdPairs (differ_on index) done ->
  document_values_of document index = Ok vs ->
  forallb Py.hashable vs = true ->
  existsb (Py.eq_tuple vs) tracked = false ->
  Forall (covered_by index (Py.set_add tracked vs)) (done ++ [document]) /\
  ForallOrdPairs (differ_on index) (done ++ [document]).
Proof.
  intros Hcov Hdiff Hvs Hhash Hnot. split.
  - apply Forall_app. split.
    + eapply Forall_impl; [|exact Hcov].
      intros d. apply covered_by_set_add.
    + constructor; [|constructor].
      exists vs. auto using existsb_set_add_same.
  - apply ForallOrdPairs_snoc; [assumption|].
    eapply Forall_impl; [|exact Hcov].
    intros d (vd & Hvd & Hhd & Hind) v1 v2 H1 H2.
    assert (v1 = vd) by congruence. assert (v2 = vs) by congruence. subst.
    eapply eq_tuple_not_in_set; eassumption.
Qed.

Lemma unique_index_append self index document :
  unique_index_holds self index ->
  Forall (passes_index self document) (map fst (_indexes self)) ->
  unique_index_holds
    {| _documents := _documents self ++ [document];
       _indexes := registered document (_indexes self) |} index.
Proof.
  intros (tracked & Htr & Hcov & Hdiff) Hpass.
  assert (Hin : In index (map fst (_indexes self))).
  { clear - Htr. induction (_indexes self) as [|[i vals] idx IH];
      simpl in *; [discriminate|].
    destruct (index_eqb i index) eqn:E; [|auto].
    left. now apply index_eqb_eq. }
  rewrite Forall_forall in Hpass.
  destruct (Hpass index Hin) as (vs & tr & Hvs & Htr' & Hnot).
  assert (tr = tracked) by congruence. subst tr.
  apply tuple_in_set_Ok in Hnot. destruct Hnot as [Hhash Hnot].
  exists (Py.set_add tracked vs). cbn [_indexes _documents].
  rewrite get_index_registered, Htr. unfold values_or_nil. rewrite Hvs.
  split; [reflexivity|].
  now apply unique_index_step.
Qed.

Lemma insert_loop_keeps_unique index documents : forall h self r h' self',
  unique_index_holds self index ->
  insert_loop documents (h, self) = (r, (h', self')) ->
  unique_index_holds self' index.
Proof.
  induction documents as [|l documents IH]; intros h self r h' self' Hinv;
    cbn [insert_loop].
  - now intros [= _ _ <-].
  - destruct (insert_one l (h, self)) as [[[]|e] [h1 self1]] eqn:E1;
      apply insert_one_outcome in E1.
    + destruct E1 as (_ & Hpass & ->).
      apply IH. now apply unique_index_append.
    + destruct E1 as [-> _]. now intros [= _ _ <-].
Qed.

Lemma delete_loop_returns query documents : forall deleted retained result,
  delete_loop documents query deleted retained = Ok result ->
  Forall (match_returns query) documents.
Proof.
  induction documents as [|d documents IH]; intros deleted retained result;
    simpl; [constructor|].
  destruct (match_ d query) as [b|] eqn:E; simpl; [|discriminate].
  intros H. constructor; [now exists b|].
  destruct b; simpl in H; eauto.
Qed.

Lemma delete_many_keeps_unique index query self r self' :
  unique_index_holds self index ->
  delete_many query self = (r, self') ->
  unique_index_holds self' index.
Proof.
  intros (tracked & Htr & Hcov & Hdiff). unfold delete_many.
  destruct (delete_loop (_documents self) query 0 []) as [[n ret]|e] eqn:E.
  - pose proof (delete_loop_returns _ _ _ _ _ E) as Hret.
    rewrite (delete_loop_Ok query _ 0 [] Hret) in E.
    injection E as _ <-. intros [= _ <-].
    exists tracked. cbn [_indexes _documents app].
    split; [assumption|]. split.
    + rewrite Forall_forall in *. intros d Hd. apply filter_In in Hd.
      now apply Hcov.
    + now apply ForallOrdPairs_filter.
  - intros [= _ <-]. now exists tracked.
Qed.

(** The loop of [create_index] only touches the value-set of [keys],
    which stays tracked. *)
Lemma create_index_loop_frame keys documents : forall self r self',
  create_index_loop keys documents self = (r, self') ->
  _documents self' = _documents self /\
  (forall index, index <> keys ->
     get_index (_indexes self') index = get_index (_indexes self) index) /\
  (get_index (_indexes self) keys <> None ->
   get_index (_indexes self') keys <> None).
Proof.
  induction documents as [|d documents IH]; intros self r self';
    cbn [create_index_loop _validate_index].
  - intros [= _ <-]. auto.
  - destruct (validate_indexes self d [keys]); [|intros [= _ <-]; auto].
    destruct (document_values_of d keys) as [vs|]; [|intros [= _ <-]; auto].
    destruct (get_index (_indexes self) keys) as [tr|] eqn:Etr;
      [|intros [= _ <-]; auto].
    intros Hloop. destruct (IH _ _ _ Hloop) as (Hdocs & Hother & Hkeys).
    cbn [_documents _indexes] in *.
    split; [assumption|]. split.
    + intros index Hne. rewrite (Hother index Hne), get_set_index.
      destruct (index_eqb keys index) eqn:E; [|reflexivity].
      apply index_eqb_eq in E. congruence.
    + intros _. apply Hkeys. rewrite get_set_index, index_eqb_refl.
      discriminate.
Qed.

Lemma create_index_loop_unique keys documents : forall self self' done tracked,
  get_index (_indexes self) keys = Some tracked ->
  Forall (covered_by keys tracked) done ->
  ForallOrdPairs (differ_on keys) done ->
  create_index_loop keys documents self = (Ok tt, self') ->
  exists tracked',
    get_index (_indexes self') keys = Some tracked' /\
    Forall (covered_by keys tracked') (done ++ documents) /\
    ForallOrdPairs (differ_on keys) (done ++ documents).
Proof.
  induction documents as [|d documents IH];
    intros self self' done tracked Htr Hcov Hdiff;
    cbn [create_index_loop _validate_index].
  - intros [= <-]. exists tracked. now rewrite app_nil_r.
  - destruct (validate_indexes self d [keys]) as [[]|] eqn:Ev;
      [|discriminate].
    apply validate_indexes_Ok in Ev.
    inversion Ev as [|? ? (vs & tr & Hvs & Htr' & Hnot) _]; subst.
    assert (tr = tracked) by congruence. subst tr.
    apply tuple_in_set_Ok in Hnot. destruct Hnot as [Hhash Hnot].
    rewrite Hvs, Htr. intros Hloop.
    destruct (unique_index_step keys tracked done d vs Hcov Hdiff Hvs Hhash Hnot)
      as [Hcov' Hdiff'].
    assert (Htr2 : get_index
                     (_indexes
                        {| _documents := _documents self;
                           _indexes := set_index (_indexes self) keys
                                         (Py.set_add tracked vs) |}) keys
                   = Some (Py.set_add tracked vs)).
    { cbn [_indexes]. now rewrite get_set_index, index_eqb_refl. }
    destruct (IH _ _ (done ++ [d]) _ Htr2 Hcov' Hdiff' Hloop)
      as (tracked' & H1 & H2 & H3).
    exists tracked'. now rewrite <- !app_assoc in *.
Qed.

(** The scan of [create_index] that raises: the value-set holds the
    tuples of the documents scanned before the failing one. *)
Lemma create_index_loop_raise keys documents :
  forall self self' done tracked e,
  get_index (_indexes self) keys = Some tracked ->
  Forall2 (fun document t => document_values_of document keys = Ok t)
    done tracked ->
  create_index_loop keys documents self = (Raise e, self') ->
  exists pre failing post tracked',
    documents = pre ++ failing :: post /\
    get_index (_indexes self') keys = Some tracked' /\
    Forall2 (fun document t => document_values_of document keys = Ok t)
      (done ++ pre) tracked' /\
    _validate_index self' failing (Some [keys]) = Raise e.
Proof.
  induction documents as [|d documents IH];
    intros self self' done tracked e Htr Hdone;
    cbn [create_index_loop _validate_index]; [discriminate|].
  destruct (validate_indexes self d [keys]) as [[]|e'] eqn:Ev.
  - apply validate_indexes_Ok in Ev.
    inversion Ev as [|? ? (vs & tr & Hvs & Htr' & Hnot) _]; subst.
    assert (tr = tracked) by congruence. subst tr.
    apply tuple_in_set_Ok in Hnot. destruct Hnot as [Hhash Hnot].
    rewrite Hvs, Htr. unfold Py.set_add. rewrite Hnot. intros Hloop.
    assert (Htr2 : get_index
                     (_indexes
                        {| _documents := _documents self;
                           _indexes := set_index (_indexes self) keys
                                         (tracked ++ [vs]) |}) keys
                   = Some (tracked ++ [vs])).
    { cbn [_indexes]. now rewrite get_set_index, index_eqb_refl. }
    assert (Hdone2 : Forall2
                       (fun document t => document_values_of document keys = Ok t)
                       (done ++ [d]) (tracked ++ [vs])).
    { apply Forall2_app; [assumption|]. now repeat constructor. }
    destruct (IH _ _ _ _ _ Htr2 Hdone2 Hloop)
      as (pre & failing & post & tracked' & Hdocs & Htr3 & Hpre & Hfail).
    exists (d :: pre), failing, post, tracked'.
    rewrite <- app_assoc in Hpre. subst documents. auto.
  - intros [= <- <-]. exists [], d, documents, tracked.
    rewrite app_nil_r. auto.
Qed.

Lemma create_index_keeps_unique index keys unique self r self' :
  unique_index_holds self index ->
  create_index keys unique self = (r, self') ->
  unique_index_holds self' index.
Proof.
  intros (tracked & Htr & Hcov & Hdiff). unfold create_index.
  set (names := map fst match keys with
                        | SingleKey key => [(key, VNone)]
                        | KeyList keys0 => keys0
                        end).
  destruct (get_index (_indexes self) names) as [tr|] eqn:Enames;
    [rewrite andb_false_r | destruct unique; cbn [andb negb]];
    try (intros [= _ <-]; now exists tracked).
  intros Hloop. apply create_index_loop_frame in Hloop.
  destruct Hloop as (Hdocs & Hother & _). cbn [_documents _indexes] in *.
  assert (Hne : index <> names) by congruence.
  exists tracked. rewrite Hdocs, (Hother index Hne), get_set_index.
  destruct (index_eqb names index) eqn:E; [|auto].
  apply index_eqb_eq in E. congruence.
Qed.

End UniqueIndex.

(** X2.  [insert_many] keeps every unique index that holds: if all the
    documents have hashable value tuples for a tracked index, registered
    in its value-set and pairwise different, the same is true after the
    call, whether it returns or raises. *)
Theorem insert_many_keeps_unique_index
    (index : index_key) (documents : list loc) (h : heap)
    (self : EphemeralCollection) (r : Res nat) (h' : heap)
    (self' : EphemeralCollection) :
  unique_index_holds self index ->
  insert_many documents (h, self) = (r, (h', self')) ->
  unique_index_holds self' index.
Proof.
  intros Hinv. unfold insert_many.
  destruct (insert_loop documents (h, self)) as [[u|e] [h1 self1]] eqn:Eloop;
    intros [= _ _ <-];
    eapply insert_loop_keeps_unique; eassumption.
Qed.

Lemma insert_many_keeps_unique_index_witness :
  unique_index_holds a_indexed ["a"] /\
  a_batch_call = (fst a_batch_call,
                  (fst (snd a_batch_call), snd (snd a_batch_call))) /\
  unique_index_holds (snd (snd a_batch_call)) ["a"].
Proof.
  assert (Hinv : unique_index_holds a_indexed ["a"]).
  { exists []. split; [reflexivity|]. split; constructor. }
  assert (Hcall : insert_many [0; 1] (a_records, a_indexed)
                  = (fst a_batch_call,
                     (fst (snd a_batch_call), snd (snd a_batch_call))))
    by reflexivity.
  split; [exact Hinv|]. split; [exact Hcall|].
  exact (insert_many_keeps_unique_index ["a"] [0; 1] a_records a_indexed
           _ _ _ Hinv Hcall).
Defined.

(** X3.  When [create_index(keys, unique=True)] returns for an index that
    was not tracked, the index holds on the collection: every document
    has a hashable value tuple for the keys, the tuples are in the new
    value-set and they are pairwise different.  The documents are
    unchanged and so are the other indexes. *)
Theorem create_index_establishes_unique_index
    (keys : index_spec) (self self' : EphemeralCollection) :
  get_index (_indexes self) (index_name keys) = None ->
  create_index keys true self = (Ok tt, self') ->
  unique_index_holds self' (index_name keys) /\
  _documents self' = _documents self /\
  (forall index, index <> index_name keys ->
     get_index (_indexes self') index = get_index (_indexes self) index).
Proof.
  intros Hnew. unfold create_index. fold (index_name keys).
  rewrite Hnew. cbn [andb negb]. intros Hloop.
  destruct (create_index_loop_frame _ _ _ _ _ Hloop) as (Hdocs & Hother & _).
  cbn [_documents _indexes] in Hdocs, Hother.
  split; [|split; [exact Hdocs|]].
  - assert (Htr0 : get_index
                     (_indexes
                        {| _documents := _documents self;
                           _indexes := set_index (_indexes self)
                                         (index_name keys) [] |})
                     (index_name keys) = Some []).
    { cbn [_indexes]. now rewrite get_set_index, index_eqb_refl. }
    destruct (create_index_loop_unique _ _ _ self' [] [] Htr0
                (Forall_nil _) (FOP_nil _) Hloop)
      as (tracked & Htr & Hcov & Hdiff).
    exists tracked. rewrite Hdocs. auto.
  - intros index Hne. rewrite (Hother index Hne), get_set_index.
    destruct (index_eqb (index_name keys) index) eqn:E; [|reflexivity].
    apply index_eqb_eq in E. congruence.
Qed.

Lemma create_index_establishes_unique_index_witness :
  (get_index (_indexes distinct_a) (index_name (SingleKey "a")) = None /\
   create_index (SingleKey "a") true distinct_a
     = (Ok tt, snd (create_index (SingleKey "a") true distinct_a))) /\
  unique_index_holds (snd (create_index (SingleKey "a") true distinct_a))
    (index_name (SingleKey "a")) /\
  _documents (snd (create_index (SingleKey "a") true distinct_a))
    = _documents distinct_a /\
  (forall index, index <> index_name (SingleKey "a") ->
     get_index (_indexes (snd (create_index (SingleKey "a") true distinct_a)))
       index = get_index (_indexes distinct_a) index).
Proof.
  assert (Hnew : get_index (_indexes distinct_a) (index_name (SingleKey "a"))
                 = None) by reflexivity.
  assert (Hcall : create_index (SingleKey "a") true distinct_a
                  = (Ok tt, snd (create_index (SingleKey "a") true distinct_a)))
    by reflexivity.
  split; [split; assumption|].
  exact (create_index_establishes_unique_index (SingleKey "a") distinct_a _
           Hnew Hcall).
Defined.

(** X4.  A call of [create_index(keys, unique=True)] that raises leaves
    the index tracked, with the value-set built so far: the set holds
    the value tuples of the documents [pre] scanned before the document
    [failing] on which [_validate_index] raised, one for each of them,
    and nothing else; the documents and the other indexes are
    unchanged.
    Every later call of [create_index] for the same keys then returns
    without scanning the documents and leaves the collection as it is,
    so that the duplicate is never reported again. *)
Theorem create_index_retry_is_silent
    (keys : index_spec) (self self' : EphemeralCollection) (e : exn) :
  create_index keys true self = (Raise e, self') ->
  (exists pre failing post tracked,
     _documents self = pre ++ failing :: post /\
     get_index (_indexes self') (index_name keys) = Some tracked /\
     Forall2 (fun document t =>
                document_values_of document (index_name keys) = Ok t)
       pre tracked /\
     _validate_index self' failing (Some [index_name keys]) = Raise e) /\
  _documents self' = _documents self /\
  (forall index, index <> index_name keys ->
     get_index (_indexes self') index = get_index (_indexes self) index) /\
  forall unique, create_index keys unique self' = (Ok tt, self').
Proof.
  unfold create_index. fold (index_name keys).
  destruct (get_index (_indexes self) (index_name keys)) eqn:Etracked;
    cbn [andb negb]; [discriminate|].
  intros Hloop.
  assert (Hnew : get_index
                   (_indexes
                      {| _documents := _documents self;
                         _indexes := set_index (_indexes self)
                                       (index_name keys) [] |})
                   (index_name keys) = Some []).
  { cbn [_indexes]. now rewrite get_set_index, index_eqb_refl. }
  destruct (create_index_loop_raise _ _ _ _ [] _ _ Hnew (Forall2_nil _) Hloop)
    as (pre & failing & post & tracked & Hdocs & Htr & Hpre & Hfail).
  apply create_index_loop_frame in Hloop.
  destruct Hloop as (Hsame & Hother & _). cbn [_documents _indexes] in *.
  split; [now exists pre, failing, post, tracked|].
  split; [exact Hsame|]. split.
  - intros index Hne. rewrite (Hother index Hne), get_set_index.
    destruct (index_eqb (index_name keys) index) eqn:E; [|reflexivity].
    apply index_eqb_eq in E. congruence.
  - intros unique. rewrite Htr. now rewrite andb_false_r.
Qed.

Lemma create_index_retry_is_silent_witness :
  (create_index (SingleKey "a") true duplicate_a
     = (Raise (DuplicateKeyError ["a"] [VInt 1]),
        snd (create_index (SingleKey "a") true duplicate_a)) /\
   get_index (_indexes (snd (create_index (SingleKey "a") true duplicate_a)))
     ["a"] = Some [[VInt 1]; [VInt 2]]) /\
  (exists pre failing post tracked,
     _documents duplicate_a = pre ++ failing :: post /\
     get_index (_indexes (snd (create_index (SingleKey "a") true duplicate_a)))
       (index_name (SingleKey "a")) = Some tracked /\
     Forall2 (fun document t =>
                document_values_of document (index_name (SingleKey "a")) = Ok t)
       pre tracked /\
     _validate_index (snd (create_index (SingleKey "a") true duplicate_a))
       failing (Some [index_name (SingleKey "a")])
     = Raise (DuplicateKeyError ["a"] [VInt 1])) /\
  _documents (snd (create_index (SingleKey "a") true duplicate_a))
    = _documents duplicate_a /\
  (forall index, index <> index_name (SingleKey "a") ->
     get_index (_indexes (snd (create_index (SingleKey "a") true duplicate_a)))
       index = get_index (_indexes duplicate_a) index) /\
  forall unique,
    create_index (SingleKey "a") unique
      (snd (create_index (SingleKey "a") true duplicate_a))
    = (Ok tt, snd (create_index (SingleKey "a") true duplicate_a)).
Proof.
  assert (Hcall : create_index (SingleKey "a") true duplicate_a
                  = (Raise (DuplicateKeyError ["a"] [VInt 1]),
                     snd (create_index (SingleKey "a") true duplicate_a)))
    by reflexivity.
  split; [split; [exact Hcall | reflexivity]|].
  exact (create_index_retry_is_silent (SingleKey "a") duplicate_a _ _ Hcall).
Defined.

Lemma id_tuple document vs :
  document_values_of document ["_id"] = Ok vs <->
  exists v, id_of document = Some v /\ vs = [v].
Proof.
  unfold id_of. simpl. unfold doc_getitem, Py.getitem.
  destruct (Py.get (_data document) "_id") as [v|]; simpl.
  - split; [intros [= <-]; eauto | intros (v' & [= <-] & ->); reflexivity].
  - split; [discriminate | intros (v' & [=] & _)].
Qed.

(** X5.  In a collection reached from a fresh one by calls of
    [insert_many], [delete_many] and [create_index] (with [find] and
    [count] in between, which change no [_id]), whatever their arguments
    and whether they return or raise, every document has a hashable
    [_id] and no two documents have equal [_id]s.  ([update_many] and
    [drop] are left out: the first can write the same [_id] in several
    documents, the second removes the index of [_id].) *)
Theorem guarded_ids_distinct (self : EphemeralCollection) :
  guarded self ->
  Forall (fun d => exists v, id_of d = Some v /\ Py.hashable v = true)
    (_documents self) /\
  ForallOrdPairs ids_differ (_documents self).
Proof.
  intros Hg.
  assert (Hinv : unique_index_holds self ["_id"]).
  { induction Hg as [|self self' _ IH Hcall].
    - exists []. split; [reflexivity|]. split; constructor.
    - destruct Hcall as [documents h self r h' self' Hcall
                        | query self r self' Hcall
                        | keys unique self r self' Hcall].
      + revert Hcall. unfold insert_many.
        destruct (insert_loop documents (h, self)) as [[u|e] [h1 self1]] eqn:E;
          intros [= _ _ <-]; eapply insert_loop_keeps_unique; eassumption.
      + eapply delete_many_keeps_unique; eassumption.
      + eapply create_index_keeps_unique; eassumption. }
  destruct Hinv as (tracked & _ & Hcov & Hdiff). split.
  - eapply Forall_impl; [|exact Hcov].
    intros d (vs & Hvs & Hhash & _).
    apply id_tuple in Hvs. destruct Hvs as (v & Hv & ->).
    exists v. simpl in Hhash. rewrite andb_true_r in Hhash. auto.
  - clear Hcov. induction Hdiff as [|d ds Hd _ IH]; constructor; [|exact IH].
    eapply Forall_impl; [|exact Hd].
    intros d' Hdd' v v' Hv Hv'.
    specialize (Hdd' [v] [v']). simpl in Hdd'. rewrite andb_true_r in Hdd'.
    apply Hdd'; apply id_tuple; eauto.
Qed.

Lemma guarded_ids_distinct_witness :
  guarded x_collection /\
  Forall (fun d => exists v, id_of d = Some v /\ Py.hashable v = true)
    (_documents x_collection) /\
  ForallOrdPairs ids_differ (_documents x_collection).
Proof.
  assert (Hg : guarded x_collection).
  { apply (guarded_step new_collection); [constructor|].
    apply (call_insert_many [0; 1; 2] x_records new_collection
             (Ok 3) (fst (snd (insert_many [0; 1; 2]
                                 (x_records, new_collection))))).
    reflexivity. }
  split; [exact Hg|].
  exact (guarded_ids_distinct x_collection Hg).
Defined.

(** ** [update] and [update_many] *)
Section Update.

Variable query : option pydict.

Lemma update_Ok self data d :
  update_payload data = Some d -> update self data = Ok (updated_with d self).
Proof.
  unfold update_payload, update.
  destruct (match Py.get data "$set" with Some v => v | None => VDict data end);
    try discriminate.
  now intros [= ->].
Qed.

Lemma update_raise self data :
  update_payload data = None -> update self data = Raise AttributeError.
Proof.
  unfold update_payload, update.
  now destruct (match Py.get data "$set" with Some v => v | None => VDict data end).
Qed.

Lemma update_fields_kept self data self' :
  update self data = Ok self' -> fields_kept self self'.
Proof.
  destruct (update_payload data) as [d|] eqn:E.
  - rewrite (update_Ok _ _ _ E). intros [= <-] k. unfold Py.contains.
    cbn [updated_with _data]. rewrite get_update.
    now destruct (Py.get (_flatten d) k).
  - now rewrite (update_raise _ _ E).
Qed.

Lemma update_loop_Ok upd d documents : forall updates,
  update_payload upd = Some d ->
  Forall (match_returns query) documents ->
  update_loop documents query upd updates =
  (Ok (updates + List.length (filter (matches query) documents)),
   map (fun document =>
          if matches query document then updated_with d document else document)
     documents).
Proof.
  intros updates Hd Hret. revert updates.
  induction Hret as [|document documents [b Hb] _ IH]; intros updates;
    cbn [update_loop filter map List.length].
  - now rewrite Nat.add_0_r.
  - assert (Hm : matches query document = b)
      by (unfold matches; rewrite Hb; now destruct b).
    rewrite Hm, Hb. destruct b.
    + rewrite (update_Ok _ _ _ Hd), IH. cbn [List.length].
      now rewrite Nat.add_succ_r.
    + now rewrite IH.
Qed.

Lemma update_loop_keeps upd documents : forall updates r documents',
  update_loop documents query upd updates = (r, documents') ->
  Forall2 fields_kept documents documents'.
Proof.
  assert (Hrefl : forall l, Forall2 fields_kept l l).
  { induction l; constructor; [intros k Hk; exact Hk | assumption]. }
  induction documents as [|document documents IH]; intros updates r documents';
    cbn [update_loop].
  - intros [= _ <-]. constructor.
  - destruct (match_ document query) as [[|]|e].
    + destruct (update document upd) as [document'|e] eqn:Eu.
      * destruct (update_loop documents query upd (S updates))
          as [r' rest] eqn:El.
        intros [= _ <-]. constructor; eauto using update_fields_kept.
      * intros [= _ <-]. apply Hrefl.
    + destruct (update_loop documents query upd updates) as [r' rest] eqn:El.
      intros [= _ <-]. constructor; [intros k Hk; exact Hk | eauto].
    + intros [= _ <-]. apply Hrefl.
Qed.

End Update.

(** X6.  When [match] returns on every document and the update document
    carries a record [d] (itself, or the record under its key ["$set"]),
    [update_many] returns the number of documents that match, merges the
    flattened [d] into each of them ([dict.update]: new keys are added,
    values of existing keys replaced), and leaves the other documents,
    the order of the documents and the tracked value-sets as they
    were. *)
Theorem update_many_spec
    (query : option pydict) (upd d : pydict) (self : EphemeralCollection) :
  update_payload upd = Some d ->
  Forall (match_returns query) (_documents self) ->
  update_many query upd self =
    (Ok (List.length (filter (matches query) (_documents self))),
     {| _documents :=
          map (fun document =>
                 if matches query document then updated_with d document
                 else document) (_documents self);
        _indexes := _indexes self |}) /\
  forall document k,
    Py.get (_data (updated_with d document)) k =
    match Py.get (_flatten d) k with
    | Some v => Some v
    | None => Py.get (_data document) k
    end.
Proof.
  intros Hd Hret. split.
  - unfold update_many. now rewrite (update_loop_Ok query upd d _ 0 Hd Hret).
  - intros document k. cbn [updated_with _data]. apply get_update.
Qed.

Lemma update_many_spec_witness :
  (update_payload (Py.dict_of [("$set", VDict set_b_9)]) = Some set_b_9 /\
   Forall (match_returns x_gte_5) (_documents x_collection)) /\
  update_many x_gte_5 (Py.dict_of [("$set", VDict set_b_9)]) x_collection =
    (Ok (List.length (filter (matches x_gte_5) (_documents x_collection))),
     {| _documents :=
          map (fun document =>
                 if matches x_gte_5 document then updated_with set_b_9 document
                 else document) (_documents x_collection);
        _indexes := _indexes x_collection |}) /\
  forall document k,
    Py.get (_data (updated_with set_b_9 document)) k =
    match Py.get (_flatten set_b_9) k with
    | Some v => Some v
    | None => Py.get (_data document) k
    end.
Proof.
  assert (Hd : update_payload (Py.dict_of [("$set", VDict set_b_9)])
               = Some set_b_9) by reflexivity.
  assert (Hret : Forall (match_returns x_gte_5) (_documents x_collection)).
  { repeat (apply Forall_cons; [eexists; reflexivity|]). apply Forall_nil. }
  split; [split; assumption|].
  exact (update_many_spec x_gte_5 _ set_b_9 x_collection Hd Hret).
Defined.

(** X7.  Whatever its arguments and its outcome, [update_many] never
    removes a document or a field and never touches the tracked
    value-sets: the documents after the call correspond one to one, in
    order, to the documents before, each with at least the fields it
    had.  (So a value-set is never brought up to date with the values
    an update writes.) *)
Theorem update_many_never_removes
    (query : option pydict) (upd : pydict) (self : EphemeralCollection)
    (r : Res nat) (self' : EphemeralCollection) :
  update_many query upd self = (r, self') ->
  Forall2 fields_kept (_documents self) (_documents self') /\
  _indexes self' = _indexes self.
Proof.
  unfold update_many.
  destruct (update_loop (_documents self) query upd 0) as [r' documents'] eqn:E.
  intros [= _ <-]. cbn [_documents _indexes].
  split; [|reflexivity].
  eapply update_loop_keeps; eassumption.
Qed.

Lemma update_many_never_removes_witness :
  update_many x_gte_5_then_foo set_b_9 x_collection =
    (Raise (ValueError (UnsupportedOperator "$foo")),
     snd (update_many x_gte_5_then_foo set_b_9 x_collection)) /\
  Forall2 fields_kept (_documents x_collection)
    (_documents (snd (update_many x_gte_5_then_foo set_b_9 x_collection))) /\
  _indexes (snd (update_many x_gte_5_then_foo set_b_9 x_collection))
    = _indexes x_collection.
Proof.
  assert (Hcall : update_many x_gte_5_then_foo set_b_9 x_collection =
                  (Raise (ValueError (UnsupportedOperator "$foo")),
                   snd (update_many x_gte_5_then_foo set_b_9 x_collection)))
    by reflexivity.
  split; [exact Hcall|].
  exact (update_many_never_removes _ _ _ _ _ Hcall).
Defined.

(** ** [match] and the operators *)
Section Match.

Lemma split_app a b :
  Py.split dot (a ++ String dot b) = Py.split dot a ++ Py.split dot b.
Proof.
  induction a as [|c a IH]; simpl.
  - reflexivity.
  - destruct (Ascii.eqb c dot).
    + now rewrite IH.
    + rewrite IH. pose proof (split_nonempty dot a) as Hne.
      now destruct (Py.split dot a).
Qed.

Lemma split_no_dot s : has_dot s = false -> Py.split dot s = [s].
Proof.
  induction s as [|c s IH]; simpl; [reflexivity|].
  intros H. apply orb_false_iff in H. destruct H as [Hc Hs].
  now rewrite Hc, (IH Hs).
Qed.

Lemma join_split s : Py.join "." (Py.split dot s) = s.
Proof.
  unfold Py.join. induction s as [|c s IH]; [reflexivity|].
  cbn [Py.split]. pose proof (split_nonempty dot s) as Hne.
  destruct (Ascii.eqb c dot) eqn:Ec.
  - apply Ascii.eqb_eq in Ec. subst c.
    destruct (Py.split dot s) as [|p ps]; [contradiction|].
    cbn [String.concat] in *. now rewrite IH.
  - destruct (Py.split dot s) as [|p ps]; [contradiction|].
    destruct ps; cbn [String.concat] in *; now rewrite <- IH.
Qed.

(** The parts of [field.name], for a [name] without "." *)
Lemma operator_key_parts field name :
  has_dot name = false ->
  List.last (Py.split dot (operator_key field name)) "" = name /\
  Py.join "." (removelast (Py.split dot (operator_key field name))) = field.
Proof.
  intros Hname. unfold operator_key.
  change (field ++ "." ++ name)%string with (field ++ String dot name)%string.
  rewrite split_app, (split_no_dot _ Hname). split.
  - apply last_last.
  - rewrite removelast_last. apply join_split.
Qed.

Lemma match_items_true self l :
  match_items self l = Ok true <->
  Forall (fun kv => match_key self (fst kv) (snd kv) = Ok true) l.
Proof.
  induction l as [|[key v] l IH]; simpl.
  - split; [constructor | reflexivity].
  - destruct (match_key self key v) as [[|]|e] eqn:E; simpl.
    + rewrite IH. split; [now constructor | now inversion 1].
    + split; [discriminate | inversion 1; simpl in *; congruence].
    + split; [discriminate | inversion 1; simpl in *; congruence].
Qed.

Lemma match_items_false self l :
  match_items self l = Ok false <->
  exists before kv after,
    l = before ++ kv :: after /\
    Forall (fun kv => match_key self (fst kv) (snd kv) = Ok true) before /\
    match_key self (fst kv) (snd kv) = Ok false.
Proof.
  induction l as [|[key v] l IH]; simpl.
  - split; [discriminate|]. intros (before & kv & after & H & _).
    now destruct before.
  - destruct (match_key self key v) as [[|]|e] eqn:E; simpl.
    + rewrite IH. split.
      * intros (before & kv & after & -> & Hb & Hkv).
        exists ((key, v) :: before), kv, after. repeat split; auto.
      * intros (before & kv & after & Hl & Hb & Hkv).
        destruct before as [|kv0 before]; simpl in Hl;
          injection Hl as <- ->; [simpl in Hkv; congruence|].
        inversion Hb; subst. eauto 6.
    + split; [|reflexivity]. intros _.
      exists [], (key, v), l. repeat split; auto.
    + split; [discriminate|].
      intros (before & kv & after & Hl & Hb & Hkv).
      destruct before as [|kv0 before]; simpl in Hl; injection Hl as <- ->.
      * simpl in Hkv. congruence.
      * inversion Hb; subst. simpl in *. congruence.
Qed.

End Match.

(** X8.  [match(query)] is the conjunction of [match_key] over the pairs
    of the flattened query, evaluated in their order and stopped at the
    first pair that fails: it is true exactly when every pair is true,
    and false exactly when some pair is false and all the pairs before
    it are true.  The pairs after the failing one are not looked at, so
    that an unsupported operator among them is not reported. *)
Theorem match_is_a_conjunction (self : EphemeralDocument) (query : pydict) :
  (match_ self (Some query) = Ok true <->
   Forall (fun kv => match_key self (fst kv) (snd kv) = Ok true)
     (Py.items (_flatten query))) /\
  (match_ self (Some query) = Ok false <->
   exists before kv after,
     Py.items (_flatten query) = before ++ kv :: after /\
     Forall (fun kv => match_key self (fst kv) (snd kv) = Ok true) before /\
     match_key self (fst kv) (snd kv) = Ok false).
Proof.
  destruct query as [|item query].
  - split.
    + split; [constructor | reflexivity].
    + split; [discriminate|]. intros (before & kv & after & H & _).
      now destruct before.
  - split; [apply match_items_true | apply match_items_false].
Qed.

Lemma match_is_a_conjunction_witness :
  match_ x3_document (Some foo_then_x_gte_5) = Ok false /\
  exists before kv after,
    Py.items (_flatten foo_then_x_gte_5) = before ++ kv :: after /\
    Forall (fun kv => match_key x3_document (fst kv) (snd kv) = Ok true) before /\
    match_key x3_document (fst kv) (snd kv) = Ok false.
Proof.
  assert (H : match_ x3_document (Some foo_then_x_gte_5) = Ok false)
    by reflexivity.
  split; [exact H|].
  exact (proj1 (proj2 (match_is_a_conjunction x3_document _)) H).
Defined.

(** X9.  A query key [field.name] whose last part [name] starts with "$"
    selects an operator.  If [name] is not one of ["$in"], ["$gte"],
    ["$gt"], ["$lte"], [match_key] raises the unsupported-operator error
    that names it, on every document, even one without the field.
    Otherwise the operator is applied to the value stored under [field]
    (which may itself be a dotted path) and to the value of the query,
    and a document without the field does not match. *)
Theorem match_key_operator
    (self : EphemeralDocument) (field name : string) (v : value) :
  has_dot name = false ->
  Py.startswith name "$" = true ->
  match_key self (operator_key field name) v =
  match lookup_operator operators name with
  | None => Raise (ValueError (UnsupportedOperator name))
  | Some operator =>
      match Py.get (_data self) field with
      | Some stored => operator stored v
      | None => Ok false
      end
  end.
Proof.
  intros Hname Hdollar.
  destruct (operator_key_parts field name Hname) as [Hlast Hfield].
  unfold match_key, _is_operator, _get_key_operator.
  rewrite Hlast, Hdollar, Hfield.
  now destruct (lookup_operator operators name).
Qed.

Lemma match_key_operator_witness :
  (has_dot "$gte" = false /\ Py.startswith "$gte" "$" = true) /\
  match_key x3_document (operator_key "x" "$gte") (VInt 3) =
  match lookup_operator operators "$gte" with
  | None => Raise (ValueError (UnsupportedOperator "$gte"))
  | Some operator =>
      match Py.get (_data x3_document) "x" with
      | Some stored => operator stored (VInt 3)
      | None => Ok false
      end
  end.
Proof.
  assert (Hname : has_dot "$gte" = false) by reflexivity.
  assert (Hdollar : Py.startswith "$gte" "$" = true) by reflexivity.
  split; [split; assumption|].
  exact (match_key_operator x3_document "x" "$gte" (VInt 3) Hname Hdollar).
Defined.

(** ** [count], [find] and [delete_many] together *)
Section CountDelete.

Variable query : option pydict.

Lemma retained_do_not_match documents :
  Forall (match_returns query) documents ->
  Forall (fun document => match_ document query = Ok false)
    (filter (fun document => negb (matches query document)) documents).
Proof.
  intros Hret. apply Forall_forall. intros d Hd.
  apply filter_In in Hd. destruct Hd as [Hin Hno].
  rewrite Forall_forall in Hret. destruct (Hret d Hin) as [b Hb].
  unfold matches in Hno. rewrite Hb in *. now destruct b.
Qed.

Lemma find_loop_none selection documents :
  Forall (fun document => match_ document query = Ok false) documents ->
  find_loop documents query selection = Ok [].
Proof.
  induction 1 as [|d documents Hd _ IH]; simpl; [reflexivity|].
  now rewrite Hd.
Qed.

Lemma delete_loop_none documents : forall deleted retained,
  Forall (fun document => match_ document query = Ok false) documents ->
  delete_loop documents query deleted retained
  = Ok (deleted, retained ++ documents).
Proof.
  induction documents as [|d documents IH]; intros deleted retained Hno; simpl.
  - now rewrite app_nil_r.
  - inversion Hno as [|? ? Hd Hno']; subst. rewrite Hd. simpl.
    rewrite IH by assumption. now rewrite <- app_assoc.
Qed.

End CountDelete.

(** X10.  After a call of [delete_many(query)] that returns, no document
    of the collection matches the query any more: [find(query)] returns
    the empty list, [count(query)] returns 0, and a second
    [delete_many(query)] returns 0 and changes nothing. *)
Theorem delete_many_leaves_no_match
    (query : option pydict) (self : EphemeralCollection) (deleted : nat)
    (self' : EphemeralCollection) :
  delete_many query self = (Ok deleted, self') ->
  (forall selection, find self' query selection = Ok []) /\
  count self' query = Ok 0 /\
  delete_many query self' = (Ok 0, self').
Proof.
  unfold delete_many.
  destruct (delete_loop (_documents self) query 0 []) as [[n ret]|e] eqn:E;
    [|discriminate].
  pose proof (delete_loop_returns _ _ _ _ _ E) as Hret.
  rewrite (delete_loop_Ok query _ 0 [] Hret) in E.
  injection E as _ <-. intros [= _ <-]. cbn [app _documents _indexes].
  pose proof (retained_do_not_match query _ Hret) as Hno.
  split; [|split].
  - intros selection. unfold find. cbn [_documents].
    now apply find_loop_none.
  - unfold count, find. cbn [_documents].
    now rewrite (find_loop_none query None _ Hno).
  - now rewrite (delete_loop_none query _ 0 [] Hno).
Qed.

Lemma delete_many_leaves_no_match_witness :
  delete_many x_gte_5 x_collection
    = (Ok 2, snd (delete_many x_gte_5 x_collection)) /\
  (forall selection,
     find (snd (delete_many x_gte_5 x_collection)) x_gte_5 selection = Ok []) /\
  count (snd (delete_many x_gte_5 x_collection)) x_gte_5 = Ok 0 /\
  delete_many x_gte_5 (snd (delete_many x_gte_5 x_collection))
    = (Ok 0, snd (delete_many x_gte_5 x_collection)).
Proof.
  assert (Hcall : delete_many x_gte_5 x_collection
                  = (Ok 2, snd (delete_many x_gte_5 x_collection)))
    by reflexivity.
  split; [exact Hcall|].
  exact (delete_many_leaves_no_match x_gte_5 x_collection 2 _ Hcall).
Defined.

(** X11.  [count] and [delete_many] agree on one state of the
    collection: when [count(query)] returns [n] there, [n] is the number
    of its documents whose [match(query)] is true, and
    [delete_many(query)] called on that same state, in the place of
    [count], returns [n] and removes exactly those documents.  (Nothing
    is said of a [delete_many] that comes after the [count]: the
    [select] that [count] runs on a matching document can write into an
    empty record stored in it, see [_unflatten].) *)
Theorem count_agrees_with_delete_many
    (query : option pydict) (self : EphemeralCollection) (n : nat) :
  count self query = Ok n ->
  n = List.length (filter (matches query) (_documents self)) /\
  delete_many query self =
    (Ok n, {| _documents :=
                filter (fun document => negb (matches query document))
                  (_documents self);
              _indexes := _indexes self |}).
Proof.
  unfold count, find.
  destruct (find_loop (_documents self) query None) as [found|] eqn:E;
    simpl; [|discriminate].
  intros [= <-].
  apply find_loop_Ok in E. destruct E as [Hret Hsel].
  assert (Hn : List.length found
               = List.length (filter (matches query) (_documents self)))
    by (symmetry; eapply Forall2_length; eassumption).
  split; [exact Hn|].
  unfold delete_many. now rewrite (delete_loop_Ok query _ 0 [] Hret), Hn.
Qed.

Lemma count_agrees_with_delete_many_witness :
  count x_collection x_gte_5 = Ok 2 /\
  2 = List.length (filter (matches x_gte_5) (_documents x_collection)) /\
  delete_many x_gte_5 x_collection =
    (Ok 2, {| _documents :=
                filter (fun document => negb (matches x_gte_5 document))
                  (_documents x_collection);
              _indexes := _indexes x_collection |}).
Proof.
  assert (Hcount : count x_collection x_gte_5 = Ok 2) by reflexivity.
  split; [exact Hcount|].
  exact (count_agrees_with_delete_many x_gte_5 x_collection 2 Hcount).
Defined.

(** ** [drop] *)

(** X12.  [drop] also removes the index of [_id] that [__init__] creates:
    on a dropped collection nothing is validated any more.  Records that
    carry an [_id] are all inserted, whatever their [_id]s, equal or not:
    [insert_many] returns their number, appends their flattenings in
    order, leaves the records alone and tracks nothing. *)
Theorem drop_removes_the_id_index
    (self : EphemeralCollection) (documents : list loc) (h : heap) :
  Forall (fun l => Py.contains (h l) "_id" = true) documents ->
  drop self = {| _documents := []; _indexes := [] |} /\
  insert_many documents (h, drop self) =
    (Ok (List.length documents),
     (h, {| _documents := map (fun l => new_document (h l)) documents;
            _indexes := [] |})).
Proof.
  intros Hids. split; [reflexivity|].
  unfold insert_many, drop.
  assert (Hloop : forall done,
            insert_loop documents (h, {| _documents := done; _indexes := [] |})
            = (Ok tt, (h, {| _documents :=
                               done ++ map (fun l => new_document (h l)) documents;
                             _indexes := [] |}))).
  { induction Hids as [|l documents Hl _ IH]; intros done; cbn [insert_loop map].
    - now rewrite app_nil_r.
    - unfold insert_one, assign_id. rewrite Hl.
      cbn [negb _validate_index _indexes map validate_indexes _documents
             _register_keys register_indexes].
      rewrite IH, <- app_assoc. reflexivity. }
  now rewrite (Hloop []).
Qed.

Lemma drop_removes_the_id_index_witness :
  Forall (fun l => Py.contains (id_records l) "_id" = true) [0; 0] /\
  drop x_collection = {| _documents := []; _indexes := [] |} /\
  insert_many [0; 0] (id_records, drop x_collection) =
    (Ok (List.length [0; 0]),
     (id_records,
      {| _documents := map (fun l => new_document (id_records l)) [0; 0];
         _indexes := [] |})).
Proof.
  assert (Hids : Forall (fun l => Py.contains (id_records l) "_id" = true)
                   [0; 0]).
  { repeat (apply Forall_cons; [reflexivity|]). apply Forall_nil. }
  split; [exact Hids|].
  exact (drop_removes_the_id_index x_collection [0; 0] id_records Hids).
Defined.

(** ** The flat representation *)
Section Flat.

Lemma flat_get d k v : flat d -> Py.get d k = Some v -> is_leaf v = true.
Proof.
  unfold flat. rewrite Forall_forall. intros Hd Hget.
  apply get_Some_In in Hget. exact (Hd (k, v) Hget).
Qed.

Lemma flat_setitem d k v : flat d -> is_leaf v = true -> flat (Py.setitem d k v).
Proof.
  unfold flat, Py.setitem. intros Hd Hv.
  destruct (Py.contains d k); [|now constructor].
  induction Hd as [|[k0 v0] d Hk0 Hd IH]; simpl; [constructor|].
  destruct (String.eqb k0 k); constructor; auto.
Qed.

Lemma flat_remove d k : flat d -> flat (Py.remove d k).
Proof.
  unfold flat, Py.remove. rewrite !Forall_forall.
  intros Hd kv Hkv. apply filter_In in Hkv. now apply Hd.
Qed.

Lemma flat_update d other : flat d -> flat other -> flat (Py.update d other).
Proof.
  unfold Py.update, Py.items. intros Hd Hother.
  assert (Hrev : flat (rev other)).
  { unfold flat in *. rewrite Forall_forall in *.
    intros kv Hkv. apply Hother. now apply in_rev. }
  clear Hother. revert d Hd.
  induction Hrev as [|[k v] l Hv _ IH]; intros d Hd; simpl; [assumption|].
  apply IH. now apply flat_setitem.
Qed.

Lemma flat_rename_keys key d : flat d -> flat (rename_keys key d).
Proof.
  unfold rename_keys. generalize (Py.keys d) as ks. intros ks. revert d.
  induction ks as [|k ks IH]; intros d Hd; simpl; [assumption|].
  apply IH. unfold rename_key.
  destruct (Py.get d k) as [v|] eqn:E; [|assumption].
  apply flat_setitem; [now apply flat_remove | eauto using flat_get].
Qed.

Lemma flat_flatten_list d :
  Forall (fun kv => flat (flatten_value (snd kv))) d -> flat (__flatten d).
Proof.
  induction 1 as [|[key x] d Hx _ IH]; [constructor|].
  rewrite flatten_cons. apply flat_update; [|exact IH].
  simpl in Hx.
  destruct x as [| | | | |[|item sub]];
    try (constructor; [reflexivity | constructor]).
  now apply flat_rename_keys.
Qed.

Lemma flat_flatten_value : forall v, flat (flatten_value v).
Proof.
  fix IH 1. intros [| | | | |d]; try constructor.
  apply flat_flatten_list.
  induction d as [|[key x] d IHd]; constructor; [apply IH | exact IHd].
Qed.

(** Flattening a record without nested records keeps its bindings. *)
Lemma flatten_flat_get d k :
  flat d -> NoDup (map fst d) -> Py.get (__flatten d) k = Py.get d k.
Proof.
  intros Hflat. induction Hflat as [|[key x] d Hx _ IH]; [reflexivity|].
  intros Hnd. inversion Hnd as [|? ? Hnotin Hnd']; subst.
  rewrite flatten_cons, get_update, (IH Hnd').
  assert (Hnone : Py.get d key = None) by now apply get_None_not_In.
  simpl in Hx.
  destruct x as [| | | | |[|item sub]]; try discriminate Hx;
    cbn [Py.get]; (destruct (String.eqb key k) eqn:E;
      [apply String.eqb_eq in E; subst k; now rewrite Hnone
      |now destruct (Py.get d k)]).
Qed.

(** [_unflatten] of a map whose keys have no "." assigns its items at
    the top level. *)
Lemma unflatten_items_top l : forall u,
  Forall (fun kv => has_dot (fst kv) = false) l ->
  unflatten_items u l =
  Ok (fold_left (fun acc kv => Py.setitem acc (fst kv) (snd kv)) l u).
Proof.
  induction l as [|[key v] l IH]; intros u Hl; [reflexivity|].
  inversion Hl as [|? ? Hkey Hl']; subst. simpl in Hkey.
  cbn [unflatten_items unflatten_item fold_left fst snd].
  rewrite (split_no_dot _ Hkey). cbn [removelast List.last assign_path bind].
  now apply IH.
Qed.

End Flat.

(** X13.  [_flatten] builds leaves only: every value of the flat map it
    returns, for any record, hence of the [_data] of a document that
    [EphemeralDocument(data)] has just built, is a scalar, a list or an
    empty record, never a non-empty record; and [update], on a document
    whose values are such leaves, gives a document whose values are
    such leaves.  (This is a property of the two constructions, not of
    every stored document: [_unflatten] can later write into an empty
    record stored in a document.) *)
Theorem flatten_builds_leaves :
  (forall data k v,
     Py.get (_data (new_document data)) k = Some v -> is_leaf v = true) /\
  (forall self data self',
     flat (_data self) -> update self data = Ok self' -> flat (_data self')).
Proof.
  split.
  - intros data k v. apply flat_get. apply flat_flatten_value.
  - intros self data self' Hflat.
    destruct (update_payload data) as [d|] eqn:E.
    + rewrite (update_Ok _ _ _ E). intros [= <-]. cbn [updated_with _data].
      apply flat_update; [assumption | apply flat_flatten_value].
    + now rewrite (update_raise _ _ E).
Qed.

Lemma flatten_builds_leaves_witness :
  (flat (_data ab_document) /\
   update ab_document (Py.dict_of [("c", VDict nested_twice)])
     = Ok (updated_with (Py.dict_of [("c", VDict nested_twice)]) ab_document)) /\
  flat (_data (updated_with (Py.dict_of [("c", VDict nested_twice)])
                 ab_document)).
Proof.
  assert (Hflat : flat (_data ab_document)).
  { repeat (apply Forall_cons; [reflexivity|]). apply Forall_nil. }
  assert (Hupd : update ab_document (Py.dict_of [("c", VDict nested_twice)])
                 = Ok (updated_with (Py.dict_of [("c", VDict nested_twice)])
                         ab_document)) by reflexivity.
  split; [split; assumption|].
  exact (proj2 flatten_builds_leaves ab_document _ _ Hflat Hupd).
Defined.

(** X14.  [_flatten] is idempotent on bindings: flattening a flat map
    again gives a map with the same value under every key.  (The order
    of the items is reversed by each flattening.) *)
Theorem flatten_idempotent (d : pydict) (k : string) :
  Py.get (_flatten (_flatten d)) k = Py.get (_flatten d) k.
Proof.
  unfold _flatten, Py.deepcopy.
  apply flatten_flat_get.
  - apply flat_flatten_value.
  - apply NoDup_flatten_value.
Qed.

(** X15.  A record whose keys are distinct and have no "." and whose
    values are leaves (no nested record) is read back as it was stored:
    the dict returned by [to_dict] for the document made from it binds
    every key to the same value as the record. *)
Theorem flat_record_round_trip (data : pydict) :
  flat data ->
  NoDup (map fst data) ->
  Forall (fun kv => has_dot (fst kv) = false) data ->
  exists record,
    to_dict (new_document data) = Ok record /\
    forall k, Py.get record k = Py.get data k.
Proof.
  intros Hflat Hnd Hdots.
  assert (Hget : forall k, Py.get (_flatten data) k = Py.get data k)
    by (intros k; now apply flatten_flat_get).
  assert (Hkeys : Forall (fun kv => has_dot (fst kv) = false)
                    (Py.items (_flatten data))).
  { apply Forall_forall. intros [k v] Hkv. unfold Py.items in Hkv.
    apply in_rev in Hkv.
    assert (Hin : In k (map fst data)).
    { destruct (Py.get data k) as [w|] eqn:E.
      - apply get_Some_In in E. now apply (in_map fst) in E.
      - rewrite <- Hget in E. apply get_None_not_In in E.
        exfalso. apply E. now apply (in_map fst) in Hkv. }
    apply in_map_iff in Hin. destruct Hin as ([k' w] & Hk & Hin).
    simpl in Hk. subst k'.
    rewrite Forall_forall in Hdots. exact (Hdots (k, w) Hin). }
  unfold to_dict, select, _unflatten. cbn [new_document _data].
  rewrite (unflatten_items_top _ [] Hkeys).
  eexists. split; [reflexivity|].
  intros k. rewrite get_fold_setitem. unfold Py.items.
  rewrite rev_involutive, Hget. now destruct (Py.get data k).
Qed.

Lemma flat_record_round_trip_witness :
  (flat flat_record /\
   NoDup (map fst flat_record) /\
   Forall (fun kv => has_dot (fst kv) = false) flat_record) /\
  exists record,
    to_dict (new_document flat_record) = Ok record /\
    forall k, Py.get record k = Py.get flat_record k.
Proof.
  assert (Hflat : flat flat_record).
  { repeat (apply Forall_cons; [reflexivity|]). apply Forall_nil. }
  assert (Hnd : NoDup (map fst flat_record)).
  { repeat (apply NoDup_cons; [simpl; intuition discriminate|]).
    apply NoDup_nil. }
  assert (Hdots : Forall (fun kv => has_dot (fst kv) = false) flat_record).
  { repeat (apply Forall_cons; [reflexivity|]). apply Forall_nil. }
  split; [repeat split; assumption|].
  exact (flat_record_round_trip flat_record Hflat Hnd Hdots).
Defined.

(** ** The local function [key_is_match] of [select] *)
Section KeyIsMatch.

Lemma prefix_app s : forall t, String.prefix s (s ++ t) = true.
Proof.
  induction s as [|a s IH]; intros t; simpl; [now destruct t|].
  destruct (ascii_dec a a); [apply IH | contradiction].
Qed.

Lemma eqb_app_longer s d t : String.eqb (s ++ String d t) s = false.
Proof.
  induction s as [|a s IH]; simpl; [reflexivity|].
  now rewrite Ascii.eqb_refl.
Qed.

Lemma remove_all_aux_skip old a : forall t,
  Py.remove_all_aux old (String.length a) (a ++ t) = Py.remove_all_aux old 0 t.
Proof.
  induction a as [|x a IH]; intros t; [reflexivity|].
  simpl. apply IH.
Qed.

Lemma remove_all_aux_occurrence c s t :
  Py.remove_all_aux (String c s) 0 (String c s ++ t) =
  Py.remove_all_aux (String c s) 0 t.
Proof.
  change (String c s ++ t)%string with (String c (s ++ t)).
  cbn [Py.remove_all_aux].
  change (String c (s ++ t)) with (String c s ++ t)%string.
  rewrite prefix_app.
  replace (String.length (String c s) - 1) with (String.length s)
    by (simpl; now rewrite Nat.sub_0_r).
  apply remove_all_aux_skip.
Qed.

Lemma remove_all_aux_dot c s rest :
  c <> dot ->
  Py.remove_all_aux (String c s) 0 (String dot rest) =
  String dot (Py.remove_all_aux (String c s) 0 rest).
Proof.
  intros Hc. cbn [Py.remove_all_aux String.prefix].
  destruct (ascii_dec c dot); [contradiction | reflexivity].
Qed.

End KeyIsMatch.

(** X16.  [key_is_match] accepts a field below the selected key: when
    the selected key does not start with ".", every key made of the
    selected key, a "." and anything else is a match; and a key that
    does not start with the selected key is not a match. *)
Theorem key_is_match_dotted_prefix :
  (forall c s rest,
     c <> dot ->
     key_is_match (String c s ++ String dot rest) (String c s) = Ok true) /\
  (forall key selected_key,
     Py.startswith key selected_key = false ->
     key_is_match key selected_key = Ok false).
Proof.
  split.
  - intros c s rest Hc. unfold key_is_match, Py.startswith.
    rewrite eqb_app_longer, prefix_app. unfold Py.remove_all.
    rewrite remove_all_aux_occurrence, (remove_all_aux_dot _ _ _ Hc).
    cbn [Py.first_char bind]. now rewrite Ascii.eqb_refl.
  - intros key selected_key Hstart. unfold key_is_match. rewrite Hstart.
    destruct (String.eqb key selected_key) eqn:E; [|reflexivity].
    apply String.eqb_eq in E. subst key. unfold Py.startswith in Hstart.
    pose proof (prefix_app selected_key "") as Hp.
    assert (Hnil : forall s : string, (s ++ "")%string = s)
      by (induction s as [|a s IH]; simpl; congruence).
    rewrite Hnil in Hp. congruence.
Qed.

Lemma key_is_match_dotted_prefix_witness :
  key_is_match "abc.def.ghi" "abc.def" = Ok true /\
  (Py.startswith "abc.def.ghi" "xyz" = false /\
   key_is_match "abc.def.ghi" "xyz" = Ok false).
Proof.
  split.
  - apply (proj1 key_is_match_dotted_prefix "a"%char "bc.def" "ghi").
    discriminate.
  - split; [reflexivity|].
    apply (proj2 key_is_match_dotted_prefix "abc.def.ghi" "xyz").
    reflexivity.
Defined.

(** X17.  [key_is_match] compares after removing every occurrence of
    the selected key, not only the leading one: a key that repeats the
    selected key before the "." is a match although the selected key is
    not one of its dotted prefixes (the selector [a] selects the field
    [aa.b]). *)
Theorem key_is_match_repeated_selector (c : ascii) (s rest : string) :
  c <> dot ->
  key_is_match (String c s ++ String c s ++ String dot rest) (String c s)
    = Ok true.
Proof.
  intros Hc. unfold key_is_match, Py.startswith.
  rewrite prefix_app.
  assert (Hne : String.eqb (String c s ++ String c s ++ String dot rest)
                  (String c s) = false).
  { change (String c s ++ String dot rest)%string
      with (String c (s ++ String dot rest)).
    apply eqb_app_longer. }
  rewrite Hne. unfold Py.remove_all.
  rewrite !remove_all_aux_occurrence, (remove_all_aux_dot _ _ _ Hc).
  cbn [Py.first_char bind]. now rewrite Ascii.eqb_refl.
Qed.

Lemma key_is_match_repeated_selector_witness :
  key_is_match "aa.b" "a" = Ok true.
Proof.
  apply (key_is_match_repeated_selector "a"%char "" "b"). discriminate.
Defined.

(** ** The facade [EphemeralDB] *)
Section Facade.

Lemma get_set_collection_other db name c other :
  other <> name ->
  get_collection (set_collection db name c) other = get_collection db other.
Proof.
  intros Hne. induction db as [|[n old] db IH]; simpl.
  - destruct (String.eqb name other) eqn:E; [|reflexivity].
    apply String.eqb_eq in E. congruence.
  - destruct (String.eqb n name) eqn:E; simpl.
    + apply String.eqb_eq in E. subst n.
      destruct (String.eqb name other) eqn:E'; [|reflexivity].
      apply String.eqb_eq in E'. congruence.
    + destruct (String.eqb n other); [reflexivity | exact IH].
Qed.

Lemma set_collection_new db name c :
  get_collection db name = None ->
  set_collection db name c = db ++ [(name, c)].
Proof.
  induction db as [|[n old] db IH]; simpl; [reflexivity|].
  destruct (String.eqb n name); [discriminate|].
  intros H. now rewrite (IH H).
Qed.

Lemma same_elsewhere_refl name w : same_elsewhere name w w.
Proof.
  unfold same_elsewhere. now destruct (_db (snd w)).
Qed.

Lemma same_elsewhere_trans name w1 w2 w3 :
  same_elsewhere name w1 w2 -> same_elsewhere name w2 w3 ->
  same_elsewhere name w1 w3.
Proof.
  unfold same_elsewhere.
  destruct (_db (snd w1)), (_db (snd w2)), (_db (snd w3)); try tauto.
  intros H12 H23 other Hne. now rewrite (H23 other Hne), (H12 other Hne).
Qed.

Lemma with_collection_elsewhere {A : Type} name
    (method : heap * EphemeralCollection -> Res A * (heap * EphemeralCollection))
    (w : world) :
  same_elsewhere name w (snd (with_collection name method w)).
Proof.
  destruct w as [h self]. unfold with_collection.
  destruct (_db self) as [db|] eqn:E.
  - destruct (method _) as [r [h' c']]. unfold same_elsewhere. simpl.
    rewrite E. intros other Hne. now apply get_set_collection_other.
  - apply same_elsewhere_refl.
Qed.

Lemma write_elsewhere name data query w :
  same_elsewhere name w (snd (write name data query w)).
Proof.
  destruct query as [query|]; apply with_collection_elsewhere.
Qed.

Lemma with_collection_closed {A : Type} name
    (method : heap * EphemeralCollection -> Res A * (heap * EphemeralCollection))
    (w : world) :
  _db (snd w) = None -> with_collection name method w = (Raise TypeError, w).
Proof.
  destruct w as [h self]. simpl. intros E. unfold with_collection.
  now rewrite E.
Qed.

End Facade.

(** X18.  An operation of the facade on one collection leaves every
    other collection as it was, and neither opens nor closes the
    connection; this holds whether the operation returns or raises. *)
Theorem facade_touches_one_collection (collection_name : string) (w : world) :
  (forall keys unique,
     same_elsewhere collection_name w
       (snd (ensure_index collection_name keys unique w))) /\
  (forall data query,
     same_elsewhere collection_name w
       (snd (write collection_name data query w))) /\
  (forall query selection,
     same_elsewhere collection_name w
       (snd (read collection_name query selection w))) /\
  (forall query data selection,
     same_elsewhere collection_name w
       (snd (read_and_write collection_name query data selection w))) /\
  (forall query,
     same_elsewhere collection_name w
       (snd (db_count collection_name query w))) /\
  (forall query,
     same_elsewhere collection_name w
       (snd (db_remove collection_name query w))).
Proof.
  repeat split; intros; try apply with_collection_elsewhere;
    try apply write_elsewhere.
  unfold read_and_write.
  pose proof (with_collection_elsewhere collection_name
    (on_self (pure_method (fun c => find c query None))) w) as H1.
  fold (read collection_name query None) in H1.
  destruct (read collection_name query None w) as [[[|first found]|e] w1];
    try exact H1.
  cbn [snd] in H1.
  destruct (Py.getitem first "_id") as [found_id|e]; [|exact H1].
  pose proof (write_elsewhere collection_name data
    (Some (Py.dict_of [("_id", found_id)])) w1) as H2.
  destruct (write collection_name data _ w1) as [[n|e] w2];
    cbn [snd] in H2;
    [|exact (same_elsewhere_trans _ _ _ _ H1 H2)].
  pose proof (with_collection_elsewhere collection_name
    (on_self (pure_method
       (fun c => find c (Some (Py.dict_of [("_id", found_id)])) None))) w2)
    as H3.
  fold (read collection_name (Some (Py.dict_of [("_id", found_id)])) None)
    in H3.
  destruct (read collection_name _ None w2) as [[[|updated rest]|e] w3];
    cbn [snd] in *;
    exact (same_elsewhere_trans _ _ _ _ H1
             (same_elsewhere_trans _ _ _ _ H2 H3)).
Qed.

(** X19.  Naming a collection that does not exist yet creates it, even
    for a read: on a connected store that has no collection of the
    name, [read] returns the empty list and [count] returns 0, and both
    leave the objects of the caller and the other collections alone and
    add, as the last entry of the store, a collection under that name
    with no document and the [_id] index only.  (What a read leaves of
    a collection that exists is not stated here.) *)
Theorem read_creates_missing_collection (collection_name : string)
    (query selection : option pydict) (h : heap) (self : EphemeralDB)
    (db : list (string * EphemeralCollection)) :
  _db self = Some db ->
  get_collection db collection_name = None ->
  read collection_name query selection (h, self) =
    (Ok [], (h, {| _db := Some (db ++ [(collection_name, new_collection)]) |})) /\
  db_count collection_name query (h, self) =
    (Ok 0, (h, {| _db := Some (db ++ [(collection_name, new_collection)]) |})) /\
  new_collection = {| _documents := []; _indexes := [(["_id"], [])] |}.
Proof.
  intros E Hnone. unfold read, db_count, with_collection, on_self, pure_method.
  rewrite E, Hnone, (set_collection_new _ _ _ Hnone). cbn [fst snd].
  repeat split.
Qed.

Lemma read_creates_missing_collection_witness :
  exists db,
    (_db (snd rw_world) = Some db /\ get_collection db "d" = None) /\
    get_collection db "c" <> None /\
    read "d" None None rw_world =
      (Ok [], (fst rw_world,
               {| _db := Some (db ++ [("d", new_collection)]) |})).
Proof.
  eexists. split; [split; reflexivity|].
  split; [discriminate|].
  exact (proj1 (read_creates_missing_collection "d" None None
                  (fst rw_world) (snd rw_world) _ eq_refl eq_refl)).
Defined.

(** X20.  After [close_connection] every operation of the facade raises
    a [TypeError] and changes nothing, while [is_connected] still
    answers true. *)
Theorem closed_store_raises_type_error (collection_name : string) (w : world) :
  _db (snd w) = None ->
  is_connected (snd w) = true /\
  (forall keys unique,
     ensure_index collection_name keys unique w = (Raise TypeError, w)) /\
  (forall data query,
     write collection_name data query w = (Raise TypeError, w)) /\
  (forall query selection,
     read collection_name query selection w = (Raise TypeError, w)) /\
  (forall query data selection,
     read_and_write collection_name query data selection w
       = (Raise TypeError, w)) /\
  (forall query, db_count collection_name query w = (Raise TypeError, w)) /\
  (forall query, db_remove collection_name query w = (Raise TypeError, w)).
Proof.
  intros E.
  assert (Hread : forall query selection,
            read collection_name query selection w = (Raise TypeError, w))
    by (intros; now apply with_collection_closed).
  repeat split; intros; try (now apply with_collection_closed).
  - destruct query; now apply with_collection_closed.
  - unfold read_and_write. now rewrite Hread.
Qed.

Lemma closed_store_raises_type_error_witness :
  _db (snd closed_world) = None /\
  read "c" None None closed_world = (Raise TypeError, closed_world).
Proof.
  split; [reflexivity|].
  exact (proj1 (proj2 (proj2 (proj2
           (closed_store_raises_type_error "c" closed_world eq_refl))))
           None None).
Defined.
